(** * Yoga_Pose_Estimation: the normalize-and-split pipelines

    A shallow embedding of [normalize/normalize_and_split_images.py] and
    [normalize/normalize_and_reencode_and_split_videos.py]:

    - Python floats are IEEE-754 binary64 values, computed with the
      Standard Library's executable specification [SpecFloat];
    - Python exceptions are an error monad, threaded with the process state
      (file system and console) where the code has effects;
    - [random.Random(seed)] is an interface with the two operations the code
      relies on; the Mersenne Twister of CPython instantiates it;
    - [pathlib] paths are a root and a list of components.  *)

From Stdlib Require Import ZArith Lia Bool Ascii String.
From Stdlib Require Import Floats.SpecFloat.
From stdpp Require Import base option list strings gmap.

Open Scope Z_scope.

(** ** Python exceptions and the error monad *)

Module Py.

Inductive exn : Type :=
| AssertionError
| OverflowError
| ValueError
| IndexError
| KeyError
| NameError (name : string)
| ImportError (module : string)
| OSError
| FileNotFoundError
| CalledProcessError (status : Z)
| Cv2Error
| SystemExit (status : Z).

Inductive result (A : Type) : Type :=
| Ok (a : A)
| Raise (e : exn).
Arguments Ok {A} a.
Arguments Raise {A} e.

Definition bind {A B} (m : result A) (k : A -> result B) : result B :=
  match m with
  | Ok a => k a
  | Raise e => Raise e
  end.

(** [assert c] *)
Definition assert (c : bool) : result unit :=
  if c then Ok tt else Raise AssertionError.

End Py.
Export Py.

#[global] Instance result_ret : MRet result := @Ok.
#[global] Instance result_bind : MBind result := fun A B k m => Py.bind m k.
#[global] Instance result_fmap : FMap result :=
  fun A B f m => match m with Ok a => Ok (f a) | Raise e => Raise e end.

(** ** binary64 arithmetic, as CPython's [float] *)

Module Binary64.

Definition prec : Z := 53.
Definition emax : Z := 1024.

Definition float := spec_float.

Definition fadd : float -> float -> float := SFadd prec emax.
Definition fsub : float -> float -> float := SFsub prec emax.
Definition fmul : float -> float -> float := SFmul prec emax.
Definition fabs : float -> float := SFabs.
Definition flt : float -> float -> bool := SFltb.

(** The literals of the two scripts, each the double nearest to its
    decimal text: mantissa and exponent of [float.hex()]. *)
Definition f0_7 : float := S754_finite false 0x16666666666666 (-53).
Definition f0_2 : float := S754_finite false 0x1999999999999a (-55).
Definition f0_1 : float := S754_finite false 0x1999999999999a (-56).
Definition f1_0 : float := S754_finite false 0x10000000000000 (-52).
Definition f1e_6 : float := S754_finite false 0x10c6f7a0b5ed8d (-72).
Definition f0_5 : float := S754_finite false 0x10000000000000 (-53).
Definition f0_3 : float := S754_finite false 0x13333333333333 (-54).

(** [m * 2^e] is within half a unit in the last place of [num / den]. *)
Definition nearest_to (num den : Z) (f : float) : bool :=
  match f with
  | S754_finite false m e =>
      bounded prec emax m e &&
      (2 * Z.abs (den * Z.pos m - num * 2 ^ (- e)) <=? den)
  | _ => false
  end.

(** int -> float, as in [n * 0.7]: correctly rounded (ties to even);
    [OverflowError: int too large to convert to float] past the range. *)
Definition float_of_int (n : Z) : result float :=
  match binary_normalize prec emax n 0 false with
  | S754_infinity _ => Raise OverflowError
  | f => Ok f
  end.

(** [int(x)]: truncation toward zero. *)
Definition int_of_float (x : float) : result Z :=
  match x with
  | S754_zero _ => Ok 0
  | S754_finite s m e => Ok (cond_Zopp s (Z.shiftl (Z.pos m) e))
  | S754_infinity _ => Raise OverflowError
  | S754_nan => Raise ValueError
  end.

(** [n * r] for an int [n] and a float [r]. *)
Definition int_mul_float (n : Z) (r : float) : result float :=
  x ← float_of_int n; Ok (fmul x r).

(** [sum(xs)] over floats, from the int start value 0, left to right (as
    CPython does through 3.11; later versions compensate the rounding
    errors, which moves the sum by a few units in the last place at most). *)
Definition fsum (xs : list float) : float :=
  foldl fadd (S754_zero false) xs.

(** [int(n * r)] *)
Definition int_times (n : Z) (r : float) : result Z :=
  x ← int_mul_float n r; int_of_float x.

(** [sys.maxsize]: no list is longer. *)
Definition PY_SSIZE_T_MAX : Z := 2 ^ 63 - 1.

End Binary64.
Export Binary64.

(** ** Rounding to nearest, ties to even, on integers

    The reference the float operations above are compared with. *)

Module Rounding.

(** [m / 2^k] rounded to the nearest integer, ties to even, for [k >= 1] *)
Definition rne (m k : Z) : Z :=
  let q := m / 2 ^ k in
  let rem := m mod 2 ^ k in
  let half := 2 ^ (k - 1) in
  if rem <? half then q
  else if rem =? half then (if Z.even q then q else q + 1)
  else q + 1.

(** [p] rounded to 53 significant bits *)
Definition round53 (p : Z) : Z :=
  let k := Zdigits2 p - 53 in
  if k <=? 0 then p else rne p k * 2 ^ k.

End Rounding.
Export Rounding.

(** ** Lists as Python sequences *)

Module PyList.

(** A slice bound: negative counts from the end, all clipped to the
    sequence. *)
Definition slice_index (len : nat) (i : Z) : nat :=
  if i <? 0 then Z.to_nat (Z.max 0 (i + Z.of_nat len))
  else Nat.min (Z.to_nat i) len.

(** [l[lo:hi]] *)
Definition slice {A} (l : list A) (lo hi : Z) : list A :=
  let a := slice_index (length l) lo in
  let b := slice_index (length l) hi in
  take (b - a)%nat (drop a l).

(** [l[:hi]] and [l[lo:]] *)
Definition slice_to {A} (l : list A) (hi : Z) : list A :=
  take (slice_index (length l) hi) l.
Definition slice_from {A} (l : list A) (lo : Z) : list A :=
  drop (slice_index (length l) lo) l.

(** [l[i]] for a non-negative index *)
Definition getitem {A} (l : list A) (i : nat) : result A :=
  match l !! i with
  | Some a => Ok a
  | None => Raise IndexError
  end.

(** [x[i], x[j] = x[j], x[i]]: both reads, then the two stores. *)
Definition swap {A} (x : list A) (i j : nat) : result (list A) :=
  xj ← getitem x j;
  xi ← getitem x i;
  Ok (<[j := xi]> (<[i := xj]> x)).

End PyList.
Export PyList.

(** ** [random.shuffle], over any generator *)

Section Shuffle.

(** [random.Random]: the state of a generator, its seeding from an int and
    [_randbelow(n)]. *)
Variable rng : Type.
Variable Random : Z -> rng.
Variable randbelow : nat -> rng -> nat * rng.

Context {A : Type}.

(** [for i in reversed(range(1, len(x))): j = randbelow(i + 1); swap] *)
Fixpoint shuffle_from (i : nat) (x : list A) (g : rng) : result (list A) :=
  match i with
  | O => Ok x
  | S i' =>
      let '(j, g') := randbelow (S i) g in
      x' ← swap x i j;
      shuffle_from i' x' g'
  end.

Definition shuffle (x : list A) (g : rng) : result (list A) :=
  shuffle_from (length x - 1)%nat x g.

End Shuffle.

(** The contract of [_randbelow(n)]: an int in [range(n)]. *)
Definition randbelow_in_range {rng} (randbelow : nat -> rng -> nat * rng) : Prop :=
  forall n g, (0 < n)%nat -> (fst (randbelow n g) < n)%nat.

(** No value occurs in two of the three sequences. *)
Definition pairwise_disjoint {A} (tr va te : list A) : Prop :=
  (forall x, x ∈ tr -> x ∉ va) /\
  (forall x, x ∈ tr -> x ∉ te) /\
  (forall x, x ∈ va -> x ∉ te).

(** The sizes the proportionality property asks for, with exact floors:
    [floor(0.7 n)], [floor(0.9 n) - floor(0.7 n)] and the rest. *)
Definition floor_sizes (n : Z) : Z * Z * Z :=
  (7 * n / 10, 9 * n / 10 - 7 * n / 10, n - 9 * n / 10).

Definition sizes {A} (s : list A * list A * list A) : Z * Z * Z :=
  let '(tr, va, te) := s in
  (Z.of_nat (length tr), Z.of_nat (length va), Z.of_nat (length te)).

(** ** The Mersenne Twister behind [random.Random] *)

Module MT19937.

Definition N : nat := 624.
Definition M : nat := 397.
Definition MATRIX_A : Z := 0x9908b0df.
Definition UPPER_MASK : Z := 0x80000000.
Definition LOWER_MASK : Z := 0x7fffffff.

Definition u32 (z : Z) : Z := z mod 2 ^ 32.

Record state := mkState { mt : list Z; index : nat }.

Definition word (l : list Z) (i : nat) : Z := default 0 (l !! i).

Definition init_genrand (s : Z) : state :=
  let fill l mti :=
    let p := word l (mti - 1) in
    l ++ [u32 (1812433253 * Z.lxor p (Z.shiftr p 30) + Z.of_nat mti)] in
  mkState (foldl fill [u32 s] (seq 1 (N - 1))) N.

(** [if (i >= N) { mt[0] = mt[N-1]; i = 1; }] *)
Definition wrap (l : list Z) (i : nat) : list Z * nat :=
  if (N <=? i)%nat then (<[0%nat := word l (N - 1)]> l, 1%nat) else (l, i).

Definition key_step (key : list Z) (st : list Z * nat * nat) (_ : nat)
  : list Z * nat * nat :=
  let '(l, i, j) := st in
  let p := word l (i - 1) in
  let v := u32 (Z.lxor (word l i) (u32 (Z.lxor p (Z.shiftr p 30) * 1664525))
                + word key j + Z.of_nat j) in
  let '(l', i') := wrap (<[i := v]> l) (S i) in
  (l', i', if (length key <=? S j)%nat then 0%nat else S j).

Definition mix_step (st : list Z * nat) (_ : nat) : list Z * nat :=
  let '(l, i) := st in
  let p := word l (i - 1) in
  let v := u32 (Z.lxor (word l i) (u32 (Z.lxor p (Z.shiftr p 30) * 1566083941))
                - Z.of_nat i) in
  wrap (<[i := v]> l) (S i).

Definition init_by_array (key : list Z) : state :=
  let s0 := init_genrand 19650218 in
  let k := Nat.max N (length key) in
  let '(l1, i1, _) := foldl (key_step key) (mt s0, 1%nat, 0%nat) (seq 0 k) in
  let '(l2, _) := foldl mix_step (l1, i1) (seq 0 (N - 1)) in
  mkState (<[0%nat := 0x80000000]> l2) N.

(** The 32-bit digits of [abs(seed)], least significant first; one digit
    for 0. *)
Fixpoint digits32 (fuel : nat) (n : Z) : list Z :=
  match fuel with
  | O => []
  | S f => if n <? 2 ^ 32 then [n] else (n mod 2 ^ 32) :: digits32 f (n / 2 ^ 32)
  end.

(** [random.Random(a)] for an int [a] *)
Definition Random (a : Z) : state :=
  let n := Z.abs a in
  init_by_array (digits32 (S (Z.to_nat (Z.log2 n))) n).

Definition twist_at (l : list Z) (kk : nat) : list Z :=
  let y := Z.lor (Z.land (word l kk) UPPER_MASK)
                 (Z.land (word l ((kk + 1) mod N)%nat) LOWER_MASK) in
  <[kk := Z.lxor (Z.lxor (word l ((kk + M) mod N)%nat) (Z.shiftr y 1))
                 (if Z.odd y then MATRIX_A else 0)]> l.

Definition genrand_uint32 (g : state) : Z * state :=
  let l := if (N <=? index g)%nat then foldl twist_at (mt g) (seq 0 N) else mt g in
  let i := if (N <=? index g)%nat then 0%nat else index g in
  let y := word l i in
  let y := Z.lxor y (Z.shiftr y 11) in
  let y := Z.lxor y (Z.land (u32 (Z.shiftl y 7)) 0x9d2c5680) in
  let y := Z.lxor y (Z.land (u32 (Z.shiftl y 15)) 0xefc60000) in
  let y := Z.lxor y (Z.shiftr y 18) in
  (y, mkState l (S i)).

(** [getrandbits(k)], [k > 0]: 32-bit words, least significant first, the
    last one cut down to the bits that remain. *)
Fixpoint getrandbits_words (words : nat) (k : Z) (g : state) : Z * state :=
  match words with
  | O => (0, g)
  | S w =>
      let '(r, g1) := genrand_uint32 g in
      let r := if k <? 32 then Z.shiftr r (32 - k) else r in
      let '(hi, g2) := getrandbits_words w (k - 32) g1 in
      (r + 2 ^ 32 * hi, g2)
  end.

Definition getrandbits (k : Z) (g : state) : Z * state :=
  getrandbits_words (Z.to_nat ((k - 1) / 32 + 1)) k g.

(** [while r >= n: r = getrandbits(k)].  Each draw falls below [n] with
    probability above one half; the loop is cut after [tries] further
    draws, where it yields 0. *)
Fixpoint retry (tries : nat) (n k : Z) (g : state) : Z * state :=
  let '(r, g') := getrandbits k g in
  if r <? n then (r, g')
  else match tries with
       | O => (0, g')
       | S t => retry t n k g'
       end.

Definition bit_length (n : Z) : Z := if n =? 0 then 0 else Z.log2 n + 1.

(** [_randbelow_with_getrandbits(n)] *)
Definition randbelow (n : nat) (g : state) : nat * state :=
  let '(r, g') := retry 1000 (Z.of_nat n) (bit_length (Z.of_nat n)) g in
  (Z.to_nat r, g').

End MT19937.

(** ** [pathlib]: pure POSIX paths *)

Module PathLib.

(** [root] is the empty string, one slash or two; [parts] are the
    components below it. *)
Record Path := mkPath { root : string; parts : list string }.

#[global] Instance Path_eq_dec : EqDecision Path.
Proof. solve_decision. Defined.

(** [s.split(c)] *)
Fixpoint split_on (c : ascii) (s : string) : list string :=
  match s with
  | EmptyString => [EmptyString]
  | String a s' =>
      if Ascii.eqb a c then EmptyString :: split_on c s'
      else match split_on c s' with
           | [] => [String a EmptyString]
           | h :: t => String a h :: t
           end
  end.

(** [c.join(l)] *)
Fixpoint join (c : string) (l : list string) : string :=
  match l with
  | [] => EmptyString
  | [x] => x
  | x :: l' => x +:+ c +:+ join c l'
  end.

Fixpoint leading_slashes (s : string) : nat :=
  match s with
  | String "/" s' => S (leading_slashes s')
  | _ => O
  end.

(** [splitroot]: exactly two leading slashes are kept as they are. *)
Definition parse_root (s : string) : string :=
  match leading_slashes s with
  | O => ""
  | 2%nat => "//"
  | _ => "/"
  end.

Definition keep_part (x : string) : bool :=
  negb (String.eqb x "") && negb (String.eqb x ".").

(** [Path(s)] *)
Definition parse (s : string) : Path :=
  mkPath (parse_root s) (filter (fun x => keep_part x = true) (split_on "/" s)).

(** [str(p)] *)
Definition str (p : Path) : string :=
  match root p, parts p with
  | EmptyString, [] => "."
  | r, l => r +:+ join "/" l
  end.

(** [p / q] for a path [q] *)
Definition joinpath (p q : Path) : Path :=
  match root q with
  | EmptyString => mkPath (root p) (parts p ++ parts q)
  | _ => q
  end.

(** [p / s] for a string [s] *)
Definition div (p : Path) (s : string) : Path := joinpath p (parse s).

(** [p.name] *)
Definition name (p : Path) : string := List.last (parts p) "".

(** [p.parent] *)
Definition parent (p : Path) : Path :=
  mkPath (root p) (removelast (parts p)).

(** [s.rfind('.')] *)
Fixpoint rfind_dot (s : string) : option nat :=
  match s with
  | EmptyString => None
  | String a s' =>
      match rfind_dot s' with
      | Some i => Some (S i)
      | None => if Ascii.eqb a "." then Some O else None
      end
  end.

(** [p.suffix] *)
Definition suffix (p : Path) : string :=
  let nm := name p in
  match rfind_dot nm with
  | Some i =>
      if (0 <? i)%nat && (i <? String.length nm - 1)%nat
      then String.substring i (String.length nm - i) nm
      else ""
  | None => ""
  end.

(** [p.relative_to(other)] *)
Definition relative_to (p other : Path) : result Path :=
  if bool_decide (root p = root other /\
                  take (length (parts other)) (parts p) = parts other)
  then Ok (mkPath "" (drop (length (parts other)) (parts p)))
  else Raise ValueError.

Definition lower_ascii (a : ascii) : ascii :=
  let n := nat_of_ascii a in
  if (65 <=? n)%nat && (n <=? 90)%nat then ascii_of_nat (n + 32) else a.

(** [s.lower()], on a string held as its UTF-8 bytes.  The letters A to Z
    are lowered, and so is the one other character whose lower case is an
    ASCII letter: U+212A KELVIN SIGN, the bytes E2 84 AA, becomes [k].  The
    lower case of every other character holds a character outside ASCII, as
    the character itself does, and its bytes are left as they are: a test of
    the result against ASCII strings comes out the same. *)
Fixpoint lower (s : string) : string :=
  match s with
  | EmptyString => EmptyString
  | String a s' =>
      match s' with
      | String b (String c s'') =>
          if Ascii.eqb a "226" && Ascii.eqb b "132" && Ascii.eqb c "170"
          then String "k" (lower s'')
          else String (lower_ascii a) (lower s')
      | _ => String (lower_ascii a) (lower s')
      end
  end.

(** [s.replace('\\', '/')] *)
Fixpoint replace_backslash (s : string) : string :=
  match s with
  | EmptyString => EmptyString
  | String a s' =>
      String (if Ascii.eqb a "\" then "/"%char else a) (replace_backslash s')
  end.

(** A component holds no slash. *)
Definition no_slashb (x : string) : bool :=
  forallb (fun a => negb (Ascii.eqb a "/")) (list_ascii_of_string x).

Definition no_slash (x : string) : Prop :=
  forall a, a ∈ list_ascii_of_string x -> a <> "/"%char.

(** A name as a directory listing has them: not empty, not ".", without
    slash.  [Path(...)] keeps exactly such components. *)
Definition part_okb (x : string) : bool :=
  negb (String.eqb x "") && negb (String.eqb x ".") && no_slashb x.

Definition part_ok (x : string) : Prop :=
  x <> "" /\ x <> "." /\ no_slash x.

(** A path as [Path(...)] builds them. *)
Definition clean (p : Path) : Prop :=
  (root p = "" \/ root p = "/" \/ root p = "//") /\ Forall part_ok (parts p).

End PathLib.
Export PathLib.

Notation "p // s" := (PathLib.div p s) (at level 40, left associativity).

(** ** [os.walk] over a directory tree *)

Module OS.

(** A directory: the names of its files and its subdirectories, in the
    order the directory is listed. *)
#[local] Unset Elimination Schemes.
Inductive tree : Type :=
| Dir (files : list string) (subdirs : list (string * tree)).
#[local] Set Elimination Schemes.

(** [os.path.join(a, b)] *)
Definition path_join (a b : string) : string :=
  if String.prefix "/" b then b
  else if String.eqb a "" then b
  else if Ascii.eqb (List.last (list_ascii_of_string a) "x"%char) "/" then a +:+ b
  else a +:+ "/" +:+ b.

(** [os.walk(top)], top down: [(root, dirs, files)] for [top], then for
    each subdirectory in turn. *)
Fixpoint walk (top : string) (t : tree)
  : list (string * list string * list string) :=
  match t with
  | Dir files subdirs =>
      (top, map fst subdirs, files)
        :: flat_map (fun d => walk (path_join top (fst d)) (snd d)) subdirs
  end.

(** The subdirectories have proper names, at every depth. *)
Fixpoint tree_okb (t : tree) : bool :=
  match t with
  | Dir _ subdirs => forallb (fun d => part_okb (fst d) && tree_okb (snd d)) subdirs
  end.

Fixpoint tree_ok (t : tree) : Prop :=
  match t with
  | Dir _ subdirs =>
      (fix all (l : list (string * tree)) : Prop :=
         match l with
         | [] => True
         | d :: l' => part_ok (fst d) /\ tree_ok (snd d) /\ all l'
         end) subdirs
  end.

End OS.

(** ** The process: file system, console, external programs *)

Module World.

Inductive command : Type :=
| FfmpegVersion
| FfmpegEncode (src dst : Path) (fps width height : Z).

Inductive message : Type :=
| MsgSourceNotFound (src_root : Path)
| MsgGathering
| MsgFound (total classes : nat)
| MsgUsingFfmpeg
| MsgNoFfmpeg
| MsgFailedToProcess (src : Path) (e : exn)
| MsgFfmpegFailed (src : Path) (e : exn)
| MsgFfmpegFailedFor (src : Path)
| MsgNoOpenCV
| MsgCannotOpen (src : Path)
| MsgFallbackFailed (src : Path)
| MsgDone
| MsgCounts (counts : gmap string nat)
| MsgDoneCounts (counts : gmap string nat)
| MsgExample (p : Path).

(** What the process does to the outside, in order. *)
Inductive event : Type :=
| Print (m : message)
| Run (c : command)
| Mkdir (d : Path)
| ImageOpen (src : Path)
| ImageSave (dst : Path)
| ImportCv2
| VideoCapture (src : Path)
| VideoWriter (dst : Path)
| FrameRead (src : Path).

Record world := mkWorld {
  fs_dirs : list Path;
  fs_files : list Path;
  trace : list event
}.

(** A child process either cannot be started ([FileNotFoundError]) or exits
    with a status; [wrote] tells whether it left its output file. *)
Inductive spawned : Type :=
| NotStarted
| Exited (status : Z) (wrote : bool).

(** What Pillow does with one image: it opens, resizes and saves it; or
    [Image.open] raises; or [save] raises, and then leaves the files as they
    were (it removes a file it had created). *)
Inductive pil_outcome : Type :=
| Saved
| OpenFailed (e : exn)
| SaveFailed (e : exn).

(** A decoded frame, by its shape. *)
Record frame := mkFrame { frame_h : Z; frame_w : Z }.

(** The machine the script runs on. *)
Record host := mkHost {
  src_tree : option OS.tree;
  mkdir_denied : Path -> bool;
  pil : Path -> pil_outcome;
  ffmpeg_probe : spawned;
  ffmpeg_encode : Path -> spawned;
  cv2_installed : bool;
  cv2_frames : Path -> option (list frame);
  cv2_resize_fails : frame -> bool;
  cv2_writer_opens : Path -> bool
}.

(** Effects: a state and exception monad over [world]. *)
Definition M (A : Type) : Type := world -> result A * world.

Definition ret {A} (a : A) : M A := fun w => (Ok a, w).
Definition raise {A} (e : exn) : M A := fun w => (Raise e, w).
Definition bindM {A B} (m : M A) (k : A -> M B) : M B :=
  fun w => match m w with
           | (Ok a, w') => k a w'
           | (Raise e, w') => (Raise e, w')
           end.
Definition lift {A} (r : result A) : M A := fun w => (r, w).
Definition emit (e : event) : M unit :=
  fun w => (Ok tt, mkWorld (fs_dirs w) (fs_files w) (trace w ++ [e])).
Definition print (m : message) : M unit := emit (Print m).

(** [try: body except <caught>: handler] *)
Definition try_except {A} (body : M A) (caught : exn -> bool)
    (handler : exn -> M A) : M A :=
  fun w => match body w with
           | (Raise e, w') => if caught e then handler e w' else (Raise e, w')
           | r => r
           end.

(** [for x in l: body x], with an accumulator *)
Fixpoint for_each {A S} (l : list A) (body : A -> S -> M S) (s : S) : M S :=
  match l with
  | [] => ret s
  | x :: l' => bindM (body x s) (for_each l' body)
  end.

(** [p] and the directories above it, below the root or the working
    directory, nearest last *)
Definition ancestors_or_self (p : Path) : list Path :=
  map (fun k => mkPath (root p) (take k (parts p))) (seq 1 (length (parts p))).

(** [d.mkdir(parents=True, exist_ok=True)] *)
Definition mkdir_p (h : host) (d : Path) : M unit :=
  fun w =>
    let w1 := mkWorld (fs_dirs w) (fs_files w) (trace w ++ [Mkdir d]) in
    if existsb (fun a => bool_decide (a ∈ fs_files w)) (ancestors_or_self d)
       || mkdir_denied h d
    then (Raise OSError, w1)
    else (Ok tt,
          mkWorld (list_union (fs_dirs w) (ancestors_or_self d)) (fs_files w)
                  (trace w1)).

Definition write_file (p : Path) : M unit :=
  fun w => (Ok tt, mkWorld (fs_dirs w) (list_union (fs_files w) [p]) (trace w)).

(** Every class but [SystemExit] derives from [Exception]. *)
Definition is_Exception (e : exn) : bool :=
  match e with SystemExit _ => false | _ => true end.

Definition is_CalledProcessError (e : exn) : bool :=
  match e with CalledProcessError _ => true | _ => false end.

Definition is_ImportError (e : exn) : bool :=
  match e with ImportError _ => true | _ => false end.

(** The videos that a run opened with OpenCV, in order. *)
Definition captures (t : list event) : list Path :=
  omap (fun e => match e with VideoCapture src => Some src | _ => None end) t.

(** How often a run came to [import cv2]: once for each call of
    [reencode_with_opencv]. *)
Definition cv2_imports (t : list event) : list unit :=
  omap (fun e => match e with ImportCv2 => Some tt | _ => None end) t.

End World.
Export World.

Notation "'let*' x ':=' c 'in' k" := (bindM c (fun x => k))
  (at level 10, x pattern, c at level 200, k at level 200).
Notation "c1 ';;;' c2" := (bindM c1 (fun _ => c2))
  (at level 100, c2 at level 200, right associativity).

(** ** What the two scripts share word for word *)

Module Common.

(** [files_by_class.setdefault(label, []).extend(new)], on a dict kept in
    insertion order *)
Definition setdefault_extend (label : string) (new : list Path)
    (d : list (string * list Path)) : list (string * list Path) :=
  if existsb (fun kv => String.eqb (fst kv) label) d
  then map (fun kv => if String.eqb (fst kv) label
                      then (fst kv, snd kv ++ new) else kv) d
  else d ++ [(label, new)].

(** The loop of [gather_image_files] and of [gather_video_files], which
    differ in the test on the file alone: its body for one
    [(root, dirs, files)], and the loop. *)
Definition gather_step (is_media_file : Path -> bool) (src_root : Path)
    (files_by_class : list (string * list Path))
    (entry : string * list string * list string)
  : result (list (string * list Path)) :=
  let '(root, _, files) := entry in
  let rootp := parse root in
  let media := filter (fun q => is_media_file q = true) (map (div rootp) files) in
  match media with
  | [] => Ok files_by_class
  | _ =>
      rel ← relative_to rootp src_root;
      let class_label := replace_backslash (str rel) in
      Ok (setdefault_extend class_label media files_by_class)
  end.

Definition gather (is_media_file : Path -> bool) (src_root : Path) (t : OS.tree)
  : result (list (string * list Path)) :=
  foldl (fun acc entry => d ← acc; gather_step is_media_file src_root d entry)
        (Ok []) (OS.walk (str src_root) t).

(** [counts = {"train":0,"val":0,"test":0}] *)
Definition counts0 : gmap string nat :=
  <["train" := O]> (<["val" := O]> (<["test" := O]> ∅)).

(** [counts[k] += 1] *)
Definition incr (counts : gmap string nat) (k : string)
  : result (gmap string nat) :=
  match counts !! k with
  | Some c => Ok (<[k := S c]> counts)
  | None => Raise KeyError
  end.

(** [out / split_name / kind / (Path(class_label) / src_path.name)] *)
Definition dst_path_of (out : Path) (split_name kind class_label : string)
    (src_path : Path) : Path :=
  let rel_path := parse class_label // name src_path in
  joinpath (out // split_name // kind) rel_path.

(** [sum(len(v) for v in files_by_class.values())] *)
Definition total_items (d : list (string * list Path)) : nat :=
  foldr (fun kv acc => (length (snd kv) + acc)%nat) O d.

(** The dict holds [media] under the label "." and no other ".". *)
Definition dot_first (media : list Path) (d : list (string * list Path)) : Prop :=
  exists rest, d = (".", media) :: rest /\ Forall (fun kv => fst kv <> ".") rest.

End Common.
Export Common.

(** ** normalize_and_split_images.py *)

Module Images.

Definition IMAGE_EXTS : list string :=
  [".jpg"; ".jpeg"; ".png"; ".bmp"; ".tiff"; ".webp"].

Definition is_image_file (path : Path) : bool :=
  bool_decide (lower (suffix path) ∈ IMAGE_EXTS).

(** [os.walk] is a loop over its entries; [continue] leaves the dict as it
    is, an exception ends the loop. *)
Definition gather_image_files (src_root : Path) (t : OS.tree)
  : result (list (string * list Path)) :=
  foldl
    (fun acc entry =>
       files_by_class ← acc;
       let '(root, _, files) := entry in
       let rootp := parse root in
       let img_files :=
         filter (fun q => is_image_file q = true) (map (div rootp) files) in
       match img_files with
       | [] => Ok files_by_class
       | _ =>
           rel ← relative_to rootp src_root;
           let class_label := replace_backslash (str rel) in
           Ok (setdefault_extend class_label img_files files_by_class)
       end)
    (Ok []) (OS.walk (str src_root) t).

Definition resize_and_save (h : host) (src_path dst_path : Path)
    (size : Z * Z) (quality : Z) : M unit :=
  mkdir_p h (parent dst_path) ;;;
  try_except
    (emit (ImageOpen src_path) ;;;
     match pil h src_path with
     | OpenFailed e => raise e
     | SaveFailed e => emit (ImageSave dst_path) ;;; raise e
     | Saved => emit (ImageSave dst_path) ;;; write_file dst_path
     end)
    is_Exception
    (fun e => print (MsgFailedToProcess src_path e)).

Record args := mkArgs {
  src_root : string;
  output_root : string;
  size : Z * Z;
  seed : Z;
  dry_run : bool
}.

Section WithGenerator.

Variable rng : Type.
Variable Random : Z -> rng.
Variable randbelow : nat -> rng -> nat * rng.

Definition split_list {A} (items : list A) (ratios : list float) (seed : Z)
  : result (list A * list A * list A) :=
  _ ← assert (flt (fabs (fsub (fsum ratios) f1_0)) f1e_6);
  items ← shuffle rng randbelow items (Random seed);
  let n := Z.of_nat (length items) in
  r0 ← getitem ratios 0;
  x1 ← int_mul_float n r0;
  n1 ← int_of_float x1;
  r0' ← getitem ratios 0;
  r1 ← getitem ratios 1;
  x2 ← int_mul_float n (fadd r0' r1);
  n2 ← int_of_float x2;
  Ok (slice_to items n1, slice items n1 n2, slice_from items n2).

(** The body of [for src_path in items]. *)
Definition place (h : host) (a : args) (img_out_base : Path)
    (class_label split_name : string) (src_path : Path)
    (counts : gmap string nat) : M (gmap string nat) :=
  let dst_path := dst_path_of img_out_base split_name "images" class_label src_path in
  let* counts := lift (incr counts split_name) in
  if dry_run a then ret counts
  else resize_and_save h src_path dst_path (size a) 95 ;;; ret counts.

(** The body of [for class_label, file_list in files_by_class.items()]. *)
Definition place_class (h : host) (a : args) (img_out_base : Path)
    (kv : string * list Path) (counts : gmap string nat)
  : M (gmap string nat) :=
  let '(class_label, file_list) := kv in
  let* split := lift (split_list file_list [f0_7; f0_2; f0_1] (seed a)) in
  let '(train_list, val_list, test_list) := split in
  let mapping := [("train", train_list); ("val", val_list); ("test", test_list)] in
  for_each mapping
    (fun '(split_name, items) =>
       for_each items (place h a img_out_base class_label split_name))
    counts.

Definition main (h : host) (a : args) : M (gmap string nat) :=
  let src_root := parse (src_root a) in
  let output_root := parse (output_root a) in
  let img_out_base := output_root in
  match src_tree h with
  | None => print (MsgSourceNotFound src_root) ;;; raise (SystemExit 1)
  | Some t =>
      print MsgGathering ;;;
      let* files_by_class := lift (gather_image_files src_root t) in
      print (MsgFound (total_items files_by_class) (length files_by_class)) ;;;
      let* counts := for_each files_by_class (place_class h a img_out_base) counts0 in
      print MsgDone ;;;
      print (MsgCounts counts) ;;;
      print (MsgExample (output_root // "train" // "images")) ;;;
      ret counts
  end.

End WithGenerator.

End Images.

(** ** normalize_and_reencode_and_split_videos.py *)

Module Videos.

Definition VIDEO_EXTS : list string :=
  [".mp4"; ".mov"; ".avi"; ".mkv"; ".webm"; ".mpeg"; ".mpg"].

Definition is_video_file (path : Path) : bool :=
  bool_decide (lower (suffix path) ∈ VIDEO_EXTS).

Definition gather_video_files (src_root : Path) (t : OS.tree)
  : result (list (string * list Path)) :=
  foldl
    (fun acc entry =>
       files_by_class ← acc;
       let '(root, _, files) := entry in
       let rootp := parse root in
       let vids :=
         filter (fun q => is_video_file q = true) (map (div rootp) files) in
       match vids with
       | [] => Ok files_by_class
       | _ =>
           rel ← relative_to rootp src_root;
           let class_label := replace_backslash (str rel) in
           Ok (setdefault_extend class_label vids files_by_class)
       end)
    (Ok []) (OS.walk (str src_root) t).

Definition ffmpeg_available (h : host) : M bool :=
  try_except
    (emit (Run FfmpegVersion) ;;;
     match ffmpeg_probe h with
     | NotStarted => raise FileNotFoundError
     | Exited _ _ => ret true
     end)
    is_Exception
    (fun _ => ret false).

Definition reencode_with_ffmpeg (h : host) (src dst : Path)
    (fps width height : Z) : M bool :=
  mkdir_p h (parent dst) ;;;
  try_except
    (emit (Run (FfmpegEncode src dst fps width height)) ;;;
     match ffmpeg_encode h src with
     | NotStarted => raise FileNotFoundError
     | Exited status wrote =>
         (if wrote then write_file dst else ret tt) ;;;
         if status =? 0 then ret true else raise (CalledProcessError status)
     end)
    is_CalledProcessError
    (fun e => print (MsgFfmpegFailed src e) ;;; ret false).

(** The names the module binds at top level: its imports, its constant and
    its functions. *)
Definition module_globals : list string :=
  ["os"; "sys"; "random"; "shutil"; "subprocess"; "Path"; "tqdm"; "argparse";
   "VIDEO_EXTS"; "is_video_file"; "gather_video_files"; "ffmpeg_available";
   "reencode_with_ffmpeg"; "reencode_with_opencv"; "split_list"; "main"].

(** The names [reencode_with_opencv] has bound when it builds the canvas. *)
Definition opencv_locals : list string :=
  ["src"; "dst"; "fps"; "width"; "height"; "cv2"; "cap"; "fourcc"; "out";
   "math"; "ret"; "frame"; "h"; "w"; "scale"; "nw"; "nh"; "frame_resized";
   "top"; "left"].

(** Reading a name: locals, then module globals (no builtin is called
    [np]). *)
Definition load_name (locals : list string) (x : string) : result unit :=
  if bool_decide (x ∈ locals ++ module_globals) then Ok tt
  else Raise (NameError x).

(** The body of the [while True] loop for one decoded frame: resize, then
    [canvas = 255 * np.ones(...)], then [out.write(canvas)]. *)
Definition compose_frame (h : host) (src : Path) (fr : frame) (_ : unit)
  : M unit :=
  emit (FrameRead src) ;;;
  (if cv2_resize_fails h fr then raise Cv2Error else ret tt) ;;;
  lift (load_name opencv_locals "np") ;;;
  ret tt.

(** [cv2.VideoWriter(...)] creates the destination file when it can open
    it, and raises nothing when it cannot: the code never asks
    [out.isOpened()], and goes on either way. *)
Definition reencode_with_opencv (h : host) (src dst : Path)
    (fps width height : Z) : M bool :=
  let* imported :=
    try_except
      (emit ImportCv2 ;;;
       if cv2_installed h then ret true else raise (ImportError "cv2"))
      is_ImportError
      (fun _ => print MsgNoOpenCV ;;; ret false) in
  if negb imported then ret false
  else
    emit (VideoCapture src) ;;;
    match cv2_frames h src with
    | None => print (MsgCannotOpen src) ;;; ret false
    | Some frames =>
        mkdir_p h (parent dst) ;;;
        emit (VideoWriter dst) ;;;
        (if cv2_writer_opens h dst then write_file dst else ret tt) ;;;
        for_each frames (compose_frame h src) tt ;;;
        ret true
    end.

Record args := mkArgs {
  src_root : string;
  output_root : string;
  fps : Z;
  width : Z;
  height : Z;
  seed : Z;
  dry_run : bool
}.

Section WithGenerator.

Variable rng : Type.
Variable Random : Z -> rng.
Variable randbelow : nat -> rng -> nat * rng.

Definition split_list {A} (items : list A) (ratios : list float) (seed : Z)
  : result (list A * list A * list A) :=
  items ← shuffle rng randbelow items (Random seed);
  let n := Z.of_nat (length items) in
  r0 ← getitem ratios 0;
  x1 ← int_mul_float n r0;
  n1 ← int_of_float x1;
  r0' ← getitem ratios 0;
  r1 ← getitem ratios 1;
  x2 ← int_mul_float n (fadd r0' r1);
  n2 ← int_of_float x2;
  Ok (slice_to items n1, slice items n1 n2, slice_from items n2).

(** The body of [for src_path in items]. *)
Definition place (h : host) (a : args) (out_root : Path) (use_ffmpeg : bool)
    (class_label split_name : string) (src_path : Path)
    (counts : gmap string nat) : M (gmap string nat) :=
  let dst_path := dst_path_of out_root split_name "videos" class_label src_path in
  let* counts := lift (incr counts split_name) in
  if dry_run a then ret counts
  else if use_ffmpeg then
    let* ok := reencode_with_ffmpeg h src_path dst_path (fps a) (width a) (height a) in
    (if negb ok then print (MsgFfmpegFailedFor src_path) else ret tt) ;;;
    ret counts
  else
    let* ok := reencode_with_opencv h src_path dst_path (fps a) (width a) (height a) in
    (if negb ok then print (MsgFallbackFailed src_path) else ret tt) ;;;
    ret counts.

(** The body of [for class_label, vids in files_by_class.items()]. *)
Definition place_class (h : host) (a : args) (out_root : Path)
    (use_ffmpeg : bool) (kv : string * list Path) (counts : gmap string nat)
  : M (gmap string nat) :=
  let '(class_label, vids) := kv in
  let* split := lift (split_list vids [f0_7; f0_2; f0_1] (seed a)) in
  let '(train_v, val_v, test_v) := split in
  let mapping := [("train", train_v); ("val", val_v); ("test", test_v)] in
  for_each mapping
    (fun '(split_name, items) =>
       for_each items (place h a out_root use_ffmpeg class_label split_name))
    counts.

Definition main (h : host) (a : args) : M (gmap string nat) :=
  let src_root := parse (src_root a) in
  let out_root := parse (output_root a) in
  match src_tree h with
  | None => print (MsgSourceNotFound src_root) ;;; raise (SystemExit 1)
  | Some t =>
      let* files_by_class := lift (gather_video_files src_root t) in
      let total := total_items files_by_class in
      print (MsgFound total (length files_by_class)) ;;;
      let* use_ffmpeg := ffmpeg_available h in
      print (if use_ffmpeg then MsgUsingFfmpeg else MsgNoFfmpeg) ;;;
      let* counts :=
        for_each files_by_class (place_class h a out_root use_ffmpeg) counts0 in
      print (MsgDoneCounts counts) ;;;
      ret counts
  end.

End WithGenerator.

End Videos.

(** ** [split_list] on a list object of a process *)

Module Process.

Section WithGenerator.

Variable rng : Type.
Variable Random : Z -> rng.
Variable randbelow : nat -> rng -> nat * rng.

Context {A : Type}.

(** What a call can reach in the Python process it runs in: the list
    objects, by identity, and the generator behind the functions of the
    [random] module, which the system seeds when the module is imported. *)
Record process := mkProcess {
  objects : nat -> list A;
  module_generator : rng
}.

(** The list object [x] now holds [l]. *)
Definition store (p : process) (x : nat) (l : list A) : process :=
  mkProcess (fun y => if Nat.eqb y x then l else objects p y) (module_generator p).

(** [shuffle] of the generator [g] on the list object [x], in place: each
    exchange is stored in the object before the next index is drawn. *)
Fixpoint shuffle_from (i : nat) (x : nat) (g : rng) (p : process)
  : result unit * process :=
  match i with
  | O => (Ok tt, p)
  | S i' =>
      let '(j, g') := randbelow (S i) g in
      match swap (objects p x) i j with
      | Ok l => shuffle_from i' x g' (store p x l)
      | Raise e => (Raise e, p)
      end
  end.

Definition shuffle (x : nat) (g : rng) (p : process) : result unit * process :=
  shuffle_from (length (objects p x) - 1)%nat x g p.

(** The last four lines of [split_list]: the two cut points and the three
    slices, which are new lists. *)
Definition cut (items : list A) (ratios : list float)
  : result (list A * list A * list A) :=
  let n := Z.of_nat (length items) in
  r0 ← getitem ratios 0;
  x1 ← int_mul_float n r0;
  n1 ← int_of_float x1;
  r0' ← getitem ratios 0;
  r1 ← getitem ratios 1;
  x2 ← int_mul_float n (fadd r0' r1);
  n2 ← int_of_float x2;
  Ok (slice_to items n1, slice items n1 n2, slice_from items n2).

(** [random.Random(seed).shuffle(items)] and the lines after it, for the
    list object [items]: the generator is one of its own, made from the
    seed. *)
Definition shuffle_and_cut (items : nat) (ratios : list float) (seed : Z)
    (p : process) : result (list A * list A * list A) * process :=
  match shuffle items (Random seed) p with
  | (Ok _, p') => (cut (objects p' items) ratios, p')
  | (Raise e, p') => (Raise e, p')
  end.

(** [split_list(items, ratios, seed)] of the image script: the assertion,
    then the shuffle and the cut. *)
Definition images_split_list (items : nat) (ratios : list float) (seed : Z)
    (p : process) : result (list A * list A * list A) * process :=
  match assert (flt (fabs (fsub (fsum ratios) f1_0)) f1e_6) with
  | Ok _ => shuffle_and_cut items ratios seed p
  | Raise e => (Raise e, p)
  end.

(** [split_list(items, ratios, seed)] of the video script: no assertion. *)
Definition videos_split_list (items : nat) (ratios : list float) (seed : Z)
    (p : process) : result (list A * list A * list A) * process :=
  shuffle_and_cut items ratios seed p.

End WithGenerator.

Arguments mkProcess {rng A} objects module_generator.
Arguments objects {rng A} p x.
Arguments module_generator {rng A} p.
Arguments store {rng A} p x l.

End Process.

(** ** Observations on runs *)

Module Observe.

(** [w'] comes after [w]: the trace grew by events that all satisfy [P]. *)
Definition emits (P : event -> bool) (w w' : world) : Prop :=
  exists t, trace w' = trace w ++ t /\ forallb P t = true.

Definition same_fs (w w' : world) : Prop :=
  fs_dirs w' = fs_dirs w /\ fs_files w' = fs_files w.

(** Every run of [m] is related by [R] to the state it starts from. *)
Definition steps {A} (R : world -> world -> Prop) (m : M A) : Prop :=
  forall w, R w (snd (m w)).

Definition is_print (e : event) : bool :=
  match e with Print _ => true | _ => false end.

(** Events that touch no file and start no transform: console output and
    the version probe. *)
Definition quiet (e : event) : bool :=
  match e with
  | Print _ | Run FfmpegVersion => true
  | _ => false
  end.

Definition is_probe (e : event) : bool :=
  match e with Run FfmpegVersion => true | _ => false end.

(** The backend an event belongs to: [true] for ffmpeg, [false] for
    OpenCV. *)
Definition backend_of (e : event) : option bool :=
  match e with
  | Run (FfmpegEncode _ _ _ _ _) => Some true
  | ImportCv2 | VideoCapture _ | VideoWriter _ | FrameRead _ => Some false
  | _ => None
  end.

(** No probe, and no work of the other backend. *)
Definition uses (b : bool) (e : event) : bool :=
  negb (is_probe e) &&
  match backend_of e with
  | Some b' => Bool.eqb b b'
  | None => true
  end.

(** What [ffmpeg_available] answers on a host. *)
Definition ffmpeg_started (h : host) : bool :=
  match ffmpeg_probe h with Exited _ _ => true | NotStarted => false end.

(** The working directory and the root always exist. *)
Definition is_dir (w : world) (d : Path) : Prop :=
  parts d = [] \/ d ∈ fs_dirs w.

(** [mkdir_p] finds a file in the way or is refused. *)
Definition mkdir_blocked (h : host) (w : world) (d : Path) : bool :=
  existsb (fun a => bool_decide (a ∈ fs_files w)) (ancestors_or_self d)
  || mkdir_denied h d.

(** Nothing was created and no transform was started. *)
Definition untouched (w w' : world) : Prop :=
  same_fs w w' /\ emits quiet w w'.

(** [counts] as a dict literal *)
Definition mk_counts (train val test : nat) : gmap string nat :=
  <["train" := train]> (<["val" := val]> (<["test" := test]> ∅)).

(** The plan of a run: every (class, split, item) of the three nested
    loops, in loop order, for the [split] the script applies to a class. *)
Definition plan_class (split : list Path -> result (list Path * list Path * list Path))
    (kv : string * list Path) : result (list (string * string * Path)) :=
  s ← split (snd kv);
  let '(tr, va, te) := s in
  Ok (map (fun p => (fst kv, "train", p)) tr
      ++ map (fun p => (fst kv, "val", p)) va
      ++ map (fun p => (fst kv, "test", p)) te).

Fixpoint plan (split : list Path -> result (list Path * list Path * list Path))
    (files_by_class : list (string * list Path))
  : result (list (string * string * Path)) :=
  match files_by_class with
  | [] => Ok []
  | kv :: rest =>
      p ← plan_class split kv;
      ps ← plan split rest;
      Ok (p ++ ps)
  end.

(** How many entries of a plan are for split [s]. *)
Definition planned (s : string) (pl : list (string * string * Path)) : nat :=
  length (filter (fun e => snd (fst e) = s) pl).

End Observe.
Export Observe.

(** ** Scenarios *)

Module Scenario.

Definition world0 : world := mkWorld [] [] [].

(** A host where everything works: images decode, ffmpeg is installed and
    encodes, OpenCV is installed. *)
Definition good_host (t : OS.tree) : host :=
  mkHost (Some t) (fun _ => false) (fun _ => Saved)
         (Exited 0 false) (fun _ => Exited 0 true)
         true (fun _ => Some []) (fun _ => false) (fun _ => true).

Definition ten_images : list string :=
  ["img0.jpg"; "img1.jpg"; "img2.jpg"; "img3.jpg"; "img4.jpg";
   "img5.jpg"; "img6.jpg"; "img7.jpg"; "img8.jpg"; "img9.jpg"].

(** Scenario A: one class, "Pose/Wrong", of ten images. *)
Definition tree_A : OS.tree :=
  OS.Dir [] [("Pose", OS.Dir [] [("Wrong", OS.Dir ten_images [])])].

Definition args_A : Images.args :=
  Images.mkArgs "yoga/images" "dataset_processed" (224, 224) 42 false.

Definition ten_items : list string :=
  ["v0"; "v1"; "v2"; "v3"; "v4"; "v5"; "v6"; "v7"; "v8"; "v9"].

(** The ratios of scenario E. *)
Definition ratios_E : list float := [f0_5; f0_3; f0_3].

(** A host without ffmpeg, with OpenCV, where every video opens and has one
    frame of 1280 by 720. *)
Definition opencv_host (t : OS.tree) : host :=
  mkHost (Some t) (fun _ => false) (fun _ => Saved)
         NotStarted (fun _ => NotStarted)
         true (fun _ => Some [mkFrame 720 1280]) (fun _ => false) (fun _ => true).

(** Two videos in one class. *)
Definition tree_two_videos : OS.tree :=
  OS.Dir [] [("Tree", OS.Dir ["a.mp4"; "b.mp4"] [])].

Definition args_videos : Videos.args :=
  Videos.mkArgs "yoga/videos" "dataset_processed" 30 1280 720 42 false.

(** Media directly in the source root, next to a class directory. *)
Definition root_files : list string := ["a.jpg"; "notes.txt"; "v.mp4"].

Definition tree_flat : OS.tree :=
  OS.Dir root_files [("Pose", OS.Dir ["b.jpg"] [])].

(** Scenario C: five videos in one class, with [--dry_run]. *)
Definition tree_C : OS.tree :=
  OS.Dir [] [("Clips", OS.Dir ["a.mp4"; "b.mp4"; "c.mp4"; "d.mp4"; "e.mp4"] [])].

Definition args_C_images : Images.args :=
  Images.mkArgs "yoga" "dataset_processed" (224, 224) 42 true.

Definition args_C_videos : Videos.args :=
  Videos.mkArgs "yoga" "dataset_processed" 30 1280 720 42 true.

Definition files_C : list (string * list Path) :=
  [("Clips", [parse "yoga/Clips/a.mp4"; parse "yoga/Clips/b.mp4";
              parse "yoga/Clips/c.mp4"; parse "yoga/Clips/d.mp4";
              parse "yoga/Clips/e.mp4"])].

End Scenario.

(** ** Further observations: the collector's inventory, plans, exceptions *)

Module Survey.

(** [(map f tr, map f va, map f te)] *)
Definition map_split {A B} (f : A -> B) (s : list A * list A * list A)
  : list B * list B * list B :=
  let '(tr, va, te) := s in (map f tr, map f va, map f te).

(** An extension as the two scripts list them: a dot, then at least one
    character and no further dot. *)
Definition extension_okb (e : string) : bool :=
  match rfind_dot e with
  | Some O => (2 <=? String.length e)%nat
  | _ => false
  end.

(** The media files of one [(root, dirs, files)] of the walk, as the
    collectors build them. *)
Definition entry_media (is_media_file : Path -> bool)
    (entry : string * list string * list string) : list Path :=
  filter (fun q => is_media_file q = true)
         (map (div (parse (fst (fst entry)))) (snd entry)).

(** Every media file the walk meets, in the order of the walk. *)
Definition walk_media (is_media_file : Path -> bool) (top : string) (t : OS.tree)
  : list Path :=
  flat_map (entry_media is_media_file) (OS.walk top t).

(** The files have proper names, at every depth. *)
Fixpoint listing_okb (t : OS.tree) : bool :=
  match t with
  | OS.Dir files subdirs =>
      forallb part_okb files && forallb (fun d => listing_okb (snd d)) subdirs
  end.

(** An entry of the walk whose root lies at [src_root] or below it. *)
Definition below (src_root : Path) (e : string * list string * list string) : Prop :=
  exists more, Forall part_ok more
               /\ parse (fst (fst e)) = mkPath (root src_root) (parts src_root ++ more).

(** The label of the directory [more] below [src_root], as the collectors
    compute it: [str(rel).replace('\\', '/')]. *)
Definition label_of (more : list string) : string :=
  replace_backslash (str (mkPath "" more)).

(** [p] is the file [f] of the directory [more] below [src_root], and
    [label] is the label of that directory. *)
Definition filed_under (src_root : Path) (label : string) (p : Path) : Prop :=
  exists more f,
    Forall part_ok more /\ part_ok f
    /\ p = mkPath (root src_root) (parts src_root ++ more ++ [f])
    /\ label = label_of more.

(** The (class, file) pairs of a plan, and those of the collected dict. *)
Definition plan_items (pl : list (string * string * Path)) : list (string * Path) :=
  map (fun e => (fst (fst e), snd e)) pl.

Definition collected_items (files_by_class : list (string * list Path))
  : list (string * Path) :=
  flat_map (fun kv => map (fun p => (fst kv, p)) (snd kv)) files_by_class.

(** The destinations of a plan. *)
Definition plan_destinations (out : Path) (kind : string)
    (pl : list (string * string * Path)) : list Path :=
  map (fun e => dst_path_of out (snd (fst e)) kind (fst (fst e)) (snd e)) pl.

(** Only exceptions that satisfy [P] leave [m]. *)
Definition raises_only {A} (P : exn -> Prop) (m : M A) : Prop :=
  forall w e, fst (m w) = Raise e -> P e.

Definition is_OSError (e : exn) : Prop := e = OSError.

Definition never (e : exn) : Prop := False.

(** The messages of a trace, in order. *)
Definition printed (t : list event) : list message :=
  omap (fun e => match e with Print m => Some m | _ => None end) t.

(** The images that a run opened, and the videos it ran the encoder on, in
    order. *)
Definition opened (t : list event) : list Path :=
  omap (fun e => match e with ImageOpen src => Some src | _ => None end) t.

Definition encoded (t : list event) : list Path :=
  omap (fun e => match e with
                 | Run (FfmpegEncode src _ _ _ _) => Some src
                 | _ => None
                 end) t.

(** The image library fails with exceptions derived from [Exception]
    only. *)
Definition pil_raises_exceptions (h : host) : Prop :=
  forall src e, pil h src = OpenFailed e \/ pil h src = SaveFailed e ->
                is_Exception e = true.

(** The counters have the three keys of [counts]. *)
Definition three_counts (c : gmap string nat) : Prop :=
  exists x y z, c = mk_counts x y z.

(** OpenCV is of no use: it is not installed, or it opens no video. *)
Definition opencv_unusable (h : host) : Prop :=
  cv2_installed h = false \/ forall src, cv2_frames h src = None.

(** What the loop body of the image script prints for one item, when it
    returns. *)
Definition image_report (h : host) (a : Images.args) (src : Path) : list message :=
  if Images.dry_run a then []
  else match pil h src with
       | Saved => []
       | OpenFailed e | SaveFailed e => [MsgFailedToProcess src e]
       end.

(** The same for the video script. *)
Definition video_report (h : host) (a : Videos.args) (use_ffmpeg : bool) (src : Path)
  : list message :=
  if Videos.dry_run a then []
  else if use_ffmpeg then
    match ffmpeg_encode h src with
    | Exited status _ =>
        if status =? 0 then []
        else [MsgFfmpegFailed src (CalledProcessError status); MsgFfmpegFailedFor src]
    | NotStarted => []
    end
  else if cv2_installed h then
    match cv2_frames h src with
    | None => [MsgCannotOpen src; MsgFallbackFailed src]
    | Some _ => []
    end
  else [MsgNoOpenCV; MsgFallbackFailed src].

(** Whether [ffmpeg_available] finds ffmpeg. *)
Definition probe_starts (h : host) : bool :=
  match ffmpeg_probe h with NotStarted => false | Exited _ _ => true end.

End Survey.
Export Survey.

(** ** Further hosts and trees *)

Module Cases.

(** A tree without media. *)
Definition tree_notes : OS.tree :=
  OS.Dir ["notes.txt"] [("Docs", OS.Dir ["readme.md"] [])].

(** A host where every transform fails: no image decodes, ffmpeg exits with
    status 1 and leaves no file. *)
Definition failing_host (t : OS.tree) : host :=
  mkHost (Some t) (fun _ => false) (fun _ => OpenFailed ValueError)
         (Exited 0 false) (fun _ => Exited 1 false)
         true (fun _ => Some []) (fun _ => false) (fun _ => true).

(** A host with neither ffmpeg nor OpenCV. *)
Definition bare_host (t : OS.tree) : host :=
  mkHost (Some t) (fun _ => false) (fun _ => Saved)
         NotStarted (fun _ => NotStarted)
         false (fun _ => None) (fun _ => false) (fun _ => false).

(** The world of a second run: the destination of one video is there
    already. *)
Definition world_rerun : world :=
  mkWorld [] [dst_path_of (parse "out") "train" "videos" "Clips" (parse "yoga/Clips/a.mp4")]
          [].

Definition args_images : Images.args :=
  Images.mkArgs "yoga" "dataset_processed" (224, 224) 42 false.

Definition args_videos : Videos.args :=
  Videos.mkArgs "yoga" "dataset_processed" 30 1280 720 42 false.

End Cases.

(** ** The frame geometry of [reencode_with_opencv] *)

Module Geometry.

(** What the arithmetic on one frame gives: a value, the
    [ZeroDivisionError] of [/], or the exception of a conversion. *)
Inductive computed (A : Type) : Type :=
| Value (a : A)
| ZeroDivisionError
| Raised (e : exn).
Arguments Value {A} a.
Arguments ZeroDivisionError {A}.
Arguments Raised {A} e.

Definition and_then {A B} (m : computed A) (k : A -> computed B) : computed B :=
  match m with
  | Value a => k a
  | ZeroDivisionError => ZeroDivisionError
  | Raised e => Raised e
  end.

Definition of_result {A} (r : result A) : computed A :=
  match r with
  | Ok a => Value a
  | Raise e => Raised e
  end.

(** An int as the operand of a division: [n * 2^0], not rounded. *)
Definition int_operand (n : Z) : float :=
  match n with
  | Z0 => S754_zero false
  | Zpos p => S754_finite false p 0
  | Zneg p => S754_finite true p 0
  end.

(** [a / b] on ints: the quotient of the two integers, rounded once (ties
    to even); [ZeroDivisionError] for [b = 0], [OverflowError: integer
    division result too large for a float] past the range. *)
Definition int_truediv (a b : Z) : computed float :=
  if b =? 0 then ZeroDivisionError
  else match SFdiv prec emax (int_operand a) (int_operand b) with
       | S754_infinity _ => Raised OverflowError
       | f => Value f
       end.

(** [min(x, y)]: the second argument replaces the first when it is less. *)
Definition fmin (x y : float) : float := if flt y x then y else x.

(** [cv2.resize(frame, (nw, nh))], by the size it is asked for: an error
    for a size with a side that is not positive. *)
Definition resize (nw nh : Z) : computed unit :=
  if (nw <=? 0) || (nh <=? 0) then Raised Cv2Error else Value tt.

(** Lines 81 to 86: the size [(nw, nh)] the frame is resized to, and the
    corner [(top, left)] of the canvas it is pasted at.
<<
    h, w = frame.shape[:2]
    scale = min(width/w, height/h)
    nw, nh = int(w*scale), int(h*scale)
    frame_resized = cv2.resize(frame, (nw, nh))
    top = (height - nh)//2
    left = (width - nw)//2
>> *)
Definition frame_placement (width height : Z) (fr : frame)
  : computed (Z * Z * Z * Z) :=
  let h := frame_h fr in
  let w := frame_w fr in
  and_then (int_truediv width w) (fun sw =>
  and_then (int_truediv height h) (fun sh =>
  let scale := fmin sw sh in
  and_then (of_result (int_times w scale)) (fun nw =>
  and_then (of_result (int_times h scale)) (fun nh =>
  and_then (resize nw nh) (fun _ =>
  let top := (height - nh) / 2 in
  let left := (width - nw) / 2 in
  Value (nw, nh, top, left)))))).

End Geometry.
Export Geometry.

(** * Facts *)

(** ** binary64 products against integer rounding *)

Section RoundingFacts.

Lemma iter_pos_nat {A} (f : A -> A) p x :
  SpecFloat.iter_pos f p x = Nat.iter (Pos.to_nat p) f x.
Proof.
  revert x. induction p as [p IH|p IH|]; intros x.
  - rewrite Pos2Nat.inj_xI. cbn [SpecFloat.iter_pos]. rewrite !IH.
    replace (S (2 * Pos.to_nat p))%nat with (Pos.to_nat p + S (Pos.to_nat p))%nat by lia.
    rewrite Nat.iter_add, Nat.iter_succ_r. reflexivity.
  - rewrite Pos2Nat.inj_xO. cbn [SpecFloat.iter_pos]. rewrite !IH.
    replace (2 * Pos.to_nat p)%nat with (Pos.to_nat p + Pos.to_nat p)%nat by lia.
    rewrite Nat.iter_add. reflexivity.
  - reflexivity.
Qed.

Lemma shr_1_nonneg m r s :
  0 <= m ->
  shr_1 (Build_shr_record m r s) = Build_shr_record (Z.div2 m) (Z.odd m) (r || s).
Proof.
  intros Hm. destruct m as [|p|p]; [reflexivity| |lia].
  destruct p; reflexivity.
Qed.

Lemma mod_pow2_succ m k :
  0 <= k ->
  m mod 2 ^ (k + 1) = m mod 2 ^ k + 2 ^ k * Z.b2z (Z.testbit m k).
Proof.
  intros Hk. rewrite Z.pow_add_r by lia. rewrite Z.pow_1_r.
  rewrite Z.rem_mul_r by lia. f_equal. f_equal.
  rewrite Z.testbit_spec' by lia. reflexivity.
Qed.

Lemma shr_iter (m : Z) (k : nat) :
  0 <= m ->
  Nat.iter (S k) shr_1 (Build_shr_record m false false)
  = Build_shr_record (m / 2 ^ Z.of_nat (S k)) (Z.testbit m (Z.of_nat k))
                     (negb (m mod 2 ^ Z.of_nat k =? 0)).
Proof.
  intros Hm. induction k as [|k IH].
  - rewrite Nat.iter_succ. change (Nat.iter 0 shr_1 ?r) with r.
    rewrite shr_1_nonneg by done.
    change (Z.of_nat 1) with 1. change (Z.of_nat 0) with 0.
    rewrite Z.pow_1_r, Z.pow_0_r, Z.mod_1_r, Z.div2_div, Z.bit0_odd. reflexivity.
  - rewrite Nat.iter_succ, IH.
    rewrite shr_1_nonneg by (apply Z.div_pos; lia).
    f_equal.
    + rewrite Z.div2_div, Z.div_div by lia.
      f_equal. rewrite (Nat2Z.inj_succ (S k)), Z.pow_succ_r by lia. lia.
    + rewrite <- Z.bit0_odd, <- Z.shiftr_div_pow2, Z.shiftr_spec by lia.
      f_equal; lia.
    + rewrite (Nat2Z.inj_succ k), <- Z.add_1_r, mod_pow2_succ by lia.
      assert (0 <= m mod 2 ^ Z.of_nat k) by (apply Z.mod_pos_bound; lia).
      assert (0 < 2 ^ Z.of_nat k) by lia.
      destruct (Z.testbit m (Z.of_nat k)); simpl Z.b2z.
      * simpl. symmetry. apply negb_true_iff, Z.eqb_neq. lia.
      * simpl. rewrite Z.mul_0_r, Z.add_0_r. reflexivity.
Qed.

Lemma shr_round (m k : Z) mrs e e' :
  0 <= m -> 0 < k ->
  shr (Build_shr_record m false false) e k = (mrs, e') ->
  round_nearest_even (shr_m mrs) (loc_of_shr_record mrs) = rne m k /\ e' = e + k.
Proof.
  intros Hm Hk. destruct k as [|p|p]; try lia.
  unfold shr. intros [= <- <-]. split; [|done].
  rewrite iter_pos_nat.
  destruct (Pos2Nat.is_succ p) as [j Hj]. rewrite Hj, shr_iter by done.
  replace (Z.pos p) with (Z.of_nat j + 1) by lia.
  rewrite Nat2Z.inj_succ, <- Z.add_1_r.
  unfold rne. replace (Z.of_nat j + 1 - 1) with (Z.of_nat j) by lia.
  rewrite mod_pow2_succ by lia.
  assert (0 <= m mod 2 ^ Z.of_nat j < 2 ^ Z.of_nat j) by (apply Z.mod_pos_bound; lia).
  cbn [shr_m loc_of_shr_record].
  destruct (Z.testbit m (Z.of_nat j)); simpl Z.b2z.
  - destruct (Z.eqb_spec (m mod 2 ^ Z.of_nat j) 0) as [E0|E0]; simpl negb.
    + rewrite E0. simpl.
      replace (0 + 2 ^ Z.of_nat j * 1) with (2 ^ Z.of_nat j) by lia.
      rewrite Z.ltb_irrefl, Z.eqb_refl. reflexivity.
    + simpl.
      destruct (Z.ltb_spec (m mod 2 ^ Z.of_nat j + 2 ^ Z.of_nat j * 1) (2 ^ Z.of_nat j)); [lia|].
      destruct (Z.eqb_spec (m mod 2 ^ Z.of_nat j + 2 ^ Z.of_nat j * 1) (2 ^ Z.of_nat j)); [lia|].
      reflexivity.
  - rewrite Z.mul_0_r, Z.add_0_r.
    destruct (Z.ltb_spec (m mod 2 ^ Z.of_nat j) (2 ^ Z.of_nat j)); [|lia].
    destruct (negb _); reflexivity.
Qed.

Lemma digits2_bounds p :
  2 ^ (Z.pos (digits2_pos p) - 1) <= Z.pos p < 2 ^ Z.pos (digits2_pos p).
Proof.
  induction p as [p IH|p IH|]; cbn [digits2_pos].
  - rewrite Pos2Z.inj_succ.
    replace (Z.succ (Z.pos (digits2_pos p)) - 1) with (Z.succ (Z.pos (digits2_pos p) - 1)) by lia.
    rewrite !Z.pow_succ_r by lia. lia.
  - rewrite Pos2Z.inj_succ.
    replace (Z.succ (Z.pos (digits2_pos p)) - 1) with (Z.succ (Z.pos (digits2_pos p) - 1)) by lia.
    rewrite !Z.pow_succ_r by lia. lia.
  - simpl. lia.
Qed.

Lemma digits2_unique p d :
  2 ^ (d - 1) <= Z.pos p < 2 ^ d -> Z.pos (digits2_pos p) = d.
Proof.
  intros [Hlo Hhi]. pose proof (digits2_bounds p) as [Blo Bhi].
  assert (0 < d).
  { destruct (Z.ltb_spec 0 d); [done|].
    destruct (Z.eqb_spec d 0) as [->|]; [simpl in Hhi; lia|].
    rewrite Z.pow_neg_r in Hhi by lia. lia. }
  destruct (Z.lt_trichotomy (Z.pos (digits2_pos p)) d) as [Hlt|[Heq|Hgt]]; [|done|].
  - assert (2 ^ Z.pos (digits2_pos p) <= 2 ^ (d - 1)) by (apply Z.pow_le_mono_r; lia). lia.
  - assert (2 ^ d <= 2 ^ (Z.pos (digits2_pos p) - 1)) by (apply Z.pow_le_mono_r; lia). lia.
Qed.

Lemma rne_bounds m k :
  0 <= m -> 0 < k -> m / 2 ^ k <= rne m k <= m / 2 ^ k + 1.
Proof.
  intros Hm Hk. unfold rne.
  repeat match goal with |- context [if ?b then _ else _] => destruct b end; lia.
Qed.

(** The second [shr_fexp] of [binary_round_aux]: a carry out of the
    rounding is shifted back to 53 digits. *)
Lemma renormalise pm en :
  2 ^ 52 <= Z.pos pm <= 2 ^ 53 -> -1074 <= en ->
  exists m e'',
    shr_fexp 53 1024 (Z.pos pm) en loc_Exact
      = (Build_shr_record (Z.pos m) false false, e'')
    /\ Z.pos m * 2 ^ (e'' - en) = Z.pos pm
    /\ Z.pos (digits2_pos m) = 53
    /\ en <= e'' <= en + 1.
Proof.
  intros Hpm Hen.
  destruct (Z.eq_dec (Z.pos pm) (2 ^ 53)) as [E|NE].
  - exists 4503599627370496%positive, (en + 1).
    assert (D : Z.pos (digits2_pos pm) = 54) by (apply digits2_unique; lia).
    unfold shr_fexp, fexp, emin. cbn [Zdigits2]. rewrite D.
    replace (Z.max (54 + en - 53) (3 - 1024 - 53) - en) with 1 by lia.
    assert (pm = 9007199254740992%positive) as -> by lia.
    split; [reflexivity|].
    replace (en + 1 - en) with 1 by lia. split; [reflexivity|]. split; [reflexivity|lia].
  - exists pm, en.
    assert (D : Z.pos (digits2_pos pm) = 53) by (apply digits2_unique; lia).
    unfold shr_fexp, fexp, emin. cbn [Zdigits2]. rewrite D.
    replace (Z.max (53 + en - 53) (3 - 1024 - 53) - en) with 0 by lia.
    split; [reflexivity|].
    replace (en - en) with 0 by lia. rewrite Z.pow_0_r. lia.
Qed.

Lemma binary_round_aux_pos p e :
  let d := Z.pos (digits2_pos p) in
  53 <= d -> -1074 <= e + d - 53 -> e + d <= 1023 ->
  exists m e',
    binary_round_aux 53 1024 false (Z.pos p) e loc_Exact = S754_finite false m e'
    /\ e <= e' <= e + (d - 53) + 1
    /\ Z.pos m * 2 ^ (e' - e) = round53 (Z.pos p)
    /\ Z.pos (digits2_pos m) = 53.
Proof.
  intros d Hd Hlo Hhi. pose proof (digits2_bounds p) as [Blo Bhi]. fold d in Blo, Bhi.
  unfold binary_round_aux.
  unfold shr_fexp at 1. unfold fexp, emin. cbn [Zdigits2]. fold d.
  replace (Z.max (d + e - 53) (3 - 1024 - 53) - e) with (d - 53) by lia.
  unfold round53. cbn [Zdigits2]. fold d.
  destruct (Z.leb_spec (d - 53) 0) as [K0|K0].
  - replace (d - 53) with 0 by lia. cbn [shr shr_record_of_loc shr_m loc_of_shr_record round_nearest_even].
    assert (D : d = 53) by lia. rewrite D in Blo, Bhi.
    destruct (renormalise p e) as (m & e'' & -> & Hv & Hm & He); [lia|lia|].
    cbn [shr_m]. exists m, e''.
    destruct (Z.leb_spec e'' (1024 - 53)); [|lia].
    split; [done|]. split; [lia|]. split; [lia|done].
  - destruct (shr (shr_record_of_loc (Z.pos p) loc_Exact) e (d - 53)) as [mrs e1] eqn:Hs.
    apply shr_round in Hs as [Hr ->]; [|lia|lia].
    rewrite Hr.
    pose proof (rne_bounds (Z.pos p) (d - 53) ltac:(lia) K0) as [Rlo Rhi].
    assert (Q : 2 ^ 52 <= Z.pos p / 2 ^ (d - 53) < 2 ^ 53).
    { split.
      - apply Z.div_le_lower_bound; [lia|].
        rewrite <- Z.pow_add_r by lia. replace (d - 53 + 52) with (d - 1) by lia. lia.
      - apply Z.div_lt_upper_bound; [lia|].
        rewrite <- Z.pow_add_r by lia. replace (d - 53 + 53) with d by lia. lia. }
    destruct (rne (Z.pos p) (d - 53)) as [|pm|pm] eqn:Em; [lia| |lia].
    destruct (renormalise pm (e + (d - 53))) as (m & e'' & -> & Hv & Hm & He); [lia|lia|].
    cbn [shr_m]. exists m, e''.
    destruct (Z.leb_spec e'' (1024 - 53)); [|lia].
    split; [done|]. split; [lia|]. split; [|done].
    rewrite <- Hv.
    replace (e'' - e) with ((e'' - (e + (d - 53))) + (d - 53)) by lia.
    rewrite Z.pow_add_r by lia. lia.
Qed.

Lemma rne_mono m m' k :
  0 <= m <= m' -> 0 < k -> rne m k <= rne m' k.
Proof.
  intros Hm Hk.
  assert (P : 0 < 2 ^ k) by lia.
  assert (Q : m / 2 ^ k <= m' / 2 ^ k) by (apply Z.div_le_mono; lia).
  pose proof (Z.div_mod m (2 ^ k) ltac:(lia)) as E.
  pose proof (Z.div_mod m' (2 ^ k) ltac:(lia)) as E'.
  pose proof (Z.mod_pos_bound m (2 ^ k) P) as B.
  pose proof (Z.mod_pos_bound m' (2 ^ k) P) as B'.
  destruct (Z.eq_dec (m / 2 ^ k) (m' / 2 ^ k)) as [Eq|Ne].
  - unfold rne. rewrite <- Eq.
    assert (m mod 2 ^ k <= m' mod 2 ^ k) by (rewrite <- Eq in E'; lia).
    repeat match goal with
           | |- context [Z.ltb ?a ?b] => destruct (Z.ltb_spec a b)
           | |- context [Z.eqb ?a ?b] => destruct (Z.eqb_spec a b)
           | |- context [Z.even ?a] => destruct (Z.even a)
           end; lia.
  - pose proof (rne_bounds m k ltac:(lia) Hk). pose proof (rne_bounds m' k ltac:(lia) Hk). lia.
Qed.

Lemma round53_mono p p' :
  (p <= p')%positive -> round53 (Z.pos p) <= round53 (Z.pos p').
Proof.
  intros Hp. unfold round53. cbn [Zdigits2].
  pose proof (digits2_bounds p) as [Blo Bhi].
  pose proof (digits2_bounds p') as [Blo' Bhi'].
  set (d := Z.pos (digits2_pos p)) in *. set (d' := Z.pos (digits2_pos p')) in *.
  assert (Hd : d <= d').
  { destruct (Z.le_gt_cases d d'); [done|].
    assert (2 ^ d' <= 2 ^ (d - 1)) by (apply Z.pow_le_mono_r; lia). lia. }
  assert (Low : 53 < d' -> 2 ^ (d' - 1) <= rne (Z.pos p') (d' - 53) * 2 ^ (d' - 53)).
  { intros K. pose proof (rne_bounds (Z.pos p') (d' - 53) ltac:(lia) ltac:(lia)) as [R _].
    assert (2 ^ 52 <= Z.pos p' / 2 ^ (d' - 53)).
    { apply Z.div_le_lower_bound; [lia|].
      rewrite <- Z.pow_add_r by lia. replace (d' - 53 + 52) with (d' - 1) by lia. done. }
    replace (d' - 1) with (52 + (d' - 53)) by lia. rewrite Z.pow_add_r by lia.
    apply Z.mul_le_mono_nonneg_r; lia. }
  destruct (Z.leb_spec (d' - 53) 0) as [K'|K'].
  - destruct (Z.leb_spec (d - 53) 0); lia.
  - destruct (Z.leb_spec (d - 53) 0) as [K|K].
    + assert (2 ^ d <= 2 ^ (d' - 1)) by (apply Z.pow_le_mono_r; lia). lia.
    + destruct (Z.eq_dec d d') as [E|NE].
      * rewrite E. apply Z.mul_le_mono_nonneg_r; [lia|]. apply rne_mono; lia.
      * pose proof (rne_bounds (Z.pos p) (d - 53) ltac:(lia) K) as [_ R].
        assert (Z.pos p / 2 ^ (d - 53) < 2 ^ 53).
        { apply Z.div_lt_upper_bound; [lia|].
          rewrite <- Z.pow_add_r by lia. replace (d - 53 + 53) with d by lia. done. }
        assert (rne (Z.pos p) (d - 53) * 2 ^ (d - 53) <= 2 ^ 53 * 2 ^ (d - 53))
          by (apply Z.mul_le_mono_nonneg_r; lia).
        rewrite <- Z.pow_add_r in * by lia. replace (53 + (d - 53)) with d in * by lia.
        assert (2 ^ d <= 2 ^ (d' - 1)) by (apply Z.pow_le_mono_r; lia). lia.
Qed.

Lemma iter_xO p k : Z.pos (Pos.iter xO p k) = Z.pos p * 2 ^ Z.pos k.
Proof.
  induction k as [|k IH] using Pos.peano_ind.
  - simpl. lia.
  - rewrite Pos.iter_succ, Pos2Z.inj_xO, IH, Pos2Z.inj_succ, Z.pow_succ_r by lia. lia.
Qed.

Lemma float_of_int_pos n :
  0 < n < 2 ^ 1000 ->
  exists m e,
    float_of_int n = Ok (S754_finite false m e)
    /\ Z.pos (digits2_pos m) = 53 /\ -52 <= e <= 948.
Proof.
  intros [Hn Hhi]. destruct n as [|p|p]; try lia.
  pose proof (digits2_bounds p) as [Blo Bhi].
  unfold float_of_int, binary_normalize, binary_round, Binary64.prec, Binary64.emax.
  unfold fexp, emin. set (d := Z.pos (digits2_pos p)) in *.
  assert (1 <= d) by (subst d; lia).
  assert (d <= 1000).
  { destruct (Z.le_gt_cases d 1000); [done|].
    assert (2 ^ 1000 <= 2 ^ (d - 1)) by (apply Z.pow_le_mono_r; lia). lia. }
  replace (Z.max (d + 0 - 53) (3 - 1024 - 53)) with (d - 53) by lia.
  unfold shl_align. rewrite Z.sub_0_r.
  destruct (d - 53) as [|k|k] eqn:Ek.
  - destruct (binary_round_aux_pos p 0) as (m & e' & -> & He & _ & Hm); fold d; try lia.
    exists m, e'. split; [done|]. split; [done|lia].
  - destruct (binary_round_aux_pos p 0) as (m & e' & -> & He & _ & Hm); fold d; try lia.
    exists m, e'. split; [done|]. split; [done|lia].
  - assert (D : Z.pos (digits2_pos (Pos.iter xO p k)) = 53).
    { apply digits2_unique. rewrite iter_xO.
      replace (Z.pos k) with (53 - d) by lia. split.
      - replace (53 - 1) with ((d - 1) + (53 - d)) by lia. rewrite Z.pow_add_r by lia.
        apply Z.mul_le_mono_nonneg_r; lia.
      - replace 53 with (d + (53 - d)) at 2 by lia. rewrite Z.pow_add_r by lia.
        apply Z.mul_lt_mono_pos_r; lia. }
    destruct (binary_round_aux_pos (Pos.iter xO p k) (Z.neg k)) as (m & e' & -> & He & _ & Hm);
      rewrite ?D; try lia.
    exists m, e'. split; [done|]. split; [done|lia].
Qed.

Lemma fmul_pos m1 e1 m2 e2 :
  Z.pos (digits2_pos m1) = 53 -> Z.pos (digits2_pos m2) = 53 ->
  -1000 <= e1 + e2 <= 900 ->
  exists m e,
    fmul (S754_finite false m1 e1) (S754_finite false m2 e2) = S754_finite false m e
    /\ e1 + e2 <= e
    /\ Z.pos m * 2 ^ (e - (e1 + e2)) = round53 (Z.pos (m1 * m2)).
Proof.
  intros D1 D2 He.
  pose proof (digits2_bounds m1) as [L1 H1]. pose proof (digits2_bounds m2) as [L2 H2].
  rewrite D1 in L1, H1. rewrite D2 in L2, H2.
  pose proof (digits2_bounds (m1 * m2)) as [L H].
  set (d := Z.pos (digits2_pos (m1 * m2))) in *.
  rewrite Pos2Z.inj_mul in L, H.
  assert (105 <= d <= 106).
  { split.
    - destruct (Z.le_gt_cases 105 d); [done|].
      assert (2 ^ d <= 2 ^ 104) by (apply Z.pow_le_mono_r; lia). nia.
    - destruct (Z.le_gt_cases d 106); [done|].
      assert (2 ^ 106 <= 2 ^ (d - 1)) by (apply Z.pow_le_mono_r; lia). nia. }
  unfold fmul, SFmul, Binary64.prec, Binary64.emax. cbn [xorb].
  destruct (binary_round_aux_pos (m1 * m2) (e1 + e2)) as (m & e & -> & Hb & Hv & _);
    fold d; try lia.
  exists m, e. split; [done|]. split; [lia|done].
Qed.

Lemma shiftl_scale m j e :
  0 <= j -> Z.shiftl (m * 2 ^ j) e = Z.shiftl m (j + e).
Proof. intros Hj. rewrite <- Z.shiftl_mul_pow2 by done. apply Z.shiftl_shiftl. done. Qed.

Lemma shiftl_mono a b e : 0 <= a <= b -> 0 <= Z.shiftl a e <= Z.shiftl b e.
Proof.
  intros H. destruct (Z.le_gt_cases 0 e).
  - rewrite !Z.shiftl_mul_pow2 by done. split; [lia|].
    apply Z.mul_le_mono_nonneg_r; lia.
  - rewrite !Z.shiftl_div_pow2 by lia. split.
    + apply Z.div_pos; lia.
    + apply Z.div_le_mono; lia.
Qed.

Lemma int_times_mono n ma mb e :
  0 <= n < 2 ^ 1000 ->
  Z.pos (digits2_pos ma) = 53 -> Z.pos (digits2_pos mb) = 53 ->
  (ma <= mb)%positive -> -100 <= e <= -50 ->
  exists n1 n2,
    int_times n (S754_finite false ma e) = Ok n1
    /\ int_times n (S754_finite false mb e) = Ok n2
    /\ 0 <= n1 <= n2.
Proof.
  intros Hn Da Db Hab He.
  destruct (Z.eq_dec n 0) as [->|N0].
  { exists 0, 0. split; [reflexivity|]. split; [reflexivity|lia]. }
  destruct (float_of_int_pos n) as (m1 & e1 & Hf & D1 & He1); [lia|].
  destruct (fmul_pos m1 e1 ma e D1 Da) as (pa & ea & Ha & Hea & Va); [lia|].
  destruct (fmul_pos m1 e1 mb e D1 Db) as (pb & eb & Hb & Heb & Vb); [lia|].
  exists (Z.shiftl (Z.pos pa) ea), (Z.shiftl (Z.pos pb) eb).
  unfold int_times, int_mul_float. rewrite Hf. cbn [mbind result_bind Py.bind].
  rewrite Ha, Hb. cbn [int_of_float cond_Zopp].
  split; [done|]. split; [done|].
  assert (Z.shiftl (Z.pos pa) ea = Z.shiftl (round53 (Z.pos (m1 * ma))) (e1 + e)) as ->.
  { rewrite <- Va, shiftl_scale by lia. f_equal. lia. }
  assert (Z.shiftl (Z.pos pb) eb = Z.shiftl (round53 (Z.pos (m1 * mb))) (e1 + e)) as ->.
  { rewrite <- Vb, shiftl_scale by lia. f_equal. lia. }
  apply shiftl_mono. split.
  - unfold round53. cbn [Zdigits2].
    pose proof (rne_bounds (Z.pos (m1 * ma)) (Z.pos (digits2_pos (m1 * ma)) - 53)).
    destruct (Z.leb_spec (Z.pos (digits2_pos (m1 * ma)) - 53) 0); [lia|].
    assert (0 <= Z.pos (m1 * ma) / 2 ^ (Z.pos (digits2_pos (m1 * ma)) - 53))
      by (apply Z.div_pos; lia).
    apply Z.mul_nonneg_nonneg; lia.
  - apply round53_mono. nia.
Qed.

Lemma cut_points n :
  0 <= n <= PY_SSIZE_T_MAX ->
  exists n1 n2,
    int_times n f0_7 = Ok n1
    /\ int_times n (fadd f0_7 f0_2) = Ok n2
    /\ 0 <= n1 <= n2.
Proof.
  intros Hn. change (fadd f0_7 f0_2) with (S754_finite false 8106479329266892 (-53)).
  apply int_times_mono; try reflexivity; try lia.
  unfold PY_SSIZE_T_MAX in Hn. split; [lia|].
  assert (2 ^ 63 <= 2 ^ 1000) by (apply Z.pow_le_mono_r; lia). lia.
Qed.

(** The same for the ratios (0.5, 0.3, 0.3). *)
Lemma cut_points_E n :
  0 <= n <= PY_SSIZE_T_MAX ->
  exists n1 n2,
    int_times n f0_5 = Ok n1
    /\ int_times n (fadd f0_5 f0_3) = Ok n2
    /\ 0 <= n1 <= n2.
Proof.
  intros Hn. change (fadd f0_5 f0_3) with (S754_finite false 7205759403792794 (-53)).
  apply int_times_mono; try reflexivity; try lia.
  unfold PY_SSIZE_T_MAX in Hn. split; [lia|].
  assert (2 ^ 63 <= 2 ^ 1000) by (apply Z.pow_le_mono_r; lia). lia.
Qed.
End RoundingFacts.

(** ** Slices and the shuffle *)

Lemma bind_Ok {A B} (m : result A) (k : A -> result B) b :
  m ≫= k = Ok b -> exists a, m = Ok a /\ k a = Ok b.
Proof. destruct m as [a|e]; [|discriminate]. intros H. by exists a. Qed.

Section SliceFacts.
Context {A : Type}.
Implicit Types l : list A.

Lemma slice_index_nonneg len i :
  0 <= i -> slice_index len i = Nat.min (Z.to_nat i) len.
Proof. intros H. unfold slice_index. destruct (Z.ltb_spec i 0); [lia|done]. Qed.

Lemma slices_partition l n1 n2 :
  0 <= n1 <= n2 ->
  slice_to l n1 ++ slice l n1 n2 ++ slice_from l n2 = l.
Proof.
  intros H. unfold slice_to, slice, slice_from.
  rewrite !slice_index_nonneg by lia.
  set (a := Nat.min (Z.to_nat n1) (length l)).
  set (b := Nat.min (Z.to_nat n2) (length l)).
  assert (a <= b)%nat by lia.
  rewrite app_assoc, take_take_drop.
  replace (a + (b - a))%nat with b by lia. apply take_drop.
Qed.
End SliceFacts.

Section ShuffleFacts.
Context {rng : Type} (Random : Z -> rng) (randbelow : nat -> rng -> nat * rng).
Hypothesis randbelow_lt : randbelow_in_range randbelow.
Context {A : Type}.
Implicit Types x : list A.

Lemma swap_perm x i j :
  (i < length x)%nat -> (j < length x)%nat ->
  exists x', swap x i j = Ok x' /\ x' ≡ₚ x.
Proof.
  intros Hi Hj.
  destruct (lookup_lt_is_Some_2 x i Hi) as [xi Ei].
  destruct (lookup_lt_is_Some_2 x j Hj) as [xj Ej].
  exists (<[j := xi]> (<[i := xj]> x)). split.
  - unfold swap, getitem. rewrite Ej, Ei. reflexivity.
  - by apply Permutation_insert_swap.
Qed.

Lemma shuffle_from_perm i x g :
  (i = 0 \/ i < length x)%nat ->
  exists x', shuffle_from rng randbelow i x g = Ok x' /\ x' ≡ₚ x.
Proof.
  revert x g. induction i as [|i IH]; intros x g Hi.
  - exists x. done.
  - cbn [shuffle_from].
    pose proof (randbelow_lt (S (S i)) g ltac:(lia)) as Hj.
    destruct (randbelow (S (S i)) g) as [j g']. cbn [fst] in Hj.
    destruct (swap_perm x (S i) j) as (x1 & -> & P1); [lia|lia|].
    cbn [mbind result_bind Py.bind].
    destruct (IH x1 g') as (x2 & -> & P2).
    { right. rewrite (Permutation_length P1). lia. }
    exists x2. split; [done|]. by rewrite P2.
Qed.

Lemma shuffle_perm x g :
  exists x', shuffle rng randbelow x g = Ok x' /\ x' ≡ₚ x.
Proof. apply shuffle_from_perm. lia. Qed.

(** The video script's [split_list] partitions, for any two ratios whose
    cut points come in order. *)
Lemma videos_split_list_cut (items : list A) (r0 r1 r2 : float) seed :
  (forall n, 0 <= n <= PY_SSIZE_T_MAX ->
     exists n1 n2, int_times n r0 = Ok n1 /\ int_times n (fadd r0 r1) = Ok n2
                   /\ 0 <= n1 <= n2) ->
  Z.of_nat (length items) <= PY_SSIZE_T_MAX ->
  exists tr va te,
    Videos.split_list rng Random randbelow items [r0; r1; r2] seed = Ok (tr, va, te)
    /\ tr ++ va ++ te ≡ₚ items.
Proof.
  intros Hc Hn. unfold Videos.split_list.
  destruct (shuffle_perm items (Random seed)) as (x & -> & P).
  cbn [mbind result_bind Py.bind getitem lookup list_lookup].
  destruct (Hc (Z.of_nat (length x))) as (n1 & n2 & H1 & H2 & Hle).
  { rewrite (Permutation_length P). lia. }
  apply bind_Ok in H1 as (x1 & E1 & F1). apply bind_Ok in H2 as (x2 & E2 & F2).
  rewrite E1. cbn [mbind result_bind Py.bind]. rewrite F1.
  cbn [mbind result_bind Py.bind]. rewrite E2.
  cbn [mbind result_bind Py.bind]. rewrite F2.
  cbn [mbind result_bind Py.bind].
  eexists _, _, _. split; [reflexivity|].
  rewrite slices_partition by done. done.
Qed.

Lemma videos_split_list_partition (items : list A) seed :
  Z.of_nat (length items) <= PY_SSIZE_T_MAX ->
  exists tr va te,
    Videos.split_list rng Random randbelow items [f0_7; f0_2; f0_1] seed = Ok (tr, va, te)
    /\ tr ++ va ++ te ≡ₚ items.
Proof. apply videos_split_list_cut. apply cut_points. Qed.

Lemma images_split_list_eq (items : list A) seed :
  Images.split_list rng Random randbelow items [f0_7; f0_2; f0_1] seed
  = Videos.split_list rng Random randbelow items [f0_7; f0_2; f0_1] seed.
Proof. reflexivity. Qed.
End ShuffleFacts.

(** ** The sizes of the splits *)

Section SliceSizes.
Context {A : Type}.
Implicit Types l : list A.

Lemma slice_sizes l n1 n2 :
  0 <= n1 <= n2 -> n2 <= Z.of_nat (length l) ->
  sizes (slice_to l n1, slice l n1 n2, slice_from l n2)
  = (n1, n2 - n1, Z.of_nat (length l) - n2).
Proof.
  intros H1 H2. unfold sizes, slice_to, slice, slice_from.
  rewrite !slice_index_nonneg by lia.
  rewrite !length_take, !length_drop. f_equal; [f_equal|]; lia.
Qed.
End SliceSizes.

Section SizeFacts.
Context {rng : Type} (Random : Z -> rng) (randbelow : nat -> rng -> nat * rng).
Hypothesis randbelow_lt : randbelow_in_range randbelow.
Context {A : Type}.

(** The sizes of the three splits are decided by the two products alone. *)
Lemma split_list_sizes (items : list A) seed n1 n2 :
  int_times (Z.of_nat (length items)) f0_7 = Ok n1 ->
  int_times (Z.of_nat (length items)) (fadd f0_7 f0_2) = Ok n2 ->
  0 <= n1 <= n2 -> n2 <= Z.of_nat (length items) ->
  sizes <$> Images.split_list rng Random randbelow items [f0_7; f0_2; f0_1] seed
  = Ok (n1, n2 - n1, Z.of_nat (length items) - n2)
  /\ sizes <$> Videos.split_list rng Random randbelow items [f0_7; f0_2; f0_1] seed
     = Ok (n1, n2 - n1, Z.of_nat (length items) - n2).
Proof.
  intros H1 H2 Hle Hn. rewrite images_split_list_eq. split; [|].
  all: unfold Videos.split_list.
  all: destruct (shuffle_perm randbelow randbelow_lt items (Random seed)) as (x & -> & P).
  all: cbn [mbind result_bind Py.bind getitem lookup list_lookup].
  all: rewrite (Permutation_length P).
  all: apply bind_Ok in H1 as (x1 & E1 & F1); apply bind_Ok in H2 as (x2 & E2 & F2).
  all: rewrite E1; cbn [mbind result_bind Py.bind]; rewrite F1.
  all: cbn [mbind result_bind Py.bind]; rewrite E2.
  all: cbn [mbind result_bind Py.bind]; rewrite F2.
  all: cbn [mbind result_bind Py.bind fmap result_fmap].
  all: rewrite slice_sizes by (rewrite ?(Permutation_length P); lia).
  all: by rewrite (Permutation_length P).
Qed.
End SizeFacts.

(** ** The Mersenne Twister honours the contract of [_randbelow] *)

Lemma MT_retry_lt tries n k g : 0 < n -> fst (MT19937.retry tries n k g) < n.
Proof.
  intros Hn. revert g. induction tries as [|t IH]; intros g; cbn [MT19937.retry].
  - destruct (MT19937.getrandbits k g) as [r g'].
    destruct (Z.ltb_spec r n); cbn [fst]; lia.
  - destruct (MT19937.getrandbits k g) as [r g'].
    destruct (Z.ltb_spec r n); cbn [fst]; [lia|apply IH].
Qed.

Lemma MT_randbelow_in_range : randbelow_in_range MT19937.randbelow.
Proof.
  intros n g Hn. unfold MT19937.randbelow.
  pose proof (MT_retry_lt 1000 (Z.of_nat n) (MT19937.bit_length (Z.of_nat n)) g ltac:(lia)) as H.
  destruct (MT19937.retry _ _ _ g) as [r g']. cbn [fst] in *. lia.
Qed.

(** The first draws of [random.Random(42)], as CPython prints them. *)
Example MT_seed_42 :
  let g0 := MT19937.Random 42 in
  let '(a, g1) := MT19937.getrandbits 32 g0 in
  let '(b, g2) := MT19937.getrandbits 32 g1 in
  let '(c, g3) := MT19937.getrandbits 40 g2 in
  (a, b, c) = (2746317213, 478163327, 811856239313).
Proof. vm_compute. reflexivity. Qed.

Example MT_shuffle_42 :
  shuffle _ MT19937.randbelow [0; 1; 2; 3; 4; 5; 6; 7; 8; 9] (MT19937.Random 42)
  = Ok [7; 3; 2; 8; 5; 6; 9; 4; 0; 1].
Proof. vm_compute. reflexivity. Qed.

(** The literals are the doubles nearest to their decimal texts. *)
Example literals_nearest :
  nearest_to 7 10 f0_7 && nearest_to 2 10 f0_2 && nearest_to 1 10 f0_1
  && nearest_to 1 1 f1_0 && nearest_to 1 1000000 f1e_6
  && nearest_to 5 10 f0_5 && nearest_to 3 10 f0_3 = true.
Proof. vm_compute. reflexivity. Qed.

(** ** The partitioner *)

Section PartitionFacts.

Context {rng : Type} (Random : Z -> rng) (randbelow : nat -> rng -> nat * rng).
Context {A : Type}.

Lemma partition_facts (items tr va te : list A) :
  tr ++ va ++ te ≡ₚ items ->
  (length tr + length va + length te = length items)%nat
  /\ (NoDup items -> pairwise_disjoint tr va te).
Proof.
  intros P. split.
  - rewrite <- (Permutation_length P), !length_app. lia.
  - intros ND. rewrite <- P in ND.
    apply NoDup_app in ND as (_ & D1 & ND).
    apply NoDup_app in ND as (_ & D2 & _).
    repeat split.
    + intros x Hx Hv. apply (D1 x Hx). apply elem_of_app. by left.
    + intros x Hx Hv. apply (D1 x Hx). apply elem_of_app. by right.
    + exact D2.
Qed.

End PartitionFacts.

(** C1, as amended.  With the ratios (0.7, 0.2, 0.1), any seed and any
    generator that honours the contract of [_randbelow], both [split_list]s
    return three sequences whose concatenation is a permutation of the input
    list and whose lengths add up to its length; when the items are pairwise
    distinct, no item is in two of the three. *)
Theorem split_list_partition {rng A} (Random : Z -> rng)
    (randbelow : nat -> rng -> nat * rng) (items : list A) (seed : Z) :
  randbelow_in_range randbelow ->
  Z.of_nat (length items) <= PY_SSIZE_T_MAX ->
  exists tr va te,
    Images.split_list rng Random randbelow items [f0_7; f0_2; f0_1] seed = Ok (tr, va, te)
    /\ Videos.split_list rng Random randbelow items [f0_7; f0_2; f0_1] seed = Ok (tr, va, te)
    /\ tr ++ va ++ te ≡ₚ items
    /\ (length tr + length va + length te = length items)%nat
    /\ (NoDup items -> pairwise_disjoint tr va te).
Proof.
  intros Hr Hn.
  destruct (videos_split_list_partition Random randbelow Hr items seed Hn)
    as (tr & va & te & E & P).
  exists tr, va, te. rewrite images_split_list_eq.
  split; [done|]. split; [done|]. split; [done|]. by apply partition_facts.
Qed.

Lemma split_list_partition_witness :
  randbelow_in_range MT19937.randbelow
  /\ Z.of_nat (length ["a.jpg"; "b.jpg"; "c.jpg"]) <= PY_SSIZE_T_MAX
  /\ exists tr va te,
       Images.split_list _ MT19937.Random MT19937.randbelow
         ["a.jpg"; "b.jpg"; "c.jpg"] [f0_7; f0_2; f0_1] 42 = Ok (tr, va, te)
       /\ Videos.split_list _ MT19937.Random MT19937.randbelow
         ["a.jpg"; "b.jpg"; "c.jpg"] [f0_7; f0_2; f0_1] 42 = Ok (tr, va, te)
       /\ tr ++ va ++ te ≡ₚ ["a.jpg"; "b.jpg"; "c.jpg"]
       /\ (length tr + length va + length te = length ["a.jpg"; "b.jpg"; "c.jpg"])%nat
       /\ (NoDup ["a.jpg"; "b.jpg"; "c.jpg"] -> pairwise_disjoint tr va te).
Proof.
  split; [exact MT_randbelow_in_range|].
  split; [vm_compute; discriminate|].
  apply (split_list_partition MT19937.Random MT19937.randbelow).
  - exact MT_randbelow_in_range.
  - vm_compute. discriminate.
Defined.

(** C1 as stated fails on a list that holds an item twice: the two copies
    land in train and in test. *)
Lemma split_list_duplicates_overlap :
  Images.split_list _ MT19937.Random MT19937.randbelow
    ["a.jpg"; "a.jpg"] [f0_7; f0_2; f0_1] 42 = Ok (["a.jpg"], [], ["a.jpg"])
  /\ ~ pairwise_disjoint ["a.jpg"] ([] : list string) ["a.jpg"].
Proof.
  split; [vm_compute; reflexivity|].
  intros (_ & D & _). apply (D "a.jpg"); apply list_elem_of_In; left; reflexivity.
Qed.

(** C2.  On 30 items the splits have sizes (21, 5, 4), not the (21, 6, 3) of
    the exact floors: [0.7 + 0.2] is the double just below 0.9 and
    [30 * (0.7 + 0.2)] rounds below 27.  On 90 items the sizes are
    (62, 18, 10), not (63, 18, 9): [90 * 0.7] rounds below 63 and
    [90 * (0.7 + 0.2)] below 81.  This is so in both scripts, whatever the
    items, the seed and the generator. *)
Theorem split_sizes_off_by_one :
  sizes <$> Images.split_list _ MT19937.Random MT19937.randbelow
              (seq 0 30) [f0_7; f0_2; f0_1] 42 = Ok (21, 5, 4)
  /\ floor_sizes 30 = (21, 6, 3)
  /\ floor_sizes 90 = (63, 18, 9)
  /\ (forall rng (Random : Z -> rng) randbelow A (items : list A) seed,
        randbelow_in_range randbelow ->
        (length items = 30%nat ->
         sizes <$> Images.split_list rng Random randbelow items [f0_7; f0_2; f0_1] seed
         = Ok (21, 5, 4)
         /\ sizes <$> Videos.split_list rng Random randbelow items [f0_7; f0_2; f0_1] seed
            = Ok (21, 5, 4))
        /\ (length items = 90%nat ->
            sizes <$> Images.split_list rng Random randbelow items [f0_7; f0_2; f0_1] seed
            = Ok (62, 18, 10)
            /\ sizes <$> Videos.split_list rng Random randbelow items [f0_7; f0_2; f0_1] seed
               = Ok (62, 18, 10))).
Proof.
  split; [vm_compute; reflexivity|]. split; [reflexivity|]. split; [reflexivity|].
  intros rng Random randbelow A items seed Hr. split; intros Hn.
  - pose proof (split_list_sizes Random randbelow Hr items seed 21 26) as H.
    rewrite Hn in H. destruct H as [Hi Hv]; [reflexivity|reflexivity|lia|lia|].
    split; [exact Hi|exact Hv].
  - pose proof (split_list_sizes Random randbelow Hr items seed 62 80) as H.
    rewrite Hn in H. destruct H as [Hi Hv]; [reflexivity|reflexivity|lia|lia|].
    split; [exact Hi|exact Hv].
Qed.


(** ** [split_list] in place *)

Section InPlace.
Context {rng : Type} (Random : Z -> rng) (randbelow : nat -> rng -> nat * rng).
Context {A : Type}.
Implicit Types p : @Process.process rng A.

Lemma store_same p x l : Process.objects (Process.store p x l) x = l.
Proof. cbn. by rewrite Nat.eqb_refl. Qed.

Lemma store_other p x l y : y <> x -> Process.objects (Process.store p x l) y = Process.objects p y.
Proof. intros N. cbn. by apply Nat.eqb_neq in N as ->. Qed.

(** The shuffle touches the one list object, and not the generator of the
    module. *)
Lemma shuffle_from_frame i x g p :
  (forall y, y <> x ->
     Process.objects (snd (Process.shuffle_from rng randbelow i x g p)) y
     = Process.objects p y)
  /\ Process.module_generator (snd (Process.shuffle_from rng randbelow i x g p))
     = Process.module_generator p.
Proof.
  revert g p. induction i as [|i IH]; intros g p; cbn [Process.shuffle_from]; [done|].
  destruct (randbelow (S (S i)) g) as [j g'].
  destruct (swap (Process.objects p x) (S i) j) as [l|e]; [|done].
  destruct (IH g' (Process.store p x l)) as [I1 I2]. split; [|done].
  intros y N. by rewrite I1, store_other.
Qed.

(** In place, it does what the shuffle of the contents does. *)
Lemma shuffle_from_value i x g p :
  match shuffle_from rng randbelow i (Process.objects p x) g with
  | Ok l =>
      fst (Process.shuffle_from rng randbelow i x g p) = Ok tt
      /\ Process.objects (snd (Process.shuffle_from rng randbelow i x g p)) x = l
  | Raise e => fst (Process.shuffle_from rng randbelow i x g p) = Raise e
  end.
Proof.
  revert g p. induction i as [|i IH]; intros g p;
    cbn [Process.shuffle_from shuffle_from]; [done|].
  destruct (randbelow (S (S i)) g) as [j g'].
  destruct (swap (Process.objects p x) (S i) j) as [l|e]; [|done].
  cbn [mbind result_bind Py.bind].
  specialize (IH g' (Process.store p x l)). by rewrite store_same in IH.
Qed.

(** Two list objects with the same contents are left with the same
    contents, also by a shuffle that an exception ends. *)
Lemma shuffle_from_alike i g p1 p2 x1 x2 :
  Process.objects p1 x1 = Process.objects p2 x2 ->
  fst (Process.shuffle_from rng randbelow i x1 g p1)
  = fst (Process.shuffle_from rng randbelow i x2 g p2)
  /\ Process.objects (snd (Process.shuffle_from rng randbelow i x1 g p1)) x1
     = Process.objects (snd (Process.shuffle_from rng randbelow i x2 g p2)) x2.
Proof.
  revert g p1 p2. induction i as [|i IH]; intros g p1 p2 E;
    cbn [Process.shuffle_from]; [done|].
  destruct (randbelow (S (S i)) g) as [j g']. rewrite E.
  destruct (swap (Process.objects p2 x2) (S i) j) as [l|e]; [|done].
  apply IH. by rewrite !store_same.
Qed.

Lemma cut_value (items : list A) ratios seed :
  Videos.split_list rng Random randbelow items ratios seed
  = l ← shuffle rng randbelow items (Random seed); Process.cut l ratios.
Proof. reflexivity. Qed.

Lemma shuffle_and_cut_value x ratios seed p :
  fst (Process.shuffle_and_cut rng Random randbelow x ratios seed p)
  = Videos.split_list rng Random randbelow (Process.objects p x) ratios seed
  /\ (forall y, y <> x ->
        Process.objects (snd (Process.shuffle_and_cut rng Random randbelow x ratios seed p)) y
        = Process.objects p y)
  /\ Process.module_generator
       (snd (Process.shuffle_and_cut rng Random randbelow x ratios seed p))
     = Process.module_generator p.
Proof.
  rewrite cut_value. unfold Process.shuffle_and_cut, Process.shuffle, shuffle.
  pose proof (shuffle_from_value (length (Process.objects p x) - 1) x (Random seed) p) as V.
  pose proof (shuffle_from_frame (length (Process.objects p x) - 1) x (Random seed) p) as F.
  destruct (Process.shuffle_from _ _ _ _ _ p) as [[[]|e] p']; cbn [fst snd] in *;
    destruct (shuffle_from rng randbelow _ (Process.objects p x) (Random seed)) as [l|e'];
    cbn [mbind result_bind Py.bind].
  - destruct V as [_ ->]. done.
  - done.
  - by destruct V.
  - by injection V as ->.
Qed.

Lemma shuffle_and_cut_alike x1 x2 ratios seed p1 p2 :
  Process.objects p1 x1 = Process.objects p2 x2 ->
  Process.objects (snd (Process.shuffle_and_cut rng Random randbelow x1 ratios seed p1)) x1
  = Process.objects (snd (Process.shuffle_and_cut rng Random randbelow x2 ratios seed p2)) x2.
Proof.
  intros E. unfold Process.shuffle_and_cut, Process.shuffle. rewrite E.
  destruct (shuffle_from_alike (length (Process.objects p2 x2) - 1) (Random seed)
              p1 p2 x1 x2 E) as [E1 E2].
  destruct (Process.shuffle_from _ _ _ x1 _ p1) as [[[]|e1] q1],
           (Process.shuffle_from _ _ _ x2 _ p2) as [[[]|e2] q2]; cbn [fst snd] in *;
    done.
Qed.

End InPlace.

(** C4.  [split_list] depends on the items its list holds, on the ratios and
    on the seed, and on nothing else of the process it runs in.  Take two
    invocations, in one process or in two, with any other objects and with
    the generator of the [random] module in any state, on list objects that
    hold the same items when the call starts, with the same ratios and seed.
    They end alike: with the same three sequences, element for element and
    in the same order, or with the same exception; the result is the one the
    value-level [split_list] gives on the items.  They leave the two list
    objects with the same contents, touch no other object, and leave the
    generator of the module as it was: the generator that shuffles is a new
    one, made from the seed.  (The list object itself is shuffled in place:
    a later call on the same object starts from other contents; [main]
    passes a copy.)  This holds for both scripts and any generator class. *)
Theorem split_list_deterministic {rng A}
    (Random : Z -> rng) (randbelow : nat -> rng -> nat * rng)
    (p1 p2 : @Process.process rng A) (x1 x2 : nat)
    (items : list A) (ratios : list float) (seed : Z) :
  Process.objects p1 x1 = items -> Process.objects p2 x2 = items ->
  (let r1 := Process.images_split_list rng Random randbelow x1 ratios seed p1 in
   let r2 := Process.images_split_list rng Random randbelow x2 ratios seed p2 in
   fst r1 = fst r2
   /\ fst r1 = Images.split_list rng Random randbelow items ratios seed
   /\ Process.objects (snd r1) x1 = Process.objects (snd r2) x2
   /\ (forall y, y <> x1 -> Process.objects (snd r1) y = Process.objects p1 y)
   /\ Process.module_generator (snd r1) = Process.module_generator p1)
  /\ (let r1 := Process.videos_split_list rng Random randbelow x1 ratios seed p1 in
      let r2 := Process.videos_split_list rng Random randbelow x2 ratios seed p2 in
      fst r1 = fst r2
      /\ fst r1 = Videos.split_list rng Random randbelow items ratios seed
      /\ Process.objects (snd r1) x1 = Process.objects (snd r2) x2
      /\ (forall y, y <> x1 -> Process.objects (snd r1) y = Process.objects p1 y)
      /\ Process.module_generator (snd r1) = Process.module_generator p1).
Proof.
  intros E1 E2.
  destruct (shuffle_and_cut_value Random randbelow x1 ratios seed p1) as (V1 & F1 & G1).
  destruct (shuffle_and_cut_value Random randbelow x2 ratios seed p2) as (V2 & _ & _).
  pose proof (shuffle_and_cut_alike Random randbelow x1 x2 ratios seed p1 p2
                ltac:(congruence)) as L.
  rewrite E1 in V1. rewrite E2 in V2.
  split.
  - unfold Process.images_split_list, Images.split_list.
    destruct (assert _); cbn [mbind result_bind Py.bind fst snd].
    + split; [congruence|]. split; [exact V1|]. split; [exact L|]. split; [exact F1|exact G1].
    + split; [done|]. split; [done|]. split; [congruence|]. split; done.
  - unfold Process.videos_split_list. cbv zeta.
    split; [congruence|]. split; [exact V1|]. split; [exact L|]. split; [exact F1|exact G1].
Qed.

(** Two processes: the list objects have other identities, there are other
    objects, and the generators of the module were seeded differently. *)
Lemma split_list_deterministic_witness :
  let p1 := Process.mkProcess (fun _ => Scenario.ten_items) (MT19937.Random 1) in
  let p2 := Process.store (Process.mkProcess (fun _ => []) (MT19937.Random 2))
              5 Scenario.ten_items in
  Process.objects p1 0 = Scenario.ten_items /\ Process.objects p2 5 = Scenario.ten_items
  /\ (let r1 := Process.images_split_list _ MT19937.Random MT19937.randbelow 0
                  [f0_7; f0_2; f0_1] 42 p1 in
      let r2 := Process.images_split_list _ MT19937.Random MT19937.randbelow 5
                  [f0_7; f0_2; f0_1] 42 p2 in
      fst r1 = fst r2
      /\ fst r1 = Images.split_list _ MT19937.Random MT19937.randbelow
                    Scenario.ten_items [f0_7; f0_2; f0_1] 42
      /\ Process.objects (snd r1) 0 = Process.objects (snd r2) 5
      /\ (forall y, y <> 0%nat -> Process.objects (snd r1) y = Process.objects p1 y)
      /\ Process.module_generator (snd r1) = Process.module_generator p1)
  /\ (let r1 := Process.videos_split_list _ MT19937.Random MT19937.randbelow 0
                  [f0_7; f0_2; f0_1] 42 p1 in
      let r2 := Process.videos_split_list _ MT19937.Random MT19937.randbelow 5
                  [f0_7; f0_2; f0_1] 42 p2 in
      fst r1 = fst r2
      /\ fst r1 = Videos.split_list _ MT19937.Random MT19937.randbelow
                    Scenario.ten_items [f0_7; f0_2; f0_1] 42
      /\ Process.objects (snd r1) 0 = Process.objects (snd r2) 5
      /\ (forall y, y <> 0%nat -> Process.objects (snd r1) y = Process.objects p1 y)
      /\ Process.module_generator (snd r1) = Process.module_generator p1).
Proof.
  intros p1 p2. split; [reflexivity|]. split; [reflexivity|].
  exact (split_list_deterministic MT19937.Random MT19937.randbelow p1 p2 0 5
           Scenario.ten_items [f0_7; f0_2; f0_1] 42 eq_refl eq_refl).
Defined.

(** ** Runs of the two scripts *)

Section StepsFacts.
Variable R : world -> world -> Prop.
Hypothesis R_refl : forall w, R w w.
Hypothesis R_trans : forall w1 w2 w3, R w1 w2 -> R w2 w3 -> R w1 w3.

Lemma steps_ret {A} (a : A) : steps R (ret a).
Proof. intros w. apply R_refl. Qed.

Lemma steps_raise {A} e : steps R (@raise A e).
Proof. intros w. apply R_refl. Qed.

Lemma steps_lift {A} (r : result A) : steps R (lift r).
Proof. intros w. apply R_refl. Qed.

Lemma steps_bind {A B} (m : M A) (k : A -> M B) :
  steps R m -> (forall a, steps R (k a)) -> steps R (bindM m k).
Proof.
  intros Hm Hk w. unfold bindM. specialize (Hm w).
  destruct (m w) as [[a|e] w1]; cbn [snd] in *; [|done].
  eapply R_trans; [exact Hm|apply Hk].
Qed.

Lemma steps_try {A} (body : M A) caught handler :
  steps R body -> (forall e, steps R (handler e)) ->
  steps R (try_except body caught handler).
Proof.
  intros Hb Hh w. unfold try_except. specialize (Hb w).
  destruct (body w) as [[a|e] w1]; cbn [snd] in *; [done|].
  destruct (caught e); [|done].
  eapply R_trans; [exact Hb|apply Hh].
Qed.

Lemma steps_for_each {A S} (l : list A) (body : A -> S -> M S) s :
  (forall x s, steps R (body x s)) -> steps R (for_each l body s).
Proof.
  intros Hb. revert s. induction l as [|x l IH]; intros s; cbn [for_each].
  - apply steps_ret.
  - apply steps_bind; [apply Hb|apply IH].
Qed.

End StepsFacts.

Lemma emits_refl P w : emits P w w.
Proof. exists []. by rewrite app_nil_r. Qed.

Lemma emits_trans P w1 w2 w3 : emits P w1 w2 -> emits P w2 w3 -> emits P w1 w3.
Proof.
  intros (t1 & E1 & F1) (t2 & E2 & F2). exists (t1 ++ t2).
  rewrite E2, E1, app_assoc, forallb_app, F1, F2. done.
Qed.

Lemma steps_emit P e : P e = true -> steps (emits P) (emit e).
Proof. intros H w. exists [e]. cbn. by rewrite H. Qed.

Lemma steps_write_file P p : steps (emits P) (write_file p).
Proof. intros w. exists []. cbn. by rewrite app_nil_r. Qed.

Lemma steps_mkdir_p P h d : P (Mkdir d) = true -> steps (emits P) (mkdir_p h d).
Proof.
  intros H w. unfold mkdir_p.
  destruct (_ || _); cbn [snd trace]; exists [Mkdir d]; cbn; by rewrite H.
Qed.

Lemma same_fs_refl w : same_fs w w.
Proof. done. Qed.

Lemma same_fs_trans w1 w2 w3 : same_fs w1 w2 -> same_fs w2 w3 -> same_fs w1 w3.
Proof. intros [A1 B1] [A2 B2]. split; congruence. Qed.

Lemma steps_emit_fs e : steps same_fs (emit e).
Proof. intros w. done. Qed.

Create HintDb steps.
#[local] Hint Resolve emits_refl emits_trans same_fs_refl same_fs_trans : steps.
#[local] Hint Resolve steps_ret steps_raise steps_lift steps_emit steps_write_file
  steps_mkdir_p steps_emit_fs : steps.

Ltac step :=
  repeat first
    [ match goal with |- ?G => lazymatch G with forall _, _ => intro end end
    | match goal with
      | |- steps _ (bindM _ _) =>
          apply steps_bind; try solve [eauto with steps]
      | |- steps _ (try_except _ _ _) =>
          apply steps_try; try solve [eauto with steps]
      | |- steps _ (for_each _ _ _) =>
          apply steps_for_each; try solve [eauto with steps]
      | |- steps _ (print _) => unfold print
      | |- steps (emits _) (emit _) => apply steps_emit; reflexivity
      | |- steps (emits _) (mkdir_p _ _) => apply steps_mkdir_p; reflexivity
      | |- steps _ (match ?x with _ => _ end) => destruct x
      | |- steps _ (match ?x with _ => _ end _) => destruct x
      | |- steps _ _ => solve [eauto with steps]
      end ].

Lemma ffmpeg_steps h src dst fps width height :
  steps (emits (uses true)) (Videos.reencode_with_ffmpeg h src dst fps width height).
Proof. unfold Videos.reencode_with_ffmpeg. step. Qed.

Lemma opencv_steps h src dst fps width height :
  steps (emits (uses false)) (Videos.reencode_with_opencv h src dst fps width height).
Proof. unfold Videos.reencode_with_opencv, Videos.compose_frame. step. Qed.

#[local] Hint Resolve ffmpeg_steps opencv_steps : steps.

Section VideoRun.
Context {rng : Type} (Random : Z -> rng) (randbelow : nat -> rng -> nat * rng).

Lemma videos_place_steps h a out b label split src counts :
  steps (emits (uses b))
        (Videos.place h a out b label split src counts).
Proof. unfold Videos.place. step. Qed.

Lemma videos_place_class_steps h a out b kv counts :
  steps (emits (uses b))
        (Videos.place_class rng Random randbelow h a out b kv counts).
Proof.
  unfold Videos.place_class. step. apply videos_place_steps.
Qed.
End VideoRun.

Lemma ffmpeg_available_run h w :
  snd (Videos.ffmpeg_available h w)
  = mkWorld (fs_dirs w) (fs_files w) (trace w ++ [Run FfmpegVersion])
  /\ (forall b, fst (Videos.ffmpeg_available h w) = Ok b -> b = ffmpeg_started h).
Proof.
  unfold Videos.ffmpeg_available, ffmpeg_started, try_except, bindM, emit, raise, ret.
  destruct (ffmpeg_probe h) as [|status wrote]; cbn.
  - split; [done|congruence].
  - split; [done|congruence].
Qed.

Section VideoMain.
Context {rng : Type} (Random : Z -> rng) (randbelow : nat -> rng -> nat * rng).

Lemma videos_after_probe_steps h a out b fbc :
  steps (emits (uses b))
    (print (if b then MsgUsingFfmpeg else MsgNoFfmpeg) ;;;
     let* counts :=
       for_each fbc (Videos.place_class rng Random randbelow h a out b) counts0 in
     print (MsgDoneCounts counts) ;;; ret counts).
Proof. step. apply videos_place_class_steps. Qed.

(** The events a run of the video script adds to the trace are console
    output followed, once the source tree is collected, by exactly one
    version probe and then only by events of the backend the probe
    selected: none of the other backend, and no second probe.  A run that
    ends before the collection is done probes nothing and starts no
    transform.  This holds for runs that an exception ends as well. *)
Lemma one_probe_then_one_backend h a w :
  exists pre post,
    trace (snd (Videos.main rng Random randbelow h a w)) = trace w ++ pre ++ post
    /\ forallb is_print pre = true
    /\ match src_tree h with
       | Some t =>
           match Videos.gather_video_files (parse (Videos.src_root a)) t with
           | Ok _ =>
               exists post', post = Run FfmpegVersion :: post'
                             /\ forallb (uses (ffmpeg_started h)) post' = true
           | Raise _ => post = []
           end
       | None => post = []
       end.
Proof.
  unfold Videos.main. destruct (src_tree h) as [t|].
  - unfold bindM at 1, lift.
    destruct (Videos.gather_video_files _ t) as [fbc|e].
    + unfold bindM at 1, print at 1, emit.
      unfold bindM at 1.
      set (w1 := mkWorld _ _ _).
      destruct (ffmpeg_available_run h w1) as [Ew Eb].
      destruct (Videos.ffmpeg_available h w1) as [[b|e] w2] eqn:Ef; cbn [fst snd] in *.
      * specialize (Eb b eq_refl). subst b.
        destruct (videos_after_probe_steps h a (parse (Videos.output_root a))
                    (ffmpeg_started h) fbc w2) as (t2 & E2 & F2).
        exists [Print (MsgFound (total_items fbc) (length fbc))],
               (Run FfmpegVersion :: t2).
        split; [|split; [done|eauto]].
        rewrite E2, Ew. subst w1. cbn [trace]. by rewrite <- !app_assoc.
      * exists [Print (MsgFound (total_items fbc) (length fbc))], [Run FfmpegVersion].
        split; [|split; [done|exists []; done]].
        rewrite Ew. subst w1. cbn [trace]. by rewrite <- !app_assoc.
    + exists [], []. cbn [snd]. rewrite !app_nil_r. done.
  - exists [Print (MsgSourceNotFound (parse (Videos.src_root a)))], [].
    cbn [app]. done.
Qed.
End VideoMain.

Lemma self_in_ancestors d : parts d <> [] -> d ∈ ancestors_or_self d.
Proof.
  intros Hd. unfold ancestors_or_self. apply list_elem_of_fmap.
  exists (length (parts d)). split.
  - rewrite take_ge by lia. by destruct d.
  - apply elem_of_seq. destruct (parts d); [done|]. cbn [length]. lia.
Qed.

Lemma is_dir_after_mkdir dirs files t d :
  is_dir (mkWorld (list_union dirs (ancestors_or_self d)) files t) d.
Proof.
  unfold is_dir. cbn [fs_dirs]. destruct (decide (parts d = [])) as [E|NE]; [by left|right].
  apply list_elem_of_union. right. by apply self_in_ancestors.
Qed.

(** C10.  [resize_and_save] and [reencode_with_ffmpeg] first create the
    parent directories of the destination.  When that fails, the [OSError]
    leaves the function and the transform is not started; otherwise the
    source is opened (the encoder is run) next and, whatever the outcome of
    the transform, the parent directory exists when the function is done.
    In the loop body of [main] the [OSError] ends the iteration: nothing
    catches it there. *)
Theorem mkdir_precedes_transform h (src dst : Path) (size : Z * Z) (quality fps width height : Z) w :
  (let '(r, w') := Images.resize_and_save h src dst size quality w in
   if mkdir_blocked h w (parent dst)
   then r = Raise OSError /\ trace w' = trace w ++ [Mkdir (parent dst)]
   else is_dir w' (parent dst)
        /\ exists t, trace w' = trace w ++ Mkdir (parent dst) :: ImageOpen src :: t)
  /\
  (let '(r, w') := Videos.reencode_with_ffmpeg h src dst fps width height w in
   if mkdir_blocked h w (parent dst)
   then r = Raise OSError /\ trace w' = trace w ++ [Mkdir (parent dst)]
   else is_dir w' (parent dst)
        /\ exists t, trace w' = trace w ++
                       Mkdir (parent dst) :: Run (FfmpegEncode src dst fps width height) :: t)
  /\
  (forall ai av out label split counts c,
     counts !! split = Some c ->
     (Images.dry_run ai = false ->
      mkdir_blocked h w (parent (dst_path_of out split "images" label src)) = true ->
      fst (Images.place h ai out label split src counts w) = Raise OSError)
     /\
     (Videos.dry_run av = false ->
      mkdir_blocked h w (parent (dst_path_of out split "videos" label src)) = true ->
      fst (Videos.place h av out true label split src counts w) = Raise OSError)).
Proof.
  split; [|split]; cycle 2.
  { intros ai av out label split counts c Hc. split; intros Hd Hb.
    - unfold Images.place, bindM at 1, lift, incr. rewrite Hc, Hd.
      unfold bindM at 1, Images.resize_and_save, bindM at 1, mkdir_p.
      fold (mkdir_blocked h w (parent (dst_path_of out split "images" label src))).
      by rewrite Hb.
    - unfold Videos.place, bindM at 1, lift, incr. rewrite Hc, Hd.
      unfold bindM at 1, bindM at 1, Videos.reencode_with_ffmpeg, bindM at 1, mkdir_p.
      fold (mkdir_blocked h w (parent (dst_path_of out split "videos" label src))).
      by rewrite Hb. }
  - unfold Images.resize_and_save, bindM at 1, mkdir_p. fold (mkdir_blocked h w (parent dst)).
    destruct (mkdir_blocked h w (parent dst)); [done|].
    unfold try_except, bindM, emit, raise, print, emit, write_file, ret. cbn [trace fs_dirs fs_files].
    destruct (pil h src) as [|e|e]; cbn [trace fs_dirs fs_files].
    + split; [apply is_dir_after_mkdir|]. eexists. rewrite <- !app_assoc. reflexivity.
    + destruct (is_Exception e); (split; [apply is_dir_after_mkdir|]);
        eexists; cbn [trace]; rewrite <- !app_assoc; reflexivity.
    + destruct (is_Exception e); (split; [apply is_dir_after_mkdir|]);
        eexists; cbn [trace]; rewrite <- !app_assoc; reflexivity.
  - unfold Videos.reencode_with_ffmpeg, bindM at 1, mkdir_p. fold (mkdir_blocked h w (parent dst)).
    destruct (mkdir_blocked h w (parent dst)); [done|].
    unfold try_except, bindM, emit, raise, print, emit, write_file, ret. cbn [trace fs_dirs fs_files].
    destruct (ffmpeg_encode h src) as [|status wrote]; cbn [trace fs_dirs fs_files].
    + cbn [is_CalledProcessError]. split; [apply is_dir_after_mkdir|].
      eexists; cbn [trace]; rewrite <- !app_assoc; reflexivity.
    + destruct wrote, (status =? 0); cbn [is_CalledProcessError trace fs_dirs fs_files];
        (split; [apply is_dir_after_mkdir|]);
        eexists; cbn [trace]; rewrite <- !app_assoc; reflexivity.
Qed.

(** ** Dry runs *)

Lemma untouched_refl w : untouched w w.
Proof. split; [apply same_fs_refl|apply emits_refl]. Qed.

Lemma untouched_trans w1 w2 w3 : untouched w1 w2 -> untouched w2 w3 -> untouched w1 w3.
Proof.
  intros [A1 B1] [A2 B2]. split; [by eapply same_fs_trans|by eapply emits_trans].
Qed.

Lemma steps_emit_untouched e : quiet e = true -> steps untouched (emit e).
Proof. intros H. intros w. split; [done|]. by apply steps_emit. Qed.

#[local] Hint Resolve untouched_refl untouched_trans : steps.

Ltac quiet_step :=
  repeat first
    [ match goal with |- steps untouched (emit _) => apply steps_emit_untouched; reflexivity end
    | progress step ].

Lemma incr_mk_counts a b c :
  incr (mk_counts a b c) "train" = Ok (mk_counts (S a) b c)
  /\ incr (mk_counts a b c) "val" = Ok (mk_counts a (S b) c)
  /\ incr (mk_counts a b c) "test" = Ok (mk_counts a b (S c)).
Proof. split; [|split]; reflexivity. Qed.

Section DryRun.
Context {rng : Type} (Random : Z -> rng) (randbelow : nat -> rng -> nat * rng).

Lemma planned_app s (p q : list (string * string * Path)) :
  planned s (p ++ q) = (planned s p + planned s q)%nat.
Proof. unfold planned. by rewrite filter_app, length_app. Qed.

Lemma planned_map s k s' (l : list Path) :
  planned s (map (fun p => (k, s', p)) l) = if decide (s' = s) then length l else O.
Proof.
  unfold planned. induction l as [|x l IH]; cbn [map].
  - by destruct (decide _).
  - rewrite filter_cons. cbn [fst snd]. destruct (decide (s' = s)); cbn [length]; lia.
Qed.

Lemma for_each_incr (body : Path -> gmap string nat -> M (gmap string nat))
    (s : string) (items : list Path) :
  (forall src c w, body src c w = (incr c s, w)) ->
  forall x y z w,
    for_each items body (mk_counts x y z) w
    = (if decide (s = "train") then Ok (mk_counts (x + length items) y z)
       else if decide (s = "val") then Ok (mk_counts x (y + length items) z)
       else if decide (s = "test") then Ok (mk_counts x y (z + length items))
       else match items with [] => Ok (mk_counts x y z) | _ => incr (mk_counts x y z) s end,
       w).
Proof.
  intros Hb. induction items as [|src items IH]; intros x y z w; cbn [for_each length].
  - unfold ret. rewrite !Nat.add_0_r. by repeat destruct (decide _).
  - unfold bindM. rewrite Hb.
    destruct (incr_mk_counts x y z) as (T & V & E).
    destruct (decide (s = "train")) as [->|N1].
    { rewrite T, IH. cbn. do 2 f_equal. f_equal. lia. }
    destruct (decide (s = "val")) as [->|N2].
    { rewrite V, IH. cbn. do 2 f_equal. f_equal. lia. }
    destruct (decide (s = "test")) as [->|N3].
    { rewrite E, IH. cbn. do 2 f_equal. f_equal. lia. }
    unfold incr. unfold mk_counts.
    rewrite !lookup_insert_ne by done. by rewrite lookup_empty.
Qed.

Lemma images_place_dry h a out label s src c w :
  Images.dry_run a = true -> Images.place h a out label s src c w = (incr c s, w).
Proof.
  intros D. unfold Images.place, bindM, lift. destruct (incr c s); [|done].
  by rewrite D.
Qed.

Lemma videos_place_dry h a out b label s src c w :
  Videos.dry_run a = true -> Videos.place h a out b label s src c w = (incr c s, w).
Proof.
  intros D. unfold Videos.place, bindM, lift. destruct (incr c s); [|done].
  by rewrite D.
Qed.

(** The three inner loops of one class, for any loop body that only
    counts. *)
Lemma dry_class (body : string -> Path -> gmap string nat -> M (gmap string nat))
    (tr va te : list Path) x y z w :
  (forall s src c w, body s src c w = (incr c s, w)) ->
  for_each [("train", tr); ("val", va); ("test", te)]
    (fun '(split_name, items) => for_each items (body split_name))
    (mk_counts x y z) w
  = (Ok (mk_counts (x + length tr) (y + length va) (z + length te)), w).
Proof.
  intros Hb. cbn [for_each]. unfold bindM.
  rewrite (for_each_incr (body "train") "train") by (intros; apply Hb).
  destruct (decide ("train" = "train")); [|done].
  rewrite (for_each_incr (body "val") "val") by (intros; apply Hb).
  destruct (decide ("val" = "train")); [done|]. destruct (decide ("val" = "val")); [|done].
  rewrite (for_each_incr (body "test") "test") by (intros; apply Hb).
  destruct (decide ("test" = "train")); [done|]. destruct (decide ("test" = "val")); [done|].
  destruct (decide ("test" = "test")); [|done].
  reflexivity.
Qed.

Lemma dry_classes
    (pc : string * list Path -> gmap string nat -> M (gmap string nat))
    (split : list Path -> result (list Path * list Path * list Path)) :
  (forall label files tr va te x y z w,
     split files = Ok (tr, va, te) ->
     pc (label, files) (mk_counts x y z) w
     = (Ok (mk_counts (x + length tr) (y + length va) (z + length te)), w)) ->
  forall fbc pl x y z w,
    plan split fbc = Ok pl ->
    for_each fbc pc (mk_counts x y z) w
    = (Ok (mk_counts (x + planned "train" pl) (y + planned "val" pl)
                     (z + planned "test" pl)), w).
Proof.
  intros Hpc. induction fbc as [|[label files] fbc IH]; intros pl x y z w Hp.
  - injection Hp as <-. cbn. unfold ret. by rewrite !Nat.add_0_r.
  - cbn [plan] in Hp. apply bind_Ok in Hp as (p & Hc & Hp).
    apply bind_Ok in Hp as (ps & Hps & [= <-]).
    unfold plan_class in Hc. cbn [snd fst] in Hc.
    apply bind_Ok in Hc as ([[tr va] te] & Hs & [= <-]).
    cbn [for_each]. unfold bindM at 1.
    rewrite (Hpc label files tr va te) by done.
    rewrite (IH ps) by done.
    rewrite !planned_app, !planned_map.
    repeat match goal with
           | |- context [decide (?u = ?v)] =>
               destruct (decide (u = v)); try discriminate; try congruence
           end.
    do 2 f_equal. f_equal; lia.
Qed.

Lemma images_place_class_dry h a out label files tr va te x y z w :
  Images.dry_run a = true ->
  Images.split_list rng Random randbelow files [f0_7; f0_2; f0_1] (Images.seed a)
    = Ok (tr, va, te) ->
  Images.place_class rng Random randbelow h a out (label, files) (mk_counts x y z) w
  = (Ok (mk_counts (x + length tr) (y + length va) (z + length te)), w).
Proof.
  intros D Hs. unfold Images.place_class, bindM at 1, lift. rewrite Hs.
  apply (dry_class (fun s => Images.place h a out label s)).
  intros. by apply images_place_dry.
Qed.

Lemma videos_place_class_dry h a out b label files tr va te x y z w :
  Videos.dry_run a = true ->
  Videos.split_list rng Random randbelow files [f0_7; f0_2; f0_1] (Videos.seed a)
    = Ok (tr, va, te) ->
  Videos.place_class rng Random randbelow h a out b (label, files) (mk_counts x y z) w
  = (Ok (mk_counts (x + length tr) (y + length va) (z + length te)), w).
Proof.
  intros D Hs. unfold Videos.place_class, bindM at 1, lift. rewrite Hs.
  apply (dry_class (fun s => Videos.place h a out b label s)).
  intros. by apply videos_place_dry.
Qed.

Lemma plan_total (split : list Path -> result (list Path * list Path * list Path)) fbc :
  Forall (fun kv => exists tr va te,
            split (snd kv) = Ok (tr, va, te) /\ tr ++ va ++ te ≡ₚ snd kv) fbc ->
  exists pl, plan split fbc = Ok pl /\ length pl = total_items fbc.
Proof.
  induction 1 as [|[label files] fbc (tr & va & te & Hs & P) _ (pl & Hp & Hl)].
  - by exists [].
  - cbn [plan]. unfold plan_class. cbn [snd fst] in *. rewrite Hs.
    cbn [mbind result_bind Py.bind]. rewrite Hp. cbn [mbind result_bind Py.bind].
    eexists. split; [reflexivity|].
    rewrite !length_app, !length_map, Hl. cbn [total_items foldr snd].
    fold (total_items fbc). rewrite <- (Permutation_length P), !length_app. lia.
Qed.

Lemma images_main_dry_untouched h a :
  Images.dry_run a = true ->
  steps untouched (Images.main rng Random randbelow h a).
Proof.
  intros D. unfold Images.main. quiet_step.
  unfold Images.place_class. quiet_step.
  intros w. rewrite images_place_dry by done. apply untouched_refl.
Qed.

Lemma videos_main_dry_untouched h a :
  Videos.dry_run a = true ->
  steps untouched (Videos.main rng Random randbelow h a).
Proof.
  intros D. unfold Videos.main, Videos.ffmpeg_available. quiet_step.
  unfold Videos.place_class. quiet_step.
  intros w. rewrite videos_place_dry by done. apply untouched_refl.
Qed.

Lemma images_main_dry_counts h a t fbc pl w :
  Images.dry_run a = true ->
  src_tree h = Some t ->
  Images.gather_image_files (parse (Images.src_root a)) t = Ok fbc ->
  plan (fun l => Images.split_list rng Random randbelow l [f0_7; f0_2; f0_1] (Images.seed a))
       fbc = Ok pl ->
  fst (Images.main rng Random randbelow h a w)
  = Ok (mk_counts (planned "train" pl) (planned "val" pl) (planned "test" pl)).
Proof.
  intros D Ht Hg Hp. unfold Images.main. rewrite Ht.
  unfold bindM at 1, print at 1, emit. unfold bindM at 1, lift. rewrite Hg.
  unfold bindM at 1, print at 1, emit. unfold bindM at 1.
  change counts0 with (mk_counts 0 0 0).
  rewrite (dry_classes _ _ (fun label files tr va te x y z w H =>
             images_place_class_dry h a _ label files tr va te x y z w D H) fbc pl)
    by exact Hp.
  reflexivity.
Qed.

Lemma videos_main_dry_counts h a t fbc pl w :
  Videos.dry_run a = true ->
  src_tree h = Some t ->
  Videos.gather_video_files (parse (Videos.src_root a)) t = Ok fbc ->
  plan (fun l => Videos.split_list rng Random randbelow l [f0_7; f0_2; f0_1] (Videos.seed a))
       fbc = Ok pl ->
  fst (Videos.main rng Random randbelow h a w)
  = Ok (mk_counts (planned "train" pl) (planned "val" pl) (planned "test" pl)).
Proof.
  intros D Ht Hg Hp. unfold Videos.main. rewrite Ht.
  unfold bindM at 1, lift. rewrite Hg.
  unfold bindM at 1, print at 1, emit. unfold bindM at 1.
  unfold Videos.ffmpeg_available, try_except, bindM at 1, emit, raise, ret.
  change counts0 with (mk_counts 0 0 0).
  destruct (ffmpeg_probe h); cbn [is_Exception].
  - unfold bindM at 1, print at 1, emit. unfold bindM at 1.
    rewrite (dry_classes _ _ (fun label files tr va te x y z w H =>
               videos_place_class_dry h a _ _ label files tr va te x y z w D H) fbc pl)
      by exact Hp.
    reflexivity.
  - unfold bindM at 1, print at 1, emit. unfold bindM at 1.
    rewrite (dry_classes _ _ (fun label files tr va te x y z w H =>
               videos_place_class_dry h a _ _ label files tr va te x y z w D H) fbc pl)
      by exact Hp.
    reflexivity.
Qed.
End DryRun.

(** C8.  With [--dry_run], in both scripts, a run creates no file or
    directory and starts no transform: it only prints and, for videos,
    probes ffmpeg; this holds however the run ends.  Once the source tree is
    collected, the plan of the run (every class, split and item of the three
    nested loops) has one entry per collected item, and the run ends with
    the counter of each split at the number of plan entries for that
    split. *)
Theorem dry_run_counts_and_touches_nothing {rng} (Random : Z -> rng)
    (randbelow : nat -> rng -> nat * rng) h (ai : Images.args) (av : Videos.args) w :
  Images.dry_run ai = true -> Videos.dry_run av = true ->
  untouched w (snd (Images.main rng Random randbelow h ai w))
  /\ untouched w (snd (Videos.main rng Random randbelow h av w))
  /\ (forall t fbi fbv,
        randbelow_in_range randbelow ->
        src_tree h = Some t ->
        Images.gather_image_files (parse (Images.src_root ai)) t = Ok fbi ->
        Videos.gather_video_files (parse (Videos.src_root av)) t = Ok fbv ->
        Forall (fun kv => Z.of_nat (length (snd kv)) <= PY_SSIZE_T_MAX) (fbi ++ fbv) ->
        exists pli plv,
          plan (fun l => Images.split_list rng Random randbelow l [f0_7; f0_2; f0_1]
                           (Images.seed ai)) fbi = Ok pli
          /\ plan (fun l => Videos.split_list rng Random randbelow l [f0_7; f0_2; f0_1]
                              (Videos.seed av)) fbv = Ok plv
          /\ length pli = total_items fbi /\ length plv = total_items fbv
          /\ fst (Images.main rng Random randbelow h ai w)
              = Ok (mk_counts (planned "train" pli) (planned "val" pli)
                              (planned "test" pli))
          /\ fst (Videos.main rng Random randbelow h av w)
              = Ok (mk_counts (planned "train" plv) (planned "val" plv)
                              (planned "test" plv))).
Proof.
  intros Di Dv.
  split; [by apply images_main_dry_untouched|].
  split; [by apply videos_main_dry_untouched|].
  intros t fbi fbv Hr Ht Hgi Hgv Hn. apply Forall_app in Hn as [Hni Hnv].
  destruct (plan_total
              (fun l => Images.split_list rng Random randbelow l [f0_7; f0_2; f0_1]
                          (Images.seed ai)) fbi) as (pli & Hpi & Hli).
  { eapply Forall_impl; [exact Hni|]. intros kv Hkv. cbn beta in *.
    rewrite images_split_list_eq. by apply videos_split_list_partition. }
  destruct (plan_total
              (fun l => Videos.split_list rng Random randbelow l [f0_7; f0_2; f0_1]
                          (Videos.seed av)) fbv) as (plv & Hpv & Hlv).
  { eapply Forall_impl; [exact Hnv|]. intros kv Hkv. cbn beta in *.
    by apply videos_split_list_partition. }
  exists pli, plv.
  split; [done|]. split; [done|]. split; [done|]. split; [done|].
  split; [by eapply images_main_dry_counts|by eapply videos_main_dry_counts].
Qed.

(** ** The backend, item by item *)

Section Prefix.
Context {X : Type}.
Variable f : event -> option X.
Variable g : Path -> X.
Variable body : string -> string -> Path -> gmap string nat -> M (gmap string nat).
(** A loop body that leaves one mark for its item, unless an exception ends
    it before. *)
Hypothesis body_marks :
  forall label s src c w,
    omap f (trace (snd (body label s src c w))) = omap f (trace w) ++ [g src]
    \/ (omap f (trace (snd (body label s src c w))) = omap f (trace w)
        /\ exists e, fst (body label s src c w) = Raise e).

Lemma items_prefix label s items :
  forall c w,
  exists k,
    (k <= length items)%nat
    /\ omap f (trace (snd (for_each items (body label s) c w)))
       = omap f (trace w) ++ map g (take k items)
    /\ (forall c', fst (for_each items (body label s) c w) = Ok c' -> k = length items).
Proof.
  induction items as [|src items IH]; intros c w; cbn [for_each].
  - exists O. cbn. by rewrite app_nil_r.
  - unfold bindM. pose proof (body_marks label s src c w) as Hb.
    destruct (body label s src c w) as [[c1|e] w1]; cbn [fst snd] in *.
    + destruct Hb as [Hb|[_ [e He]]]; [|done].
      destruct (IH c1 w1) as (k & Hk & Hm & Hr).
      exists (S k). cbn [length take map]. split; [lia|]. split.
      * rewrite Hm, Hb, <- app_assoc. done.
      * intros c' Hc. by rewrite (Hr c' Hc).
    + destruct Hb as [Hb|[Hb _]].
      * exists 1%nat. cbn [length take map]. split; [lia|]. rewrite take_0. done.
      * exists O. cbn [length take map]. split; [lia|]. by rewrite app_nil_r.
Qed.

Lemma mapping_prefix label (mapping : list (string * list Path)) :
  forall c w,
  let run := for_each mapping
               (fun '(split_name, items) => for_each items (body label split_name)) c w in
  exists k,
    (k <= length (concat (map snd mapping)))%nat
    /\ omap f (trace (snd run))
       = omap f (trace w) ++ map g (take k (concat (map snd mapping)))
    /\ (forall c', fst run = Ok c' -> k = length (concat (map snd mapping))).
Proof.
  induction mapping as [|[s items] mapping IH]; intros c w; cbn [for_each map concat snd].
  - exists O. cbn. by rewrite app_nil_r.
  - cbv zeta. unfold bindM.
    destruct (items_prefix label s items c w) as (k1 & Hk1 & Hm1 & Hr1).
    destruct (for_each items (body label s) c w) as [[c1|e] w1]; cbn [fst snd] in *.
    + specialize (Hr1 c1 eq_refl). subst k1.
      destruct (IH c1 w1) as (k2 & Hk2 & Hm2 & Hr2). cbv zeta in *.
      exists (length items + k2)%nat. rewrite length_app. split; [lia|]. split.
      * rewrite Hm2, Hm1, take_app_add, take_ge by lia.
        by rewrite !map_app, <- !app_assoc.
      * intros c' Hc. by rewrite (Hr2 c' Hc).
    + exists k1. rewrite length_app. split; [lia|]. split; [|done].
      by rewrite Hm1, take_app_le.
Qed.

Lemma classes_prefix
    (split : list Path -> result (list Path * list Path * list Path))
    (pc : string * list Path -> gmap string nat -> M (gmap string nat)) :
  (forall label files counts,
     pc (label, files) counts
     = (let* s := lift (split files) in
        let '(tr, va, te) := s in
        for_each [("train", tr); ("val", va); ("test", te)]
          (fun '(split_name, items) => for_each items (body label split_name))
          counts)) ->
  forall fbc pl c w,
    plan split fbc = Ok pl ->
    exists k,
      (k <= length pl)%nat
      /\ omap f (trace (snd (for_each fbc pc c w)))
         = omap f (trace w) ++ map g (take k (map snd pl))
      /\ (forall c', fst (for_each fbc pc c w) = Ok c' -> k = length pl).
Proof.
  intros Hpc. induction fbc as [|[label files] fbc IH]; intros pl c w.
  - cbn [for_each plan]. intros [= <-]. exists O. cbn. by rewrite app_nil_r.
  - cbn [for_each plan]. unfold plan_class. cbn [fst snd].
    destruct (split files) as [[[tr va] te]|e] eqn:Hs; [|done].
    cbn [mbind result_bind Py.bind].
    destruct (plan split fbc) as [ps|e] eqn:Hp; [|done].
    cbn [mbind result_bind Py.bind]. intros [= <-].
    assert (Hrun : bindM (pc (label, files) c) (for_each fbc pc) w
                   = match for_each [("train", tr); ("val", va); ("test", te)]
                             (fun '(split_name, items) =>
                                for_each items (body label split_name)) c w with
                     | (Ok c1, w1) => for_each fbc pc c1 w1
                     | (Raise e, w1) => (Raise e, w1)
                     end).
    { unfold bindM at 1. rewrite Hpc. unfold bindM at 1, lift. by rewrite Hs. }
    rewrite Hrun. clear Hrun.
    destruct (mapping_prefix label [("train", tr); ("val", va); ("test", te)] c w)
      as (k1 & Hk1 & Hm1 & Hr1). cbv zeta in *.
    cbn [map snd concat] in Hk1, Hm1, Hr1. rewrite app_nil_r in Hk1, Hm1, Hr1.
    assert (Hsnd : map snd (map (fun p : Path => (label, "train", p)) tr
                            ++ map (fun p : Path => (label, "val", p)) va
                            ++ map (fun p : Path => (label, "test", p)) te ++ ps)
                   = (tr ++ va ++ te) ++ map snd ps).
    { rewrite !map_app, !map_map. cbn [snd]. rewrite !map_id. by rewrite <- !app_assoc. }
    rewrite <- !app_assoc, Hsnd.
    assert (Hlen : length (map (fun p : Path => (label, "train", p)) tr
                           ++ map (fun p : Path => (label, "val", p)) va
                           ++ map (fun p : Path => (label, "test", p)) te ++ ps)
                   = (length (tr ++ va ++ te) + length ps)%nat).
    { rewrite !length_app, !length_map. lia. }
    rewrite Hlen.
    destruct (for_each [("train", tr); ("val", va); ("test", te)] _ c w) as [[c1|e] w1];
      cbn [fst snd] in *.
    + specialize (Hr1 c1 eq_refl). subst k1.
      destruct (IH ps c1 w1 eq_refl) as (k2 & Hk2 & Hm2 & Hr2).
      exists (length (tr ++ va ++ te) + k2)%nat. split; [lia|]. split.
      * rewrite Hm2, Hm1, take_app_add, take_ge by lia.
        by rewrite !map_app, <- !app_assoc.
      * intros c' Hc. by rewrite (Hr2 c' Hc).
    + exists k1. split; [lia|]. split; [|done].
      by rewrite Hm1, (take_app_le (tr ++ va ++ te)).
Qed.
End Prefix.

(** Nothing but console output and the probe between the items. *)
Lemma mkdir_p_world h d w :
  mkdir_p h d w
  = if mkdir_blocked h w d
    then (Raise OSError, mkWorld (fs_dirs w) (fs_files w) (trace w ++ [Mkdir d]))
    else (Ok tt, mkWorld (list_union (fs_dirs w) (ancestors_or_self d)) (fs_files w)
                   (trace w ++ [Mkdir d])).
Proof. reflexivity. Qed.

(** The frames of a video: none, or the first one raises. *)
Lemma frames_run h src frames w :
  for_each frames (Videos.compose_frame h src) tt w
  = match frames with
    | [] => (Ok tt, w)
    | fr :: _ =>
        (Raise (if cv2_resize_fails h fr then Cv2Error else NameError "np"),
         mkWorld (fs_dirs w) (fs_files w) (trace w ++ [FrameRead src]))
    end.
Proof.
  destruct frames as [|fr frames]; [done|].
  cbn [for_each]. unfold bindM at 1, Videos.compose_frame, bindM at 1, emit.
  unfold bindM at 1. by destruct (cv2_resize_fails h fr).
Qed.

Lemma videos_place_ffmpeg_marks h a out label s src c w :
  Videos.dry_run a = false ->
  encoded (trace (snd (Videos.place h a out true label s src c w)))
    = encoded (trace w) ++ [src]
  \/ (encoded (trace (snd (Videos.place h a out true label s src c w)))
        = encoded (trace w)
      /\ exists e, fst (Videos.place h a out true label s src c w) = Raise e).
Proof.
  intros Hd. destruct (Videos.place h a out true label s src c w) as [r w'] eqn:E.
  cbn [fst snd]. revert E. unfold Videos.place, bindM at 1, lift.
  destruct (incr c s) as [c1|e]; [|intros [= <- <-]; right; split; [done|by eexists]].
  rewrite Hd.
  unfold bindM at 1, bindM at 1, Videos.reencode_with_ffmpeg, bindM at 1.
  rewrite mkdir_p_world. destruct (mkdir_blocked h w _).
  - intros [= <- <-]. right. cbn [trace]. unfold encoded. rewrite omap_app. cbn.
    rewrite app_nil_r. split; [done|by eexists].
  - unfold try_except, bindM, emit, write_file, print, emit, raise, ret.
    cbn [fs_files fs_dirs trace].
    destruct (ffmpeg_encode h src) as [|status wrote]; cbn [is_CalledProcessError].
    + intros [= <- <-]. left. cbn [trace]. unfold encoded. rewrite !omap_app. cbn.
      by rewrite !app_nil_r.
    + destruct wrote, (status =? 0);
        cbn [is_CalledProcessError negb fs_files fs_dirs trace];
        intros [= <- <-]; left; cbn [trace];
        unfold encoded; rewrite !omap_app; cbn; by rewrite ?app_nil_r.
Qed.

Lemma videos_place_opencv_marks h a out label s src c w :
  Videos.dry_run a = false ->
  let run := Videos.place h a out false label s src c w in
  (cv2_imports (trace (snd run)) = cv2_imports (trace w) ++ [tt]
   /\ (cv2_installed h = true -> captures (trace (snd run)) = captures (trace w) ++ [src]))
  \/ ((cv2_imports (trace (snd run)) = cv2_imports (trace w)
       /\ captures (trace (snd run)) = captures (trace w))
      /\ exists e, fst run = Raise e).
Proof.
  intros Hd. cbv zeta.
  destruct (Videos.place h a out false label s src c w) as [r w'] eqn:E.
  cbn [fst snd]. revert E. unfold Videos.place, bindM at 1, lift.
  destruct (incr c s) as [c1|e]; [|intros [= <- <-]; right; split; [done|by eexists]].
  rewrite Hd. intros E. left. revert E. unfold bindM at 1, bindM at 1.
  unfold Videos.reencode_with_opencv, try_except, bindM at 1, bindM at 1, emit.
  destruct (cv2_installed h); cbn [negb ret raise is_ImportError fst snd].
  - unfold bindM at 1, emit. cbn [fst snd].
    destruct (cv2_frames h src) as [frames|].
    + unfold bindM at 1. rewrite mkdir_p_world. destruct (mkdir_blocked h _ _).
      * intros [= <- <-]. cbn [trace]. unfold cv2_imports, captures.
        rewrite !omap_app. cbn. by rewrite !app_nil_r.
      * unfold bindM at 1, emit. unfold bindM at 1.
        destruct (cv2_writer_opens h _); unfold write_file, ret at 1;
          cbn [fs_files fs_dirs trace]; unfold bindM at 1; rewrite frames_run;
          destruct frames as [|fr frames];
          unfold bindM, ret, print, emit; cbn [negb trace fs_files fs_dirs];
          intros [= <- <-]; cbn [trace];
          unfold cv2_imports, captures; rewrite !omap_app; cbn; by rewrite !app_nil_r.
    + unfold bindM, print, emit, ret. cbn [negb fst snd trace fs_files fs_dirs].
      intros [= <- <-]. cbn [trace].
      unfold cv2_imports, captures. rewrite !omap_app. cbn. by rewrite !app_nil_r.
  - unfold bindM, print, emit, ret. cbn [negb fst snd trace fs_files fs_dirs].
    intros [= <- <-]. cbn [trace].
    unfold cv2_imports, captures. rewrite !omap_app. cbn. by rewrite !app_nil_r.
Qed.

(** Console output and the probe are no work of a backend. *)
Lemma quiet_no_backend (t : list event) :
  forallb quiet t = true ->
  omap (fun e => match e with
                 | Run (FfmpegEncode src _ _ _ _) => Some src
                 | _ => None
                 end) t = []
  /\ omap (fun e => match e with VideoCapture src => Some src | _ => None end) t = []
  /\ omap (fun e => match e with ImportCv2 => Some tt | _ => None end) t = [].
Proof.
  induction t as [|e t IH]; [done|]. cbn [forallb]. intros [He Ht]%andb_prop.
  destruct (IH Ht) as (E1 & E2 & E3).
  destruct e as [m|[|? ? ? ? ?]| | | | | | |]; try discriminate He;
    cbn; by rewrite ?E1, ?E2, ?E3.
Qed.

Section BackendOfARun.
Context {rng : Type} (Random : Z -> rng) (randbelow : nat -> rng -> nat * rng).

Lemma videos_main_prefix {X} (f : event -> option X) (g : Path -> X)
    h (a : Videos.args) w t fbc pl :
  (forall m, f (Print m) = None) -> f (Run FfmpegVersion) = None ->
  (forall label s src c w,
     let run := Videos.place h a (parse (Videos.output_root a)) (ffmpeg_started h)
                  label s src c w in
     omap f (trace (snd run)) = omap f (trace w) ++ [g src]
     \/ (omap f (trace (snd run)) = omap f (trace w) /\ exists e, fst run = Raise e)) ->
  src_tree h = Some t ->
  Videos.gather_video_files (parse (Videos.src_root a)) t = Ok fbc ->
  plan (fun l => Videos.split_list rng Random randbelow l [f0_7; f0_2; f0_1]
                   (Videos.seed a)) fbc = Ok pl ->
  exists k,
    (k <= length pl)%nat
    /\ omap f (trace (snd (Videos.main rng Random randbelow h a w)))
       = omap f (trace w) ++ map g (take k (map snd pl))
    /\ (forall c, fst (Videos.main rng Random randbelow h a w) = Ok c -> k = length pl).
Proof.
  intros Hprint Hprobe Hbody Ht Hg Hp.
  destruct (Videos.main rng Random randbelow h a w) as [r wf] eqn:E.
  cbn [fst snd]. revert E. unfold Videos.main. rewrite Ht.
  unfold bindM at 1, lift. rewrite Hg.
  unfold bindM at 1, print at 1, emit. unfold bindM at 1.
  set (w1 := mkWorld _ _ _).
  assert (Ha : Videos.ffmpeg_available h w1
               = (Ok (ffmpeg_started h),
                  mkWorld (fs_dirs w1) (fs_files w1) (trace w1 ++ [Run FfmpegVersion]))).
  { unfold Videos.ffmpeg_available, ffmpeg_started, try_except, bindM, emit, raise, ret.
    by destruct (ffmpeg_probe h). }
  rewrite Ha. unfold bindM at 1, print at 1, emit. unfold bindM at 1.
  set (w2 := mkWorld _ _ _).
  assert (Hw2 : omap f (trace w2) = omap f (trace w)).
  { subst w2 w1. cbn [trace]. rewrite !omap_app. cbn.
    rewrite !Hprint, Hprobe. by rewrite !app_nil_r. }
  intros E. destruct (classes_prefix f g
              (fun label s => Videos.place h a (parse (Videos.output_root a))
                                (ffmpeg_started h) label s)
              Hbody
              (fun l => Videos.split_list rng Random randbelow l [f0_7; f0_2; f0_1]
                          (Videos.seed a))
              (Videos.place_class rng Random randbelow h a (parse (Videos.output_root a))
                 (ffmpeg_started h))
              ltac:(done) fbc pl counts0 w2 Hp) as (k & Hk & Hm & Hr).
  exists k. split; [done|]. revert E. unfold bindM at 1.
  destruct (for_each fbc _ counts0 w2) as [[c1|e] w3]; cbn [fst snd] in *.
  - unfold bindM, print, emit, ret. cbn [fst snd trace]. intros [= <- <-]. split.
    + cbn [trace]. rewrite omap_app. cbn. rewrite Hprint, app_nil_r, Hm, Hw2. done.
    + intros c _. by apply (Hr c1).
  - intros [= <- <-]. split; [by rewrite Hm, Hw2|]. intros c Hc. discriminate Hc.
Qed.

Lemma selected_backend_every_item h (a : Videos.args) w t fbc pl :
  Videos.dry_run a = false ->
  src_tree h = Some t ->
  Videos.gather_video_files (parse (Videos.src_root a)) t = Ok fbc ->
  plan (fun l => Videos.split_list rng Random randbelow l [f0_7; f0_2; f0_1]
                   (Videos.seed a)) fbc = Ok pl ->
  let run := Videos.main rng Random randbelow h a w in
  exists k,
    (k <= length pl)%nat
    /\ (forall c, fst run = Ok c -> k = length pl)
    /\ if ffmpeg_started h
       then encoded (trace (snd run)) = encoded (trace w) ++ take k (map snd pl)
       else if cv2_installed h
            then captures (trace (snd run)) = captures (trace w) ++ take k (map snd pl)
            else length (cv2_imports (trace (snd run)))
                 = (length (cv2_imports (trace w)) + k)%nat.
Proof.
  intros Hd Ht Hg Hp run. subst run.
  destruct (ffmpeg_started h) eqn:Hb.
  - destruct (videos_main_prefix
                (fun e => match e with
                          | Run (FfmpegEncode src _ _ _ _) => Some src
                          | _ => None
                          end) id h a w t fbc pl) as (k & Hk & Hm & Hr); try done.
    { rewrite Hb. intros label s src c w0. by apply videos_place_ffmpeg_marks. }
    exists k. split; [done|]. split; [done|].
    unfold encoded. by rewrite Hm, map_id.
  - destruct (cv2_installed h) eqn:Hi.
    + destruct (videos_main_prefix
                  (fun e => match e with VideoCapture src => Some src | _ => None end)
                  id h a w t fbc pl) as (k & Hk & Hm & Hr); try done.
      { rewrite Hb. intros label s src c w0. cbv zeta.
        destruct (videos_place_opencv_marks h a (parse (Videos.output_root a))
                    label s src c w0 Hd) as [[_ Hc]|[[_ Hc] He]].
        - left. by apply Hc.
        - by right. }
      exists k. split; [done|]. split; [done|].
      unfold captures. by rewrite Hm, map_id.
    + destruct (videos_main_prefix
                  (fun e => match e with ImportCv2 => Some tt | _ => None end)
                  (fun _ => tt) h a w t fbc pl) as (k & Hk & Hm & Hr); try done.
      { rewrite Hb. intros label s src c w0. cbv zeta.
        destruct (videos_place_opencv_marks h a (parse (Videos.output_root a))
                    label s src c w0 Hd) as [[Hc _]|[[Hc _] He]].
        - by left.
        - by right. }
      exists k. split; [done|]. split; [done|].
      unfold cv2_imports. rewrite Hm, length_app, length_map, length_take, length_map. lia.
Qed.

(** C7.  Whatever the host, the arguments and the generator:
    - the events a run of the video script adds to the trace are console
      output followed, once the source tree is collected, by exactly one
      version probe and then only by events of the backend the probe
      selected: none of the other backend, and no second probe; a run that
      ends before the collection is done probes nothing and starts no
      transform;
    - with [--dry_run] no backend is started for any item;
    - without it, the selected backend is started for the items of the
      plan, one after the other in the order of the three loops, up to the
      item at which an exception ends the run, and for every item of the
      plan when [main] returns: with ffmpeg the encoder is run on each of
      them, with OpenCV each of them is opened (or, where [cv2] is not
      installed, the import is tried once for each of them), whatever the
      backend did with the items before. *)
Theorem backend_fixed_by_one_probe h (a : Videos.args) w :
  let run := Videos.main rng Random randbelow h a w in
  (exists pre post,
     trace (snd run) = trace w ++ pre ++ post
     /\ forallb is_print pre = true
     /\ match src_tree h with
        | Some t =>
            match Videos.gather_video_files (parse (Videos.src_root a)) t with
            | Ok _ =>
                exists post', post = Run FfmpegVersion :: post'
                              /\ forallb (uses (ffmpeg_started h)) post' = true
            | Raise _ => post = []
            end
        | None => post = []
        end)
  /\ (Videos.dry_run a = true ->
      encoded (trace (snd run)) = encoded (trace w)
      /\ captures (trace (snd run)) = captures (trace w)
      /\ cv2_imports (trace (snd run)) = cv2_imports (trace w))
  /\ (Videos.dry_run a = false ->
      forall t fbc pl,
        src_tree h = Some t ->
        Videos.gather_video_files (parse (Videos.src_root a)) t = Ok fbc ->
        plan (fun l => Videos.split_list rng Random randbelow l [f0_7; f0_2; f0_1]
                         (Videos.seed a)) fbc = Ok pl ->
        exists k,
          (k <= length pl)%nat
          /\ (forall c, fst run = Ok c -> k = length pl)
          /\ if ffmpeg_started h
             then encoded (trace (snd run)) = encoded (trace w) ++ take k (map snd pl)
             else if cv2_installed h
                  then captures (trace (snd run))
                       = captures (trace w) ++ take k (map snd pl)
                  else length (cv2_imports (trace (snd run)))
                       = (length (cv2_imports (trace w)) + k)%nat).
Proof.
  cbv zeta. split; [apply one_probe_then_one_backend|]. split.
  - intros Hd.
    destruct (videos_main_dry_untouched Random randbelow h a Hd w)
      as [_ (t & Et & Hq)].
    rewrite Et. unfold encoded, captures, cv2_imports. rewrite !omap_app.
    destruct (quiet_no_backend t Hq) as (-> & -> & ->). by rewrite !app_nil_r.
  - intros Hd t fbc pl Ht Hg Hp. by apply (selected_backend_every_item h a w t fbc pl).
Qed.
End BackendOfARun.

Lemma backend_fixed_by_one_probe_witness :
  let h := Cases.failing_host Scenario.tree_C in
  let run := Videos.main _ MT19937.Random MT19937.randbelow h Cases.args_videos
               Scenario.world0 in
  exists pl k,
    plan (fun l => Videos.split_list _ MT19937.Random MT19937.randbelow l
                     [f0_7; f0_2; f0_1] 42) Scenario.files_C = Ok pl
    /\ length pl = 5%nat
    /\ (k <= length pl)%nat
    /\ (forall c, fst run = Ok c -> k = length pl)
    /\ encoded (trace (snd run)) = take k (map snd pl).
Proof.
  cbv zeta.
  destruct (plan_total
              (fun l => Videos.split_list _ MT19937.Random MT19937.randbelow l
                          [f0_7; f0_2; f0_1] 42) Scenario.files_C)
    as (pl & Hp & Hl).
  { repeat constructor. apply videos_split_list_partition.
    - exact MT_randbelow_in_range.
    - vm_compute. discriminate. }
  destruct (backend_fixed_by_one_probe MT19937.Random MT19937.randbelow
              (Cases.failing_host Scenario.tree_C) Cases.args_videos Scenario.world0)
    as (_ & _ & H).
  destruct (H eq_refl Scenario.tree_C Scenario.files_C pl eq_refl eq_refl Hp)
    as (k & Hk & Hr & He).
  exists pl, k. split; [exact Hp|]. split; [exact Hl|]. split; [exact Hk|].
  split; [exact Hr|]. exact He.
Defined.

(** ** Paths and the collector *)

Lemma split_on_cons c s : exists h t, split_on c s = h :: t.
Proof.
  induction s as [|a s (h & t & E)]; cbn [split_on]; [by eexists _, _|].
  destruct (Ascii.eqb a c); [by eexists _, _|]. rewrite E. by eexists _, _.
Qed.

Lemma no_slash_cons a x : no_slash (String a x) <-> a <> "/"%char /\ no_slash x.
Proof.
  unfold no_slash. cbn [list_ascii_of_string]. split.
  - intros H. split; [apply H; by left|]. intros b Hb. apply H. by right.
  - intros [Ha Hx] b Hb. apply elem_of_cons in Hb as [->|Hb]; [done|by apply Hx].
Qed.

Lemma split_on_no_slash s : Forall no_slash (split_on "/" s).
Proof.
  induction s as [|a s IH]; cbn [split_on].
  - constructor; [|constructor]. intros a Ha. by apply elem_of_nil in Ha.
  - destruct (Ascii.eqb_spec a "/") as [->|Ha].
    + constructor; [|done]. intros b Hb. by apply elem_of_nil in Hb.
    + destruct (split_on_cons "/" s) as (h & t & E). rewrite E in *.
      apply Forall_cons in IH as [Hh Ht]. constructor; [|done].
      by apply no_slash_cons.
Qed.

Lemma split_on_single x : no_slash x -> split_on "/" x = [x].
Proof.
  induction x as [|a x IH]; intros H; cbn [split_on]; [done|].
  apply no_slash_cons in H as [Ha Hx].
  destruct (Ascii.eqb_spec a "/"); [done|]. by rewrite IH.
Qed.

Lemma split_on_app x s :
  no_slash x -> split_on "/" (x +:+ "/" +:+ s) = x :: split_on "/" s.
Proof.
  induction x as [|a x IH]; intros H.
  - reflexivity.
  - apply no_slash_cons in H as [Ha Hx].
    change (String a x +:+ "/" +:+ s) with (String a (x +:+ "/" +:+ s)).
    cbn [split_on]. destruct (Ascii.eqb_spec a "/"); [done|].
    rewrite IH by done. reflexivity.
Qed.

Lemma split_on_join l :
  l <> [] -> Forall no_slash l -> split_on "/" (join "/" l) = l.
Proof.
  induction l as [|x l IH]; intros Hl H; [done|].
  apply Forall_cons in H as [Hx Hl'].
  destruct l as [|y l]; cbn [join].
  - by apply split_on_single.
  - rewrite split_on_app by done. f_equal. by apply IH.
Qed.

Lemma keep_part_ok x : part_ok x -> keep_part x = true.
Proof.
  intros (H1 & H2 & _). unfold keep_part.
  destruct (String.eqb_spec x ""); [done|]. by destruct (String.eqb_spec x ".").
Qed.

Lemma filter_keep_clean l :
  Forall part_ok l -> filter (fun x => keep_part x = true) l = l.
Proof.
  induction 1 as [|x l Hx _ IH]; [done|].
  rewrite filter_cons, decide_True by by apply keep_part_ok. by rewrite IH.
Qed.

Lemma parse_clean s : clean (parse s).
Proof.
  split.
  - cbn [parse root]. unfold parse_root.
    destruct (leading_slashes s) as [|[|[|n]]]; auto.
  - cbn [parse parts]. apply Forall_forall. intros x Hx.
    apply list_elem_of_filter in Hx as [Hk Hx].
    unfold keep_part in Hk. apply andb_true_iff in Hk as [K1 K2].
    split; [|split].
    + intros ->. done.
    + intros ->. done.
    + pose proof (split_on_no_slash s) as F. rewrite Forall_forall in F. by apply F.
Qed.

Lemma leading_slashes_other a r :
  a <> "/"%char -> leading_slashes (String a r) = O.
Proof.
  intros Ha. destruct a as [b0 b1 b2 b3 b4 b5 b6 b7].
  destruct b0, b1, b2, b3, b4, b5, b6, b7; try reflexivity. done.
Qed.

Lemma leading_slashes_slash r :
  leading_slashes (String "/" r) = S (leading_slashes r).
Proof. reflexivity. Qed.

Lemma leading_slashes_join l :
  Forall part_ok l -> leading_slashes (join "/" l) = O.
Proof.
  intros H. destruct H as [|x l (Hne & _ & Hs) _]; [done|].
  destruct x as [|a x]; [done|]. apply no_slash_cons in Hs as [Ha _].
  destruct l; cbn [join String.append]; by apply leading_slashes_other.
Qed.

Lemma parts_parse_join l :
  Forall part_ok l ->
  filter (fun x => keep_part x = true) (split_on "/" (join "/" l)) = l.
Proof.
  intros H. destruct (decide (l = [])) as [->|Hl]; [reflexivity|].
  rewrite split_on_join; [by apply filter_keep_clean|done|].
  eapply Forall_impl; [exact H|]. by intros x (_ & _ & ?).
Qed.

Lemma str_parse p : clean p -> parse (str p) = p.
Proof.
  destruct p as [r l]. intros [Hr Hl]. cbn [root parts] in *.
  unfold str. cbn [root parts].
  pose proof (leading_slashes_join l Hl) as L0.
  pose proof (parts_parse_join l Hl) as P.
  destruct Hr as [-> | [-> | ->] ].
  - destruct l as [|x l]; [reflexivity|].
    change ("" +:+ join "/" (x :: l)) with (join "/" (x :: l)).
    unfold parse, parse_root. rewrite L0, P. reflexivity.
  - unfold parse, parse_root.
    change ("/" +:+ join "/" l) with (String "/" (join "/" l)).
    cbn [leading_slashes split_on]. rewrite L0.
    change (Ascii.eqb "/" "/") with true. cbn iota.
    rewrite filter_cons, decide_False by done. rewrite P. reflexivity.
  - unfold parse, parse_root.
    change ("//" +:+ join "/" l) with (String "/" (String "/" (join "/" l))).
    cbn [leading_slashes split_on]. rewrite L0.
    change (Ascii.eqb "/" "/") with true. cbn iota.
    rewrite !filter_cons, !decide_False by done. rewrite P. reflexivity.
Qed.

Lemma split_on_sep x s :
  split_on "/" (x +:+ String "/" s) = split_on "/" x ++ split_on "/" s.
Proof.
  induction x as [|a x IH].
  - reflexivity.
  - change (String a x +:+ String "/" s) with (String a (x +:+ String "/" s)).
    cbn [split_on]. rewrite IH.
    destruct (Ascii.eqb a "/"); [reflexivity|].
    destruct (split_on_cons "/" x) as (h & t & ->). reflexivity.
Qed.

Lemma parse_name d : part_ok d -> parse d = mkPath "" [d].
Proof.
  intros (Hne & Hdot & Hs). unfold parse, parse_root.
  rewrite split_on_single by done.
  rewrite filter_cons, decide_True by (by apply keep_part_ok).
  destruct d as [|a d]; [done|]. apply no_slash_cons in Hs as [Ha _].
  by rewrite leading_slashes_other.
Qed.

Lemma leading_slashes_app_0 a x :
  leading_slashes x = O -> leading_slashes (a +:+ x) = leading_slashes a.
Proof.
  intros Hx. induction a as [|c a IH]; [done|].
  change (String c a +:+ x) with (String c (a +:+ x)).
  destruct (ascii_dec c "/") as [->|Hc].
  - by rewrite !leading_slashes_slash, IH.
  - by rewrite !leading_slashes_other.
Qed.

Lemma leading_slashes_app_last a c x :
  c <> "/"%char ->
  leading_slashes ((a +:+ String c "") +:+ x) = leading_slashes (a +:+ String c "").
Proof.
  intros Hc. induction a as [|d a IH].
  - change (("" +:+ String c "") +:+ x) with (String c x).
    change ("" +:+ String c "") with (String c "").
    by rewrite !leading_slashes_other.
  - change ((String d a +:+ String c "") +:+ x)
      with (String d ((a +:+ String c "") +:+ x)).
    change (String d a +:+ String c "") with (String d (a +:+ String c "")).
    destruct (ascii_dec d "/") as [->|Hd].
    + by rewrite !leading_slashes_slash, IH.
    + by rewrite !leading_slashes_other.
Qed.

Lemma string_last a :
  a <> "" -> exists a', a = a' +:+ String (List.last (list_ascii_of_string a) "x"%char) "".
Proof.
  induction a as [|c a IH]; [done|]. intros _.
  destruct a as [|d a].
  - by exists "".
  - destruct IH as (a' & E); [done|]. exists (String c a').
    change (list_ascii_of_string (String c (String d a)))
      with (c :: list_ascii_of_string (String d a)).
    change (List.last (c :: list_ascii_of_string (String d a)) "x"%char)
      with (List.last (list_ascii_of_string (String d a)) "x"%char).
    change (String c a' +:+ ?t) with (String c (a' +:+ t)). by rewrite <- E.
Qed.

Lemma append_assoc (a b c : string) : (a +:+ b) +:+ c = a +:+ (b +:+ c).
Proof.
  induction a as [|x a IH]; [done|].
  change ((String x a +:+ b) +:+ c) with (String x ((a +:+ b) +:+ c)).
  change (String x a +:+ (b +:+ c)) with (String x (a +:+ (b +:+ c))).
  by rewrite IH.
Qed.

Lemma prefix_slash_false d : part_ok d -> String.prefix "/" d = false.
Proof.
  intros (Hne & _ & Hs). destruct d as [|a d]; [done|].
  apply no_slash_cons in Hs as [Ha _]. cbn [String.prefix].
  destruct (ascii_dec "/" a) as [<-|]; done.
Qed.

Lemma leading_slashes_name d : part_ok d -> leading_slashes d = O.
Proof.
  intros (Hne & _ & Hs). destruct d as [|a d]; [done|].
  apply no_slash_cons in Hs as [Ha _]. by apply leading_slashes_other.
Qed.

(** [Path(os.path.join(a, d))] is [Path(a) / d]. *)
Lemma parse_path_join a d :
  part_ok d ->
  parse (OS.path_join a d) = mkPath (root (parse a)) (parts (parse a) ++ [d]).
Proof.
  intros Hd. pose proof (leading_slashes_name d Hd) as L0.
  assert (Hsd : split_on "/" d = [d]) by (apply split_on_single; apply Hd).
  assert (Hk : keep_part d = true) by by apply keep_part_ok.
  unfold OS.path_join. rewrite prefix_slash_false by done.
  destruct (String.eqb_spec a "") as [->|Ha].
  { rewrite parse_name by done. reflexivity. }
  destruct (string_last a Ha) as (a' & Ea).
  set (c := List.last (list_ascii_of_string a) "x"%char) in *.
  destruct (Ascii.eqb_spec c "/") as [Ec|Nc].
  - unfold parse. cbn [root parts]. f_equal.
    + unfold parse_root. by rewrite leading_slashes_app_0.
    + rewrite Ea, Ec, append_assoc.
      change (String "/" "" +:+ d) with (String "/" d).
      rewrite !split_on_sep, !filter_app, Hsd.
      cbn [split_on]. rewrite !filter_cons, decide_True, decide_False by done.
      by rewrite app_nil_r.
  - unfold parse. cbn [root parts]. f_equal.
    + unfold parse_root. rewrite Ea. by rewrite leading_slashes_app_last.
    + change (a +:+ "/" +:+ d) with (a +:+ String "/" d).
      rewrite split_on_sep, filter_app, Hsd.
      by rewrite filter_cons, decide_True by done.
Qed.

Lemma tree_ok_Dir files subs :
  OS.tree_ok (OS.Dir files subs) <-> Forall (fun d => part_ok (fst d) /\ OS.tree_ok (snd d)) subs.
Proof.
  cbn [OS.tree_ok]. induction subs as [|d subs IH].
  - split; [constructor|done].
  - split.
    + intros (H1 & H2 & H3). constructor; [done|]. by apply IH.
    + intros H. apply Forall_cons in H as [[H1 H2] H3]. split; [done|]. split; [done|].
      by apply IH.
Qed.

Lemma tree_induction (P : OS.tree -> Prop) :
  (forall files subs, Forall (fun d => P (snd d)) subs -> P (OS.Dir files subs)) ->
  forall t, P t.
Proof.
  intros H. fix IH 1. intros [files subs]. apply H.
  induction subs as [|[n t] subs IHs]; constructor; [apply IH|exact IHs].
Qed.

(** The walk below [top]: its first entry is [top] itself, the others lie
    strictly below. *)
Lemma walk_below t :
  forall top r ps,
    OS.tree_ok t -> parse top = mkPath r ps ->
    exists dirs files rest,
      OS.walk top t = (top, dirs, files) :: rest
      /\ Forall (fun e => exists more,
                   more <> [] /\ Forall part_ok more
                   /\ parse (fst (fst e)) = mkPath r (ps ++ more)) rest.
Proof.
  induction t as [files subs IH] using tree_induction. intros top r ps Hok Hp.
  apply tree_ok_Dir in Hok. cbn [OS.walk]. eexists _, _, _. split; [reflexivity|].
  induction subs as [|[n t] subs IHs]; [constructor|].
  apply Forall_cons in IH as [IHt IH]. apply Forall_cons in Hok as [[Hn Ht] Hok].
  cbn [flat_map fst snd] in *. apply Forall_app. split; [|by apply IHs].
  destruct (IHt (OS.path_join top n) r (ps ++ [n]) Ht) as (dirs & fs & rest & -> & Hr).
  { rewrite parse_path_join by done. by rewrite Hp. }
  constructor.
  - exists [n]. cbn [fst]. split; [done|]. split; [by constructor|].
    rewrite parse_path_join by done. by rewrite Hp.
  - eapply Forall_impl; [exact Hr|]. intros e (more & Hne & Hm & He).
    exists (n :: more). split; [done|]. split; [by constructor|].
    rewrite He. by rewrite <- app_assoc.
Qed.

Lemma replace_backslash_dot s : replace_backslash s = "." -> s = ".".
Proof.
  destruct s as [|a s]; [done|]. cbn [replace_backslash].
  destruct (Ascii.eqb_spec a "\"); [done|].
  destruct s; [|done]. cbn [replace_backslash]. by intros [= ->].
Qed.

Lemma join_not_dot more :
  more <> [] -> Forall part_ok more -> join "/" more <> ".".
Proof.
  intros Hne H. destruct H as [|x l (Hx & Hd & _) Hl]; [done|].
  destruct l as [|y l]; cbn [join]; [done|].
  destruct x as [|a x]; [done|]. destruct x as [|b x].
  - change (String a "" +:+ "/" +:+ join "/" (y :: l))
      with (String a (String "/" (join "/" (y :: l)))). done.
  - change (String a (String b x) +:+ "/" +:+ join "/" (y :: l))
      with (String a (String b (x +:+ "/" +:+ join "/" (y :: l)))). done.
Qed.

Lemma label_below_not_dot more :
  more <> [] -> Forall part_ok more ->
  replace_backslash (str (mkPath "" more)) <> ".".
Proof.
  intros Hne H E. apply replace_backslash_dot in E.
  unfold str in E. cbn [root parts] in E. destruct more as [|x l]; [done|].
  change ("" +:+ join "/" (x :: l)) with (join "/" (x :: l)) in E.
  by apply (join_not_dot (x :: l)).
Qed.

Lemma setdefault_extend_dot_first media label new d :
  label <> "." -> dot_first media d -> dot_first media (setdefault_extend label new d).
Proof.
  intros Hl (rest & -> & Hr). unfold setdefault_extend.
  destruct (existsb _ _).
  - cbn [map fst snd]. destruct (String.eqb_spec "." label) as [E|_]; [by symmetry in E|].
    eexists. split; [reflexivity|].
    apply Forall_fmap. eapply Forall_impl; [exact Hr|]. intros kv Hkv. cbn.
    by destruct (String.eqb (fst kv) label).
  - exists (rest ++ [(label, new)]). split; [done|].
    apply Forall_app. split; [done|]. by constructor.
Qed.

Lemma relative_to_below r ps more :
  relative_to (mkPath r (ps ++ more)) (mkPath r ps) = Ok (mkPath "" more).
Proof.
  unfold relative_to. cbn [root parts].
  rewrite bool_decide_true.
  - by rewrite drop_app_length.
  - split; [done|]. by rewrite take_app_length.
Qed.

Lemma gather_image_files_eq src_root t :
  Images.gather_image_files src_root t = gather Images.is_image_file src_root t.
Proof. reflexivity. Qed.

Lemma gather_video_files_eq src_root t :
  Videos.gather_video_files src_root t = gather Videos.is_video_file src_root t.
Proof. reflexivity. Qed.

Section Gather.
Variable is_media : Path -> bool.

Lemma gather_step_root s dirs files d :
  gather_step is_media (parse s) d (str (parse s), dirs, files)
  = match filter (fun q => is_media q = true) (map (div (parse s)) files) with
    | [] => Ok d
    | m => Ok (setdefault_extend "." m d)
    end.
Proof.
  unfold gather_step. rewrite str_parse by apply parse_clean.
  destruct (filter _ _) as [|q m]; [done|].
  destruct (parse s) as [r ps] eqn:E.
  pose proof (relative_to_below r ps []) as R. rewrite app_nil_r in R. rewrite R.
  reflexivity.
Qed.

Lemma gather_step_below s media d e :
  dot_first media d ->
  (exists more, more <> [] /\ Forall part_ok more
     /\ parse (fst (fst e)) = mkPath (root (parse s)) (parts (parse s) ++ more)) ->
  exists d', gather_step is_media (parse s) d e = Ok d' /\ dot_first media d'.
Proof.
  intros Hd (more & Hne & Hm & He). destruct e as [[top dirs] files]. cbn [fst] in He.
  unfold gather_step. rewrite He.
  destruct (filter _ _) as [|q m]; [by exists d|].
  destruct (parse s) as [r ps]. cbn [root parts].
  rewrite relative_to_below. cbn [mbind result_bind Py.bind].
  eexists. split; [reflexivity|].
  apply setdefault_extend_dot_first; [|done]. by apply label_below_not_dot.
Qed.

Lemma gather_fold_below s media entries d :
  dot_first media d ->
  Forall (fun e => exists more, more <> [] /\ Forall part_ok more
            /\ parse (fst (fst e)) = mkPath (root (parse s)) (parts (parse s) ++ more))
         entries ->
  exists d',
    foldl (fun acc entry => d ← acc; gather_step is_media (parse s) d entry)
          (Ok d) entries = Ok d'
    /\ dot_first media d'.
Proof.
  intros Hd H. revert d Hd. induction H as [|e entries He _ IH]; intros d Hd.
  - by exists d.
  - cbn [foldl mbind result_bind Py.bind].
    destruct (gather_step_below s media d e Hd He) as (d1 & -> & H1).
    by apply IH.
Qed.

Lemma gather_root_class s files subs :
  OS.tree_ok (OS.Dir files subs) ->
  let media := filter (fun q => is_media q = true) (map (div (parse s)) files) in
  media <> [] ->
  exists rest,
    gather is_media (parse s) (OS.Dir files subs) = Ok ((".", media) :: rest)
    /\ Forall (fun kv => fst kv <> ".") rest.
Proof.
  intros Hok media Hm. unfold gather.
  destruct (walk_below (OS.Dir files subs) (str (parse s))
              (root (parse s)) (parts (parse s)) Hok)
    as (dirs & fs & rest & E & Hr).
  { rewrite str_parse by apply parse_clean. by destruct (parse s). }
  rewrite E. cbn [OS.walk] in E. injection E as <- <- <-.
  cbn [foldl mbind result_bind Py.bind].
  rewrite gather_step_root. fold media.
  destruct media as [|q m] eqn:Em; [done|].
  destruct (gather_fold_below s (q :: m) (flat_map
              (fun d => OS.walk (OS.path_join (str (parse s)) (fst d)) (snd d)) subs)
              (setdefault_extend "." (q :: m) [])) as (d' & -> & rest' & -> & Hd').
  - exists []. split; [reflexivity|constructor].
  - exact Hr.
  - by exists rest'.
Qed.
End Gather.

Lemma dst_path_of_dot out split kind src_path :
  dst_path_of out split kind "." src_path = out // split // kind // name src_path
  /\ out // split // kind // "." // name src_path = out // split // kind // name src_path.
Proof.
  split.
  - unfold dst_path_of. f_equal. unfold div, joinpath.
    change (parse ".") with (mkPath "" []). cbn [root parts app].
    destruct (parse (name src_path)) as [r l]. cbn [root parts]. by destruct r.
  - f_equal. unfold div at 1. unfold joinpath.
    change (parse ".") with (mkPath "" []). cbn [root parts]. rewrite app_nil_r.
    by destruct (out // split // kind).
Qed.

Lemma no_slashb_ok x : no_slashb x = true -> no_slash x.
Proof.
  unfold no_slashb, no_slash. intros H a Ha ->.
  rewrite forallb_forall in H. apply list_elem_of_In in Ha. by apply H in Ha.
Qed.

Lemma part_okb_ok x : part_okb x = true -> part_ok x.
Proof.
  unfold part_okb. intros H.
  apply andb_true_iff in H as [H H3]. apply andb_true_iff in H as [H1 H2].
  split; [|split].
  - intros ->. done.
  - intros ->. done.
  - by apply no_slashb_ok.
Qed.

Lemma tree_okb_ok t : OS.tree_okb t = true -> OS.tree_ok t.
Proof.
  induction t as [files subs IH] using tree_induction. intros H.
  apply tree_ok_Dir. cbn [OS.tree_okb] in H. rewrite forallb_forall in H.
  apply Forall_forall. intros d Hd. rewrite Forall_forall in IH.
  specialize (H d ltac:(by apply list_elem_of_In)).
  apply andb_true_iff in H as [H1 H2]. split; [by apply part_okb_ok|by apply IH].
Qed.

Lemma part_ok_Pose : part_ok "Pose".
Proof. by apply part_okb_ok. Qed.

Lemma part_ok_Wrong : part_ok "Wrong".
Proof. by apply part_okb_ok. Qed.

Lemma div_name p d : part_ok d -> p // d = mkPath (root p) (parts p ++ [d]).
Proof. intros H. unfold div. by rewrite parse_name. Qed.

(** The tree of scenario A, for any ten or more files in the class. *)
Lemma gather_one_class (is_media : Path -> bool) s files :
  let media := filter (fun q => is_media q = true)
                      (map (div (parse s // "Pose" // "Wrong")) files) in
  media <> [] ->
  gather is_media (parse s)
    (OS.Dir [] [("Pose", OS.Dir [] [("Wrong", OS.Dir files [])])])
  = Ok [("Pose/Wrong", media)].
Proof.
  intros media Hm. subst media.
  assert (E : parse s // "Pose" // "Wrong"
              = mkPath (root (parse s)) (parts (parse s) ++ ["Pose"; "Wrong"])).
  { rewrite !div_name by (apply part_ok_Pose || apply part_ok_Wrong).
    cbn [root parts]. by rewrite <- app_assoc. }
  rewrite E in *. unfold gather.
  cbn [OS.walk flat_map map fst snd app foldl mbind result_bind Py.bind].
  unfold gather_step at 3. cbn [map filter mbind result_bind Py.bind].
  unfold gather_step at 2. cbn [map filter mbind result_bind Py.bind].
  unfold gather_step.
  rewrite !parse_path_join by (apply part_ok_Pose || apply part_ok_Wrong).
  rewrite str_parse by apply parse_clean.
  cbn [root parts]. rewrite <- app_assoc. cbn [app].
  destruct (filter _ _) as [|q m] eqn:Em; [done|].
  destruct (parse s) as [r ps]. cbn [root parts].
  rewrite relative_to_below. reflexivity.
Qed.

Lemma dst_path_of_class out split kind src_path :
  dst_path_of out split kind "Pose/Wrong" src_path
  = out // split // kind // "Pose" // "Wrong" // name src_path.
Proof.
  unfold dst_path_of. set (X := out // split // kind).
  rewrite (div_name X "Pose") by apply part_ok_Pose.
  rewrite (div_name _ "Wrong") by apply part_ok_Wrong.
  unfold div. change (parse "Pose/Wrong") with (mkPath "" ["Pose"; "Wrong"]).
  destruct (parse (name src_path)) as [r l]. unfold joinpath. cbn [root parts].
  destruct r as [|c r]; cbn [root parts]; [|reflexivity].
  by rewrite <- !app_assoc.
Qed.

(** C9.  For a source tree whose directories have proper names: when files
    of the expected kind lie directly in [src_root], the collector puts
    exactly them, in listing order, under the class label ".", which no other
    directory gets.  For that label the destination of an item is
    [output_root/<split>/<kind>/<filename>], which is also what
    [output_root/<split>/<kind>/./<filename>] denotes. *)
Theorem root_files_get_class_dot (s : string) (files : list string)
    (subs : list (string * OS.tree)) (out : Path) (split kind : string)
    (src_path : Path) :
  OS.tree_okb (OS.Dir files subs) = true ->
  let images := filter (fun q => Images.is_image_file q = true) (map (div (parse s)) files) in
  let videos := filter (fun q => Videos.is_video_file q = true) (map (div (parse s)) files) in
  (images <> [] ->
   exists rest,
     Images.gather_image_files (parse s) (OS.Dir files subs) = Ok ((".", images) :: rest)
     /\ Forall (fun kv => fst kv <> ".") rest)
  /\ (videos <> [] ->
      exists rest,
        Videos.gather_video_files (parse s) (OS.Dir files subs) = Ok ((".", videos) :: rest)
        /\ Forall (fun kv => fst kv <> ".") rest)
  /\ dst_path_of out split kind "." src_path = out // split // kind // name src_path
  /\ out // split // kind // "." // name src_path = out // split // kind // name src_path.
Proof.
  intros Hok images videos. apply tree_okb_ok in Hok.
  split; [|split].
  - intros Hi. rewrite gather_image_files_eq.
    by apply (gather_root_class Images.is_image_file).
  - intros Hv. rewrite gather_video_files_eq.
    by apply (gather_root_class Videos.is_video_file).
  - apply dst_path_of_dot.
Qed.

Lemma root_files_get_class_dot_witness :
  OS.tree_okb Scenario.tree_flat = true
  /\ (exists rest,
        Images.gather_image_files (parse "yoga") Scenario.tree_flat
        = Ok ((".", [parse "yoga/a.jpg"]) :: rest)
        /\ Forall (fun kv => fst kv <> ".") rest)
  /\ (exists rest,
        Videos.gather_video_files (parse "yoga") Scenario.tree_flat
        = Ok ((".", [parse "yoga/v.mp4"]) :: rest)
        /\ Forall (fun kv => fst kv <> ".") rest)
  /\ dst_path_of (parse "out") "train" "images" "." (parse "yoga/a.jpg")
      = parse "out" // "train" // "images" // name (parse "yoga/a.jpg")
  /\ parse "out" // "train" // "images" // "." // name (parse "yoga/a.jpg")
      = parse "out" // "train" // "images" // name (parse "yoga/a.jpg").
Proof.
  pose proof (root_files_get_class_dot "yoga" Scenario.root_files
                [("Pose", OS.Dir ["b.jpg"] [])] (parse "out") "train" "images"
                (parse "yoga/a.jpg") eq_refl) as (Hi & Hv & Hd).
  split; [reflexivity|].
  split; [apply Hi; vm_compute; discriminate|].
  split; [apply Hv; vm_compute; discriminate|].
  exact Hd.
Defined.

(** C3.  Scenario A: one class "Pose/Wrong" of ten images, seed 42.  The
    collector finds the one class, the counts are 7, 2 and 1, and the ten
    files are written under
    [dataset_processed/{train,val,test}/images/Pose/Wrong/].  For any source
    root and any files in that class the collector finds the one class
    "Pose/Wrong"; any ten items are split 7, 2 and 1, for any seed and any
    generator; and for any output root and split the destination of an item
    of the class is [output_root/<split>/images/Pose/Wrong/<filename>]. *)
Theorem scenario_A :
  let run := Images.main _ MT19937.Random MT19937.randbelow
               (Scenario.good_host Scenario.tree_A) Scenario.args_A Scenario.world0 in
  (fst run = Ok (mk_counts 7 2 1)
   /\ map str (fs_files (snd run)) =
        ["dataset_processed/train/images/Pose/Wrong/img7.jpg";
         "dataset_processed/train/images/Pose/Wrong/img3.jpg";
         "dataset_processed/train/images/Pose/Wrong/img2.jpg";
         "dataset_processed/train/images/Pose/Wrong/img8.jpg";
         "dataset_processed/train/images/Pose/Wrong/img5.jpg";
         "dataset_processed/train/images/Pose/Wrong/img6.jpg";
         "dataset_processed/train/images/Pose/Wrong/img9.jpg";
         "dataset_processed/val/images/Pose/Wrong/img4.jpg";
         "dataset_processed/val/images/Pose/Wrong/img0.jpg";
         "dataset_processed/test/images/Pose/Wrong/img1.jpg"])
  /\ (forall s files,
        let images := filter (fun q => Images.is_image_file q = true)
                             (map (div (parse s // "Pose" // "Wrong")) files) in
        images <> [] ->
        Images.gather_image_files (parse s)
          (OS.Dir [] [("Pose", OS.Dir [] [("Wrong", OS.Dir files [])])])
        = Ok [("Pose/Wrong", images)])
  /\ (forall rng (Random : Z -> rng) randbelow A (items : list A) seed,
        randbelow_in_range randbelow -> length items = 10%nat ->
        sizes <$> Images.split_list rng Random randbelow items [f0_7; f0_2; f0_1] seed
        = Ok (7, 2, 1))
  /\ (forall out split src_path,
        dst_path_of out split "images" "Pose/Wrong" src_path
        = out // split // "images" // "Pose" // "Wrong" // name src_path).
Proof.
  split; [vm_compute; split; reflexivity|].
  split; [intros s files images Hi; rewrite gather_image_files_eq;
          by apply gather_one_class|].
  split; [|intros; apply dst_path_of_class].
  intros rng Random randbelow A items seed Hr Hn.
  pose proof (split_list_sizes Random randbelow Hr items seed 7 9) as H.
  rewrite Hn in H. destruct H as [Hi _]; [reflexivity|reflexivity|lia|lia|].
  exact Hi.
Qed.

(** C5.  With the ratios (0.5, 0.3, 0.3) the image script's [split_list]
    fails on its assertion, for any items, seed and generator; the video
    script's [split_list] has no such check: it returns a split for any
    items, here one of 5, 3 and 2 items. *)
Theorem invalid_ratios_only_checked_for_images :
  (forall rng (Random : Z -> rng) randbelow (items : list string) seed,
     Images.split_list rng Random randbelow items Scenario.ratios_E seed
     = Raise AssertionError)
  /\ Videos.split_list _ MT19937.Random MT19937.randbelow
       Scenario.ten_items Scenario.ratios_E 42
     = Ok (["v7"; "v3"; "v2"; "v8"; "v5"], ["v6"; "v9"; "v4"], ["v0"; "v1"])
  /\ (forall rng (Random : Z -> rng) randbelow (items : list string) seed,
        randbelow_in_range randbelow ->
        Z.of_nat (length items) <= PY_SSIZE_T_MAX ->
        exists tr va te,
          Videos.split_list rng Random randbelow items Scenario.ratios_E seed
          = Ok (tr, va, te)).
Proof.
  split; [intros; reflexivity|]. split; [vm_compute; reflexivity|].
  intros rng Random randbelow items seed Hr Hn.
  destruct (videos_split_list_cut Random randbelow Hr items f0_5 f0_3 f0_3 seed
              cut_points_E Hn) as (tr & va & te & E & _).
  by exists tr, va, te.
Qed.

(** C6.  Without ffmpeg and with OpenCV installed, the first video that opens
    and has a frame stops the run: the name [np] is bound nowhere in the
    module, the [NameError] leaves [reencode_with_opencv] and [main], and the
    second video of the batch is never opened.  On any host,
    [reencode_with_opencv] raises on every video that opens and has a frame,
    once the destination directory is there. *)
Theorem opencv_frame_halts_run :
  let run := Videos.main _ MT19937.Random MT19937.randbelow
               (Scenario.opencv_host Scenario.tree_two_videos)
               Scenario.args_videos Scenario.world0 in
  (fst run = Raise (NameError "np")
   /\ map str (captures (trace (snd run))) = ["yoga/videos/Tree/b.mp4"]
   /\ Videos.gather_video_files (parse "yoga/videos") Scenario.tree_two_videos
      = Ok [("Tree", [parse "yoga/videos/Tree/a.mp4"; parse "yoga/videos/Tree/b.mp4"])])
  /\ (forall h src dst fps width height w fr frs,
        cv2_installed h = true ->
        cv2_frames h src = Some (fr :: frs) ->
        mkdir_blocked h w (parent dst) = false ->
        fst (Videos.reencode_with_opencv h src dst fps width height w)
        = Raise (if cv2_resize_fails h fr then Cv2Error else NameError "np")).
Proof.
  split; [vm_compute; repeat split; reflexivity|].
  intros h src dst fps width height w fr frs Hi Hf Hb.
  unfold Videos.reencode_with_opencv, try_except, bindM at 1, bindM at 1, emit.
  rewrite Hi. cbn [ret negb]. unfold bindM at 1. cbn [fst snd]. rewrite Hf.
  unfold bindM at 1, mkdir_p. cbn [fs_files fs_dirs trace].
  unfold mkdir_blocked in Hb. cbn [fs_files] in Hb. rewrite Hb.
  unfold bindM at 1, emit. unfold bindM at 1, write_file, ret.
  unfold bindM at 1. cbn [for_each]. unfold bindM at 1, Videos.compose_frame.
  unfold bindM at 1, emit. unfold bindM at 1.
  destruct (cv2_writer_opens h dst), (cv2_resize_fails h fr); reflexivity.
Qed.

Lemma dry_run_witness :
  Images.dry_run Scenario.args_C_images = true
  /\ Videos.dry_run Scenario.args_C_videos = true
  /\ untouched Scenario.world0
        (snd (Images.main _ MT19937.Random MT19937.randbelow
                (Scenario.good_host Scenario.tree_C) Scenario.args_C_images
                Scenario.world0))
  /\ untouched Scenario.world0
        (snd (Videos.main _ MT19937.Random MT19937.randbelow
                (Scenario.good_host Scenario.tree_C) Scenario.args_C_videos
                Scenario.world0))
  /\ exists pli plv,
      plan (fun l => Images.split_list _ MT19937.Random MT19937.randbelow l
                       [f0_7; f0_2; f0_1] (Images.seed Scenario.args_C_images)) []
        = Ok pli
      /\ plan (fun l => Videos.split_list _ MT19937.Random MT19937.randbelow l
                          [f0_7; f0_2; f0_1] (Videos.seed Scenario.args_C_videos))
            Scenario.files_C = Ok plv
      /\ length pli = total_items [] /\ length plv = total_items Scenario.files_C
      /\ fst (Images.main _ MT19937.Random MT19937.randbelow
                 (Scenario.good_host Scenario.tree_C) Scenario.args_C_images
                 Scenario.world0)
          = Ok (mk_counts (planned "train" pli) (planned "val" pli) (planned "test" pli))
      /\ fst (Videos.main _ MT19937.Random MT19937.randbelow
                 (Scenario.good_host Scenario.tree_C) Scenario.args_C_videos
                 Scenario.world0)
          = Ok (mk_counts (planned "train" plv) (planned "val" plv) (planned "test" plv)).
Proof.
  destruct (dry_run_counts_and_touches_nothing MT19937.Random MT19937.randbelow
              (Scenario.good_host Scenario.tree_C) Scenario.args_C_images
              Scenario.args_C_videos Scenario.world0 eq_refl eq_refl)
    as (Ui & Uv & Hc).
  split; [reflexivity|]. split; [reflexivity|].
  split; [exact Ui|]. split; [exact Uv|].
  apply (Hc Scenario.tree_C [] Scenario.files_C).
  - exact MT_randbelow_in_range.
  - reflexivity.
  - vm_compute; reflexivity.
  - vm_compute; reflexivity.
  - repeat constructor. vm_compute. discriminate.
Defined.

(** ** Split sizes against the exact floors *)

(** The rounding error of [rne]: at most half a unit. *)
Lemma rne_error m k :
  0 <= m -> 0 < k ->
  2 * (rne m k * 2 ^ k - m) <= 2 ^ k /\ 2 * (m - rne m k * 2 ^ k) <= 2 ^ k.
Proof.
  intros Hm Hk. unfold rne.
  assert (P : 0 < 2 ^ k) by lia.
  assert (H2 : 2 ^ k = 2 * 2 ^ (k - 1)).
  { rewrite <- Z.pow_succ_r by lia. f_equal. lia. }
  pose proof (Z.div_mod m (2 ^ k) ltac:(lia)) as E.
  pose proof (Z.mod_pos_bound m (2 ^ k) P) as B.
  set (q := m / 2 ^ k) in *. set (r := m mod 2 ^ k) in *. set (h := 2 ^ (k - 1)) in *.
  set (T := 2 ^ k) in *.
  destruct (Z.ltb_spec r h); [nia|].
  destruct (Z.eqb_spec r h); [destruct (Z.even q); nia|nia].
Qed.

(** The relative error of [round53]: at most [2^-53]. *)
Lemma round53_error p :
  2 ^ 53 * round53 (Z.pos p) <= (2 ^ 53 + 1) * Z.pos p
  /\ (2 ^ 53 - 1) * Z.pos p <= 2 ^ 53 * round53 (Z.pos p).
Proof.
  unfold round53. cbn [Zdigits2].
  pose proof (digits2_bounds p) as [Blo Bhi].
  set (d := Z.pos (digits2_pos p)) in *.
  destruct (Z.leb_spec (d - 53) 0) as [K|K]; [lia|].
  pose proof (rne_error (Z.pos p) (d - 53) ltac:(lia) K) as [E1 E2].
  assert (H : 2 ^ 53 * 2 ^ (d - 53) = 2 * 2 ^ (d - 1)).
  { rewrite <- Z.pow_add_r, <- Z.pow_succ_r by lia. f_equal. lia. }
  set (R := rne (Z.pos p) (d - 53) * 2 ^ (d - 53)) in *.
  set (T := 2 ^ (d - 53)) in *. set (U := 2 ^ (d - 1)) in *.
  assert (0 < T) by (subst T; lia).
  split; nia.
Qed.

(** An int below [2^53] converts without rounding. *)
Lemma float_of_int_exact n :
  0 < n < 2 ^ 53 ->
  exists m e,
    float_of_int n = Ok (S754_finite false m e)
    /\ Z.pos (digits2_pos m) = 53 /\ -52 <= e <= 0 /\ Z.pos m = n * 2 ^ (- e).
Proof.
  intros [Hn Hhi]. destruct n as [|p|p]; try lia.
  pose proof (digits2_bounds p) as [Blo Bhi].
  unfold float_of_int, binary_normalize, binary_round, Binary64.prec, Binary64.emax.
  unfold fexp, emin. set (d := Z.pos (digits2_pos p)) in *.
  assert (1 <= d) by (subst d; lia).
  assert (d <= 53).
  { destruct (Z.le_gt_cases d 53); [done|].
    assert (2 ^ 53 <= 2 ^ (d - 1)) by (apply Z.pow_le_mono_r; lia). lia. }
  replace (Z.max (d + 0 - 53) (3 - 1024 - 53)) with (d - 53) by lia.
  unfold shl_align. rewrite Z.sub_0_r.
  destruct (d - 53) as [|k|k] eqn:Ek; [|lia|].
  - destruct (binary_round_aux_pos p 0) as (m & e' & -> & He & Hv & Hm); fold d; try lia.
    exists m, e'. split; [done|]. split; [done|].
    unfold round53 in Hv. cbn [Zdigits2] in Hv. fold d in Hv. rewrite Ek in Hv.
    cbn [Z.leb Z.compare] in Hv.
    pose proof (digits2_bounds m) as [Mlo Mhi]. rewrite Hm in Mlo, Mhi.
    assert (d = 53) by lia.
    assert (e' = 0).
    { destruct (Z.eq_dec e' 0); [done|]. assert (e' = 1) as -> by lia.
      rewrite Z.sub_0_r in Hv. change (2 ^ 1) with 2 in Hv.
      replace d with 53 in Bhi by lia. lia. }
    subst e'. rewrite Z.sub_0_r, Z.pow_0_r in Hv. cbn. lia.
  - assert (D : Z.pos (digits2_pos (Pos.iter xO p k)) = 53).
    { apply digits2_unique. rewrite iter_xO.
      replace (Z.pos k) with (53 - d) by lia. split.
      - replace (53 - 1) with ((d - 1) + (53 - d)) by lia. rewrite Z.pow_add_r by lia.
        apply Z.mul_le_mono_nonneg_r; lia.
      - replace 53 with (d + (53 - d)) at 2 by lia. rewrite Z.pow_add_r by lia.
        apply Z.mul_lt_mono_pos_r; lia. }
    destruct (binary_round_aux_pos (Pos.iter xO p k) (Z.neg k)) as (m & e' & -> & He & Hv & Hm);
      rewrite ?D; try lia.
    exists m, e'. split; [done|]. split; [done|].
    unfold round53 in Hv. cbn [Zdigits2] in Hv. rewrite D in Hv.
    change (53 - 53 <=? 0) with true in Hv. cbn iota in Hv.
    pose proof (digits2_bounds m) as [Mlo Mhi]. rewrite Hm in Mlo, Mhi.
    pose proof (digits2_bounds (Pos.iter xO p k)) as [Ilo Ihi]. rewrite D in Ilo, Ihi.
    rewrite D in He.
    assert (e' = Z.neg k).
    { destruct (Z.eq_dec e' (Z.neg k)); [done|]. assert (e' = Z.neg k + 1) as E1 by lia.
      rewrite E1 in Hv. replace (Z.neg k + 1 - Z.neg k) with 1 in Hv by lia.
      change (2 ^ 1) with 2 in Hv. lia. }
    subst e'. replace (Z.neg k - Z.neg k) with 0 in Hv by lia.
    rewrite Z.pow_0_r, Z.mul_1_r in Hv. rewrite Hv, iter_xO.
    split; [lia|]. change (- Z.neg k) with (Z.pos k). done.
Qed.

(** [int(n * r)] for a ratio [r = mr * 2^-53] below one and an [n] that
    converts exactly: the product of the integers, rounded to 53 bits and cut
    at the binary point. *)
Lemma int_times_value n mr :
  0 < n < 2 ^ 53 -> Z.pos (digits2_pos mr) = 53 ->
  exists s,
    0 <= s <= 52
    /\ int_times n (S754_finite false mr (-53))
       = Ok (round53 (n * 2 ^ s * Z.pos mr) / 2 ^ (53 + s)).
Proof.
  intros Hn Dr.
  destruct (float_of_int_exact n Hn) as (m & e & Hf & Dm & He & Hm).
  destruct (fmul_pos m e mr (-53) Dm Dr) as (p & e' & Hp & He' & Hv); [lia|].
  exists (- e). split; [lia|].
  unfold int_times, int_mul_float. rewrite Hf. cbn [mbind result_bind Py.bind].
  rewrite Hp. cbn [int_of_float cond_Zopp]. f_equal.
  assert (Z.shiftl (Z.pos p) e' = Z.shiftl (round53 (Z.pos (m * mr))) (e + -53)) as ->.
  { rewrite <- Hv, shiftl_scale by lia. f_equal. lia. }
  rewrite Pos2Z.inj_mul, Hm.
  rewrite Z.shiftl_div_pow2 by lia. do 2 f_equal. lia.
Qed.

(** For a ratio [a/10] whose double is [mr * 2^-53], [c / (10 * 2^53)] below
    it: [int(n * r)] is [floor(a n / 10)] or one less, and it is the floor
    when [a n] is no multiple of ten. *)
Lemma int_times_floor n mr a c :
  0 < n <= 2 ^ 48 -> Z.pos (digits2_pos mr) = 53 ->
  10 * Z.pos mr = a * 2 ^ 53 - c -> 0 <= c -> a - c <= 3 -> a + c <= 17 ->
  exists q,
    int_times n (S754_finite false mr (-53)) = Ok q
    /\ a * n / 10 - 1 <= q <= a * n / 10
    /\ ((a * n) mod 10 <> 0 -> q = a * n / 10).
Proof.
  intros Hn Dr Hmr Hc Hac Hac'.
  destruct (int_times_value n mr) as (s & Hs & ->); [lia|done|].
  eexists. split; [reflexivity|].
  assert (Hpos : 0 < n * 2 ^ s * Z.pos mr) by (apply Z.mul_pos_pos; lia).
  destruct (n * 2 ^ s * Z.pos mr) as [|P|P] eqn:EP; try lia.
  pose proof (round53_error P) as [Rhi Rlo].
  set (R := round53 (Z.pos P)) in *. clearbody R.
  rewrite <- EP in Rhi, Rlo. clear EP Hpos P.
  rewrite Z.pow_add_r by lia.
  assert (HS : 0 < 2 ^ s) by lia.
  assert (HB : 17 * n <= 2 ^ 53) by (change (2 ^ 53) with (32 * 2 ^ 48); lia).
  set (B := 2 ^ 53) in *. set (S2 := 2 ^ s) in *. clearbody B S2. clear Hs Dr.
  set (m := Z.pos mr) in *. clearbody m.
  pose proof (Z.div_mod (a * n) 10 ltac:(lia)) as Eq.
  pose proof (Z.mod_pos_bound (a * n) 10 ltac:(lia)) as Br.
  set (q := a * n / 10) in *. set (r := (a * n) mod 10) in *. clearbody q r.
  assert (Hn0 : 0 < n) by lia. clear Hn.
  assert (HBB : 0 < B * B) by nia.
  assert (HnB : 0 < n * B) by nia.
  (* [(B + 1) (a B - c) n] and [(B - 1) (a B - c) n] against [a n B^2] *)
  assert (K1 : (a - c) * (n * B) <= 3 * (n * B)) by (apply Z.mul_le_mono_nonneg_r; lia).
  assert (K2 : 3 * (n * B) < B * B) by nia.
  assert (K3 : (a + c) * (n * B) <= 17 * (n * B)) by (apply Z.mul_le_mono_nonneg_r; lia).
  assert (K4 : 17 * (n * B) <= B * B) by nia.
  assert (K5 : 0 <= c * n) by nia.
  assert (K6 : r * (B * B) <= 9 * (B * B)) by (apply Z.mul_le_mono_nonneg_r; lia).
  assert (K7 : 0 <= r * (B * B)) by nia.
  assert (EU : (B + 1) * n * (10 * m) = (10 * q + r) * (B * B) + (a - c) * (n * B) - c * n).
  { rewrite Hmr, <- Eq. ring. }
  assert (EL : (B - 1) * n * (10 * m) = (10 * q + r) * (B * B) - (a + c) * (n * B) + c * n).
  { rewrite Hmr, <- Eq. ring. }
  assert (U : 10 * (B * R) <= S2 * ((B + 1) * n * (10 * m))) by lia.
  assert (L : S2 * ((B - 1) * n * (10 * m)) <= 10 * (B * R)) by lia.
  assert (U' : R < B * S2 * (q + 1)).
  { assert (S2 * ((B + 1) * n * (10 * m)) < S2 * (10 * (B * B) * (q + 1))).
    { apply Z.mul_lt_mono_pos_l; [done|]. lia. }
    assert (10 * (B * R) < 10 * (B * (B * S2 * (q + 1)))) by lia.
    apply (Z.mul_lt_mono_pos_l B); lia. }
  assert (L' : B * S2 * (q - 1) <= R).
  { assert (S2 * (10 * (B * B) * (q - 1)) <= S2 * ((B - 1) * n * (10 * m))).
    { apply Z.mul_le_mono_nonneg_l; [lia|]. lia. }
    assert (10 * (B * (B * S2 * (q - 1))) <= 10 * (B * R)) by lia.
    apply (Z.mul_le_mono_pos_l _ _ B); lia. }
  assert (T : 0 < B * S2) by nia.
  split; [split|].
  - apply Z.div_le_lower_bound; [done|]. lia.
  - assert (R / (B * S2) < q + 1); [|lia]. apply Z.div_lt_upper_bound; [done|]. lia.
  - intros Hr.
    assert (L'' : B * S2 * q <= R).
    { assert (S2 * (10 * (B * B) * q) <= S2 * ((B - 1) * n * (10 * m))).
      { apply Z.mul_le_mono_nonneg_l; [lia|].
        assert (1 * (B * B) <= r * (B * B)) by (apply Z.mul_le_mono_nonneg_r; lia). lia. }
      assert (10 * (B * (B * S2 * q)) <= 10 * (B * R)) by lia.
      apply (Z.mul_le_mono_pos_l _ _ B); lia. }
    assert (q <= R / (B * S2)) by (apply Z.div_le_lower_bound; [done|lia]).
    assert (R / (B * S2) < q + 1); [|lia]. apply Z.div_lt_upper_bound; [done|]. lia.
Qed.

(** 7 and 9 are units modulo ten. *)
Lemma odd_multiple_mod_10 a n :
  a = 7 \/ a = 9 -> n mod 10 <> 0 -> (a * n) mod 10 <> 0.
Proof.
  intros Ha H. rewrite (Z.div_mod n 10) at 1 by lia.
  replace (a * (10 * (n / 10) + n mod 10)) with (a * (n mod 10) + (a * (n / 10)) * 10) by ring.
  rewrite Z.mod_add by lia.
  pose proof (Z.mod_pos_bound n 10 ltac:(lia)) as B.
  set (r := n mod 10) in *. clearbody r.
  assert (R : r = 1 \/ r = 2 \/ r = 3 \/ r = 4 \/ r = 5 \/ r = 6 \/ r = 7 \/ r = 8 \/ r = 9)
    by lia.
  destruct Ha as [-> | ->];
    destruct R as [-> | [-> | [-> | [-> | [-> | [-> | [-> | [-> | ->] ] ] ] ] ] ] ]; done.
Qed.

(** The two cut points of [split_list] for the ratios of [main], against
    the exact floors. *)
Lemma cut_points_floor n :
  0 <= n <= 2 ^ 48 ->
  exists n1 n2,
    int_times n f0_7 = Ok n1
    /\ int_times n (fadd f0_7 f0_2) = Ok n2
    /\ 7 * n / 10 - 1 <= n1 <= 7 * n / 10
    /\ 9 * n / 10 - 1 <= n2 <= 9 * n / 10
    /\ (n mod 10 <> 0 -> n1 = 7 * n / 10 /\ n2 = 9 * n / 10)
    /\ 0 <= n1 <= n2 /\ n2 <= n.
Proof.
  intros Hn. destruct (Z.eq_dec n 0) as [->|N0].
  { exists 0, 0. split; [reflexivity|]. split; [reflexivity|].
    split; [done|]. split; [done|]. split; [by intros []|done]. }
  change (fadd f0_7 f0_2) with (S754_finite false 8106479329266892 (-53)).
  unfold f0_7.
  destruct (int_times_floor n 6305039478318694 7 4) as (n1 & E1 & B1 & X1);
    [lia|reflexivity|reflexivity|lia|lia|lia|].
  destruct (int_times_floor n 8106479329266892 9 8) as (n2 & E2 & B2 & X2);
    [lia|reflexivity|reflexivity|lia|lia|lia|].
  exists n1, n2. split; [done|]. split; [done|]. split; [done|]. split; [done|].
  assert (Hx : n mod 10 <> 0 -> n1 = 7 * n / 10 /\ n2 = 9 * n / 10).
  { intros Hm. split; [apply X1|apply X2]; apply odd_multiple_mod_10; auto. }
  split; [exact Hx|].
  destruct (Z.eq_dec (n mod 10) 0) as [M|M].
  - assert (K : n = 10 * (n / 10)) by (apply Z.div_exact; lia).
    set (k := n / 10) in *. clearbody k.
    replace (7 * n) with (7 * k * 10) in B1 by lia.
    replace (9 * n) with (9 * k * 10) in B2 by lia.
    rewrite Z.div_mul in B1, B2 by lia. lia.
  - destruct (Hx M) as [-> ->].
    pose proof (Z.div_le_mono (7 * n) (9 * n) 10 ltac:(lia) ltac:(lia)).
    pose proof (Z.div_pos (7 * n) 10 ltac:(lia) ltac:(lia)).
    assert (9 * n / 10 <= 10 * n / 10) by (apply Z.div_le_mono; lia).
    replace (10 * n) with (n * 10) in * by lia. rewrite Z.div_mul in * by lia. lia.
Qed.

(** Which of the three parts are empty, from the bounds on the cut points. *)
Lemma cut_shape n n1 n2 :
  0 <= n ->
  7 * n / 10 - 1 <= n1 <= 7 * n / 10 ->
  9 * n / 10 - 1 <= n2 <= 9 * n / 10 ->
  (n mod 10 <> 0 -> n1 = 7 * n / 10 /\ n2 = 9 * n / 10) ->
  0 <= n1 <= n2 ->
  (n <> 0 -> n - n2 <> 0) /\ (n1 = 0 <-> n <= 1) /\ (n2 - n1 = 0 <-> n <= 3).
Proof.
  intros Hn B1 B2 X O.
  destruct (Z.eq_dec (n mod 10) 0) as [M|M].
  - clear X. Z.div_mod_to_equations. lia.
  - destruct (X M) as [-> ->]. clear X B1 B2. Z.div_mod_to_equations. lia.
Qed.

Section FloorSizes.
Context {rng : Type} (Random : Z -> rng) (randbelow : nat -> rng -> nat * rng).
Context {A : Type}.

Lemma sizes_Ok (r : result (list A * list A * list A)) a b c :
  sizes <$> r = Ok (a, b, c) ->
  exists tr va te, r = Ok (tr, va, te) /\ Z.of_nat (length tr) = a
                   /\ Z.of_nat (length va) = b /\ Z.of_nat (length te) = c.
Proof.
  destruct r as [[[tr va] te]|e]; cbn; [|done]. intros [= <- <- <-]. by exists tr, va, te.
Qed.

(** X1.  For the ratios of [main] and a class of at most [2^48] items, the
    sizes of the three splits are those of both scripts alike, they add up
    to the class size, [len(train)] is [floor(0.7 n)] or one less,
    [len(train) + len(val)] is [floor(0.9 n)] or one less, and all three
    sizes are the exact floors whenever [n] is no multiple of ten. *)
Theorem split_sizes_near_floors (items : list A) seed :
  randbelow_in_range randbelow ->
  Z.of_nat (length items) <= 2 ^ 48 ->
  let n := Z.of_nat (length items) in
  exists a b c,
    sizes <$> Images.split_list rng Random randbelow items [f0_7; f0_2; f0_1] seed
      = Ok (a, b, c)
    /\ sizes <$> Videos.split_list rng Random randbelow items [f0_7; f0_2; f0_1] seed
       = Ok (a, b, c)
    /\ a + b + c = n
    /\ 7 * n / 10 - 1 <= a <= 7 * n / 10
    /\ 9 * n / 10 - 1 <= a + b <= 9 * n / 10
    /\ (n mod 10 <> 0 -> (a, b, c) = floor_sizes n).
Proof.
  intros Hr Hn n.
  destruct (cut_points_floor n) as (n1 & n2 & E1 & E2 & B1 & B2 & X & O & Hle); [lia|].
  destruct (split_list_sizes Random randbelow Hr items seed n1 n2 E1 E2 O Hle) as [Hi Hv].
  exists n1, (n2 - n1), (n - n2). split; [exact Hi|]. split; [exact Hv|].
  split; [lia|]. split; [lia|]. split; [lia|].
  intros Hm. destruct (X Hm) as [-> ->]. reflexivity.
Qed.

(** X2.  For the ratios of [main] and a class of at most [2^48] items:
    a class that is not empty always leaves an item for testing; it gets a
    training item exactly when it has two items or more, and a validation
    item exactly when it has four or more. *)
Theorem small_classes (items : list A) seed :
  randbelow_in_range randbelow ->
  Z.of_nat (length items) <= 2 ^ 48 ->
  exists tr va te,
    Images.split_list rng Random randbelow items [f0_7; f0_2; f0_1] seed = Ok (tr, va, te)
    /\ Videos.split_list rng Random randbelow items [f0_7; f0_2; f0_1] seed = Ok (tr, va, te)
    /\ (items <> [] -> te <> [])
    /\ (tr = [] <-> (length items <= 1)%nat)
    /\ (va = [] <-> (length items <= 3)%nat).
Proof.
  intros Hr Hn.
  destruct (cut_points_floor (Z.of_nat (length items)))
    as (n1 & n2 & E1 & E2 & B1 & B2 & X & O & Hle); [lia|].
  destruct (split_list_sizes Random randbelow Hr items seed n1 n2 E1 E2 O Hle) as [Hi Hv].
  apply sizes_Ok in Hv as (tr & va & te & Hv & L1 & L2 & L3).
  exists tr, va, te. rewrite (images_split_list_eq Random randbelow).
  split; [done|]. split; [done|].
  destruct (cut_shape (Z.of_nat (length items)) n1 n2) as (Hte & Htr & Hva);
    [lia|done|done|done|done|].
  rewrite <- L3 in Hte. rewrite <- L1 in Htr. rewrite <- L2 in Hva.
  split; [|split].
  - intros Hne ->. apply Hte; [|reflexivity].
    destruct items as [|x l]; [congruence|]. cbn [length]. lia.
  - rewrite <- length_zero_iff_nil. lia.
  - rewrite <- length_zero_iff_nil. lia.
Qed.
End FloorSizes.

Lemma split_sizes_near_floors_witness :
  randbelow_in_range MT19937.randbelow
  /\ Z.of_nat (length ["a.jpg"; "b.jpg"; "c.jpg"]) <= 2 ^ 48
  /\ exists a b c,
       sizes <$> Images.split_list _ MT19937.Random MT19937.randbelow
                   ["a.jpg"; "b.jpg"; "c.jpg"] [f0_7; f0_2; f0_1] 42 = Ok (a, b, c)
       /\ sizes <$> Videos.split_list _ MT19937.Random MT19937.randbelow
                      ["a.jpg"; "b.jpg"; "c.jpg"] [f0_7; f0_2; f0_1] 42 = Ok (a, b, c)
       /\ a + b + c = 3
       /\ 7 * 3 / 10 - 1 <= a <= 7 * 3 / 10
       /\ 9 * 3 / 10 - 1 <= a + b <= 9 * 3 / 10
       /\ (3 mod 10 <> 0 -> (a, b, c) = floor_sizes 3).
Proof.
  split; [exact MT_randbelow_in_range|].
  split; [vm_compute; discriminate|].
  apply (split_sizes_near_floors MT19937.Random MT19937.randbelow
           ["a.jpg"; "b.jpg"; "c.jpg"] 42).
  - exact MT_randbelow_in_range.
  - vm_compute; discriminate.
Defined.

Lemma small_classes_witness :
  randbelow_in_range MT19937.randbelow
  /\ Z.of_nat (length ["a.jpg"; "b.jpg"; "c.jpg"]) <= 2 ^ 48
  /\ exists tr va te,
       Images.split_list _ MT19937.Random MT19937.randbelow
         ["a.jpg"; "b.jpg"; "c.jpg"] [f0_7; f0_2; f0_1] 42 = Ok (tr, va, te)
       /\ Videos.split_list _ MT19937.Random MT19937.randbelow
            ["a.jpg"; "b.jpg"; "c.jpg"] [f0_7; f0_2; f0_1] 42 = Ok (tr, va, te)
       /\ (["a.jpg"; "b.jpg"; "c.jpg"] <> [] -> te <> [])
       /\ (tr = [] <-> (length ["a.jpg"; "b.jpg"; "c.jpg"] <= 1)%nat)
       /\ (va = [] <-> (length ["a.jpg"; "b.jpg"; "c.jpg"] <= 3)%nat).
Proof.
  split; [exact MT_randbelow_in_range|].
  split; [vm_compute; discriminate|].
  apply (small_classes MT19937.Random MT19937.randbelow ["a.jpg"; "b.jpg"; "c.jpg"] 42).
  - exact MT_randbelow_in_range.
  - vm_compute; discriminate.
Defined.

(** ** The split and the values of the items *)

Section Natural.
Context {rng : Type} (Random : Z -> rng) (randbelow : nat -> rng -> nat * rng).
Context {A B : Type} (f : A -> B).

Lemma getitem_map (l : list A) i : getitem (map f l) i = f <$> getitem l i.
Proof. unfold getitem. rewrite list_lookup_fmap. by destruct (l !! i). Qed.

Lemma swap_map (x : list A) i j : swap (map f x) i j = map f <$> swap x i j.
Proof.
  unfold swap. rewrite !getitem_map.
  destruct (getitem x j) as [xj|e]; cbn; [|done].
  destruct (getitem x i) as [xi|e]; cbn; [|done].
  by rewrite !list_fmap_insert.
Qed.

Lemma shuffle_from_map i (x : list A) g :
  shuffle_from rng randbelow i (map f x) g = map f <$> shuffle_from rng randbelow i x g.
Proof.
  revert x g. induction i as [|i IH]; intros x g; cbn [shuffle_from]; [done|].
  destruct (randbelow (S (S i)) g) as [j g']. rewrite swap_map.
  destruct (swap x (S i) j) as [x'|e]; cbn; [|done]. apply IH.
Qed.

Lemma shuffle_map (x : list A) g :
  shuffle rng randbelow (map f x) g = map f <$> shuffle rng randbelow x g.
Proof. unfold shuffle. rewrite length_map. apply shuffle_from_map. Qed.

Lemma slices_map (l : list A) n1 n2 :
  (slice_to (map f l) n1, slice (map f l) n1 n2, slice_from (map f l) n2)
  = map_split f (slice_to l n1, slice l n1 n2, slice_from l n2).
Proof.
  unfold slice_to, slice, slice_from, map_split. rewrite !length_map.
  by rewrite !fmap_take, !fmap_drop.
Qed.

Lemma videos_split_list_map (items : list A) ratios seed :
  Videos.split_list rng Random randbelow (map f items) ratios seed
  = map_split f <$> Videos.split_list rng Random randbelow items ratios seed.
Proof.
  unfold Videos.split_list. rewrite shuffle_map.
  destruct (shuffle rng randbelow items (Random seed)) as [x|e];
    cbn [mbind result_bind Py.bind fmap result_fmap]; [|done].
  rewrite length_map.
  destruct (getitem ratios 0) as [r0|e];
    cbn [mbind result_bind Py.bind fmap result_fmap]; [|done].
  destruct (int_mul_float _ r0) as [x1|e];
    cbn [mbind result_bind Py.bind fmap result_fmap]; [|done].
  destruct (int_of_float x1) as [n1|e];
    cbn [mbind result_bind Py.bind fmap result_fmap]; [|done].
  destruct (getitem ratios 1) as [r1|e];
    cbn [mbind result_bind Py.bind fmap result_fmap]; [|done].
  destruct (int_mul_float _ (fadd r0 r1)) as [x2|e];
    cbn [mbind result_bind Py.bind fmap result_fmap]; [|done].
  destruct (int_of_float x2) as [n2|e];
    cbn [mbind result_bind Py.bind fmap result_fmap]; [|done].
  by rewrite slices_map.
Qed.

End Natural.

(** ** Media files by their names *)

Lemma lower_ascii_dot a : Ascii.eqb (lower_ascii a) "." = Ascii.eqb a ".".
Proof.
  destruct a as [b0 b1 b2 b3 b4 b5 b6 b7].
  destruct b0, b1, b2, b3, b4, b5, b6, b7; reflexivity.
Qed.

(** [lower] takes the three bytes of the Kelvin sign at once, and any other
    byte by itself. *)
Lemma lower_ind (P : string -> Prop) :
  P "" ->
  (forall s, P s -> lower (String "226" (String "132" (String "170" s))) = String "k" (lower s) ->
             P (String "226" (String "132" (String "170" s)))) ->
  (forall a s, P s -> lower (String a s) = String (lower_ascii a) (lower s) ->
               P (String a s)) ->
  forall s, P s.
Proof.
  intros H0 Hk Ha.
  assert (Q : forall s, P s /\ P (match s with String _ t => t | _ => "" end)
                        /\ P (match s with String _ (String _ t) => t | _ => "" end)).
  { induction s as [|a s (IH1 & IH2 & IH3)]; [done|].
    split; [|split; [done|by destruct s]].
    destruct s as [|b [|c s]].
    - by apply Ha.
    - by apply Ha.
    - cbn [lower] in *.
      destruct (Ascii.eqb a "226" && Ascii.eqb b "132" && Ascii.eqb c "170") eqn:E.
      + apply andb_true_iff in E as [E Ec]. apply andb_true_iff in E as [Ea Eb].
        apply Ascii.eqb_eq in Ea, Eb, Ec. subst a b c. by apply Hk.
      + apply Ha; [done|]. cbn [lower]. by rewrite E. }
  intros s. apply Q.
Qed.

Lemma lower_no_dot s : rfind_dot (lower s) = None <-> rfind_dot s = None.
Proof.
  induction s as [|s IH E|a s IH E] using lower_ind; [done| |].
  - rewrite E. cbn [rfind_dot]. destruct (rfind_dot (lower s)), (rfind_dot s); cbn;
      try done; by destruct IH as [I1 I2]; try (by discriminate I1); try (by discriminate I2).
  - rewrite E. cbn [rfind_dot]. rewrite lower_ascii_dot.
    destruct (rfind_dot (lower s)), (rfind_dot s); try done;
      by destruct IH as [I1 I2]; try (by discriminate I1); try (by discriminate I2).
Qed.

(** Where the lowered string is a dot followed by no further dot, so is the
    string. *)
Lemma rfind_dot_lower_0 s : rfind_dot (lower s) = Some O -> rfind_dot s = Some O.
Proof.
  destruct s as [|s IH E|a s IH E] using lower_ind; [done| |].
  - rewrite E. cbn [rfind_dot]. by destruct (rfind_dot (lower s)).
  - rewrite E. cbn [rfind_dot]. rewrite lower_ascii_dot.
    destruct (rfind_dot (lower s)) eqn:El; [done|].
    apply (proj1 (lower_no_dot s)) in El. by rewrite El.
Qed.

Lemma length_lower s : (String.length (lower s) <= String.length s)%nat.
Proof.
  induction s as [|s IH E|a s IH E] using lower_ind; [done| |]; rewrite E; cbn [String.length]; lia.
Qed.

Lemma rfind_dot_app stem ext :
  rfind_dot (stem +:+ ext)
  = match rfind_dot ext with
    | Some i => Some (String.length stem + i)%nat
    | None => rfind_dot stem
    end.
Proof.
  induction stem as [|a stem IH].
  - change ("" +:+ ext) with ext. destruct (rfind_dot ext); reflexivity.
  - change (String a stem +:+ ext) with (String a (stem +:+ ext)).
    cbn [rfind_dot String.length]. rewrite IH. destruct (rfind_dot ext); reflexivity.
Qed.

Lemma length_append a b :
  String.length (a +:+ b) = (String.length a + String.length b)%nat.
Proof.
  induction a as [|c a IH]; [done|].
  change (String c a +:+ b) with (String c (a +:+ b)). cbn [String.length]. by rewrite IH.
Qed.

Lemma substring_all s : String.substring 0 (String.length s) s = s.
Proof. induction s as [|a s IH]; [done|]. cbn. by rewrite IH. Qed.

Lemma substring_append stem ext :
  String.substring (String.length stem) (String.length ext) (stem +:+ ext) = ext.
Proof.
  induction stem as [|a stem IH].
  - apply substring_all.
  - change (String a stem +:+ ext) with (String a (stem +:+ ext)). cbn. exact IH.
Qed.

Lemma substring_split s i :
  (i <= String.length s)%nat ->
  s = String.substring 0 i s +:+ String.substring i (String.length s - i) s
  /\ String.length (String.substring 0 i s) = i.
Proof.
  revert i. induction s as [|a s IH]; intros i Hi.
  - cbn in Hi. assert (i = O) as -> by lia. done.
  - destruct i as [|i].
    + cbn [String.substring String.length Nat.sub]. split; [|done].
      change ("" +:+ ?x) with x. cbn. by rewrite substring_all.
    + cbn [String.length] in *. cbn [String.substring Nat.sub].
      destruct (IH i ltac:(lia)) as [E L].
      change (String a ?x +:+ ?y) with (String a (x +:+ y)).
      split; [by rewrite <- E|]. cbn [String.length]. by rewrite L.
Qed.

(** [p.suffix.lower() in exts], by the name of [p]: a stem that is not empty,
    followed by one of the extensions in any letter case. *)
Lemma suffix_in_exts exts p :
  forallb extension_okb exts = true ->
  lower (suffix p) ∈ exts
  <-> exists stem ext, name p = stem +:+ ext /\ stem <> "" /\ lower ext ∈ exts.
Proof.
  intros Hx. rewrite forallb_forall in Hx.
  assert (Hshape : forall e, lower e ∈ exts ->
            rfind_dot e = Some O /\ (2 <= String.length e)%nat).
  { intros e He. apply list_elem_of_In, Hx in He. unfold extension_okb in He.
    destruct (rfind_dot (lower e)) as [[|i]|] eqn:Ed; try done.
    split; [by apply rfind_dot_lower_0|].
    apply Nat.leb_le in He. pose proof (length_lower e). lia. }
  unfold suffix. set (nm := name p). split.
  - intros H. destruct (rfind_dot nm) as [i|] eqn:Ei.
    + destruct (_ && _) eqn:Ec.
      * apply andb_true_iff in Ec as [E1 E2].
        apply Nat.ltb_lt in E1. apply Nat.ltb_lt in E2.
        destruct (substring_split nm i ltac:(lia)) as [E L].
        exists (String.substring 0 i nm), (String.substring i (String.length nm - i) nm).
        split; [done|]. split; [|done].
        intros E0. rewrite E0 in L. cbn in L. lia.
      * destruct (Hshape "" H) as [? _]. done.
    + destruct (Hshape "" H) as [? _]. done.
  - intros (stem & ext & E & Hs & He). destruct (Hshape ext He) as [Hd Hl].
    rewrite E, rfind_dot_app, Hd, Nat.add_0_r, length_append.
    assert (0 < String.length stem)%nat by (destruct stem; [done|cbn; lia]).
    destruct (Nat.ltb_spec 0 (String.length stem)); [|lia].
    destruct (Nat.ltb_spec (String.length stem)
                (String.length stem + String.length ext - 1)); [|lia].
    cbn [andb].
    replace (String.length stem + String.length ext - String.length stem)%nat
      with (String.length ext) by lia.
    by rewrite substring_append.
Qed.

(** [Path('a.m\u212av')], with the Kelvin sign for the [k], is a video: its
    suffix lowers to [.mkv].  One byte more or less and it is none. *)
Lemma kelvin_sign_suffix :
  Videos.is_video_file
    (mkPath "" ["a.m" +:+ String "226" (String "132" (String "170" "v"))]) = true
  /\ Videos.is_video_file
       (mkPath "" ["a.m" +:+ String "226" (String "132" (String "171" "v"))]) = false
  /\ Videos.is_video_file (mkPath "" ["a.MkV"]) = true.
Proof. repeat split; reflexivity. Qed.

(** X4.  [is_image_file] and [is_video_file] depend on the name of the
    path only: a path is taken exactly when its name is a stem that is not
    empty followed by a string that [str.lower] turns into one of the listed
    extensions: the extension in any letter case, where the Kelvin sign
    U+212A also stands for a [k] (a file called [.jpg] is not an image).  No
    path is both an image and a video. *)
Theorem media_file_by_name p :
  (Images.is_image_file p = true
   <-> exists stem ext, name p = stem +:+ ext /\ stem <> ""
                        /\ lower ext ∈ Images.IMAGE_EXTS)
  /\ (Videos.is_video_file p = true
      <-> exists stem ext, name p = stem +:+ ext /\ stem <> ""
                           /\ lower ext ∈ Videos.VIDEO_EXTS)
  /\ (Images.is_image_file p = true -> Videos.is_video_file p = false).
Proof.
  unfold Images.is_image_file, Videos.is_video_file. rewrite !bool_decide_eq_true.
  split; [by apply suffix_in_exts|]. split; [by apply suffix_in_exts|].
  intros Hi. apply bool_decide_eq_false. intros Hv.
  set (x := lower (suffix p)) in *. clearbody x.
  unfold Images.IMAGE_EXTS in Hi.
  repeat (apply elem_of_cons in Hi as [->|Hi]);
    try (by apply elem_of_nil in Hi);
    refine (bool_decide_eq_false_1 _ _ Hv); reflexivity.
Qed.

(** ** The collector's inventory *)

Section Dict.

Lemma existsb_key label (d : list (string * list Path)) :
  existsb (fun kv => String.eqb (fst kv) label) d = bool_decide (label ∈ map fst d).
Proof.
  induction d as [|kv d IH]; [done|]. cbn [existsb map]. rewrite IH.
  destruct (String.eqb_spec (fst kv) label) as [E|N].
  - symmetry. apply bool_decide_eq_true. rewrite E. by left.
  - cbn [orb]. apply bool_decide_ext. rewrite elem_of_cons. split; [by right|].
    intros [E|H]; [by symmetry in E|done].
Qed.

Lemma extend_absent label new (d : list (string * list Path)) :
  label ∉ map fst d ->
  map (fun kv => if String.eqb (fst kv) label then (fst kv, snd kv ++ new) else kv) d = d.
Proof.
  induction d as [|kv d IH]; [done|]. cbn [map]. intros H.
  apply not_elem_of_cons in H as [H1 H2].
  destruct (String.eqb_spec (fst kv) label) as [E|N]; [by symmetry in E|].
  by rewrite IH.
Qed.

Lemma extend_keys label new (d : list (string * list Path)) :
  map fst (map (fun kv => if String.eqb (fst kv) label
                          then (fst kv, snd kv ++ new) else kv) d) = map fst d.
Proof.
  induction d as [|kv d IH]; [done|]. cbn [map]. rewrite IH.
  by destruct (String.eqb (fst kv) label).
Qed.

Lemma extend_present label new (d : list (string * list Path)) :
  NoDup (map fst d) -> label ∈ map fst d ->
  concat (map snd (map (fun kv => if String.eqb (fst kv) label
                                  then (fst kv, snd kv ++ new) else kv) d))
  ≡ₚ concat (map snd d) ++ new.
Proof.
  induction d as [|kv d IH]; intros Hn Hl; [by apply elem_of_nil in Hl|].
  cbn [map] in *. apply NoDup_cons in Hn as [Hk Hn].
  destruct (String.eqb_spec (fst kv) label) as [E|N].
  - rewrite extend_absent by (by rewrite <- E). cbn [concat snd].
    rewrite <- !app_assoc. apply Permutation_app_head, Permutation_app_comm.
  - apply elem_of_cons in Hl as [Hl|Hl]; [by symmetry in Hl|].
    cbn [concat]. rewrite IH by done. by rewrite app_assoc.
Qed.

(** What [setdefault(label, []).extend(new)] does to a dict. *)
Lemma setdefault_extend_inventory label new (d : list (string * list Path)) :
  new <> [] -> NoDup (map fst d) -> Forall (fun kv => snd kv <> []) d ->
  concat (map snd (setdefault_extend label new d)) ≡ₚ concat (map snd d) ++ new
  /\ NoDup (map fst (setdefault_extend label new d))
  /\ Forall (fun kv => snd kv <> []) (setdefault_extend label new d).
Proof.
  intros Hnew Hn He. unfold setdefault_extend. rewrite existsb_key.
  destruct (bool_decide_reflect (label ∈ map fst d)) as [Hl|Hl].
  - split; [by apply extend_present|]. split; [by rewrite extend_keys|].
    apply Forall_fmap. eapply Forall_impl; [exact He|]. intros kv Hkv. cbn.
    destruct (String.eqb (fst kv) label); [|done]. cbn [snd].
    intros E. by apply app_eq_nil in E as [? _].
  - rewrite !map_app, concat_app. cbn [map concat fst snd]. rewrite app_nil_r.
    split; [done|]. split.
    + apply NoDup_app. split; [done|]. split.
      * intros x Hx Hx'. apply list_elem_of_singleton in Hx'. by subst.
      * apply NoDup_singleton.
    + apply Forall_app. split; [done|]. by constructor.
Qed.

End Dict.

Section Collector.
Variable is_media : Path -> bool.

Lemma gather_step_at src d e more :
  parse (fst (fst e)) = mkPath (root src) (parts src ++ more) ->
  gather_step is_media src d e
  = Ok (match entry_media is_media e with
        | [] => d
        | m => setdefault_extend (replace_backslash (str (mkPath "" more))) m d
        end).
Proof.
  intros He. destruct e as [[top dirs] files]. cbn [fst] in He.
  unfold gather_step, entry_media. cbn [fst snd].
  destruct (filter _ _) as [|q m]; [done|].
  rewrite He. destruct src as [r ps]. cbn [root parts].
  by rewrite relative_to_below.
Qed.

Lemma gather_fold_inv (I : list (string * list string * list string)
                           -> list (string * list Path) -> Prop) src es :
  Forall (below src) es ->
  (forall seen d e d', e ∈ es -> I seen d ->
     gather_step is_media src d e = Ok d' -> I (seen ++ [e]) d') ->
  forall seen d, I seen d ->
  exists d',
    foldl (fun acc entry => d ← acc; gather_step is_media src d entry) (Ok d) es = Ok d'
    /\ I (seen ++ es) d'.
Proof.
  intros Hb. induction Hb as [|e es (more & Hm & He) _ IH]; intros Hstep seen d Hd.
  - exists d. by rewrite app_nil_r.
  - cbn [foldl mbind result_bind Py.bind].
    pose proof (gather_step_at src d e more He) as E. rewrite E.
    destruct (IH (fun seen d e' d' H => Hstep seen d e' d' (list_elem_of_further _ _ _ H))
                 (seen ++ [e]) _ (Hstep seen d e _ (list_elem_of_here _ _) Hd E))
      as (d' & Hf & Hi).
    exists d'. split; [done|]. by rewrite <- app_assoc in Hi.
Qed.

Lemma walk_all_below s t :
  OS.tree_ok t -> Forall (below (parse s)) (OS.walk (str (parse s)) t).
Proof.
  intros Hok.
  destruct (walk_below t (str (parse s)) (root (parse s)) (parts (parse s)) Hok)
    as (dirs & fs & rest & -> & Hr).
  { rewrite str_parse by apply parse_clean. by destruct (parse s). }
  constructor.
  - exists []. split; [constructor|]. cbn [fst]. rewrite app_nil_r.
    rewrite str_parse by apply parse_clean. by destruct (parse s).
  - eapply Forall_impl; [exact Hr|]. intros e (more & _ & Hm & He). by exists more.
Qed.

Lemma gather_inventory s t :
  OS.tree_ok t ->
  exists d,
    gather is_media (parse s) t = Ok d
    /\ concat (map snd d) ≡ₚ walk_media is_media (str (parse s)) t
    /\ NoDup (map fst d)
    /\ Forall (fun kv => snd kv <> []) d.
Proof.
  intros Hok. unfold gather, walk_media.
  destruct (gather_fold_inv
              (fun seen d => concat (map snd d) ≡ₚ flat_map (entry_media is_media) seen
                             /\ NoDup (map fst d)
                             /\ Forall (fun kv => snd kv <> []) d)
              (parse s) (OS.walk (str (parse s)) t) (walk_all_below s t Hok))
    with (seen := @nil (string * list string * list string))
         (d := @nil (string * list Path)) as (d & Hf & Hi).
  - intros seen d e d' He (Hp & Hn & Hne) Hs.
    destruct (Forall_forall (below (parse s)) (OS.walk (str (parse s)) t)) as [F _].
    destruct (F (walk_all_below s t Hok) e He) as (more & _ & Hm).
    rewrite (gather_step_at _ d e more Hm) in Hs. injection Hs as <-.
    rewrite flat_map_app. cbn [flat_map]. rewrite app_nil_r.
    destruct (entry_media is_media e) as [|q m] eqn:Em.
    + rewrite app_nil_r. done.
    + destruct (setdefault_extend_inventory
                  (replace_backslash (str (mkPath "" more))) (q :: m) d)
        as (P & N & E); [done|done|done|].
      split; [by rewrite P, Hp|done].
  - split; [done|]. split; [constructor|constructor].
  - by exists d.
Qed.

End Collector.

(** X5.  On a source tree whose directories have proper names, both
    collectors return a dict (they do not raise); its file lists together
    hold exactly the media files the walk meets, each as often as the walk
    meets it; every class label occurs once; and no class is empty. *)
Theorem collector_inventory (s : string) (t : OS.tree) :
  OS.tree_okb t = true ->
  (exists d,
     Images.gather_image_files (parse s) t = Ok d
     /\ concat (map snd d) ≡ₚ walk_media Images.is_image_file (str (parse s)) t
     /\ NoDup (map fst d)
     /\ Forall (fun kv => snd kv <> []) d)
  /\ (exists d,
        Videos.gather_video_files (parse s) t = Ok d
        /\ concat (map snd d) ≡ₚ walk_media Videos.is_video_file (str (parse s)) t
        /\ NoDup (map fst d)
        /\ Forall (fun kv => snd kv <> []) d).
Proof.
  intros Hok. apply tree_okb_ok in Hok. split.
  - destruct (gather_inventory Images.is_image_file s t Hok) as (d & Hg & H).
    exists d. by rewrite gather_image_files_eq.
  - destruct (gather_inventory Videos.is_video_file s t Hok) as (d & Hg & H).
    exists d. by rewrite gather_video_files_eq.
Qed.

Lemma collector_inventory_witness :
  OS.tree_okb Scenario.tree_flat = true
  /\ (exists d,
        Images.gather_image_files (parse "yoga") Scenario.tree_flat = Ok d
        /\ concat (map snd d)
            ≡ₚ walk_media Images.is_image_file (str (parse "yoga")) Scenario.tree_flat
        /\ NoDup (map fst d)
        /\ Forall (fun kv => snd kv <> []) d)
  /\ (exists d,
        Videos.gather_video_files (parse "yoga") Scenario.tree_flat = Ok d
        /\ concat (map snd d)
            ≡ₚ walk_media Videos.is_video_file (str (parse "yoga")) Scenario.tree_flat
        /\ NoDup (map fst d)
        /\ Forall (fun kv => snd kv <> []) d).
Proof.
  split; [reflexivity|].
  apply (collector_inventory "yoga" Scenario.tree_flat). reflexivity.
Defined.

Lemma listing_ok_Dir files subs :
  listing_okb (OS.Dir files subs) = true ->
  Forall part_ok files /\ Forall (fun d => listing_okb (snd d) = true) subs.
Proof.
  cbn [listing_okb]. intros H. apply andb_true_iff in H as [Hf Hs].
  rewrite forallb_forall in Hf. rewrite forallb_forall in Hs. split.
  - apply Forall_forall. intros x Hx. apply part_okb_ok, Hf. by apply list_elem_of_In.
  - apply Forall_forall. intros x Hx. apply Hs. by apply list_elem_of_In.
Qed.

Lemma walk_listing t :
  forall top, listing_okb t = true ->
              Forall (fun e => Forall part_ok (snd e)) (OS.walk top t).
Proof.
  induction t as [files subs IH] using tree_induction. intros top Hok.
  apply listing_ok_Dir in Hok as [Hf Hs]. cbn [OS.walk]. constructor; [done|].
  induction subs as [|[n t] subs IHs]; [constructor|].
  apply Forall_cons in IH as [IHt IH]. apply Forall_cons in Hs as [Ht Hs].
  cbn [flat_map fst snd] in *. apply Forall_app. split; [by apply IHt|by apply IHs].
Qed.

Section Labels.
Variable is_media : Path -> bool.

Lemma setdefault_extend_filed src label new d :
  Forall (filed_under src label) new ->
  Forall (fun kv => Forall (filed_under src (fst kv)) (snd kv)) d ->
  Forall (fun kv => Forall (filed_under src (fst kv)) (snd kv))
         (setdefault_extend label new d).
Proof.
  intros Hnew Hd. unfold setdefault_extend. destruct (existsb _ _).
  - apply Forall_fmap. eapply Forall_impl; [exact Hd|]. intros kv Hkv. cbn.
    destruct (String.eqb_spec (fst kv) label) as [E|N]; [|done]. cbn [fst snd].
    apply Forall_app. split; [done|]. by rewrite E.
  - apply Forall_app. split; [done|]. by constructor.
Qed.

Lemma entry_media_filed src e more :
  Forall part_ok more -> Forall part_ok (snd e) ->
  parse (fst (fst e)) = mkPath (root src) (parts src ++ more) ->
  Forall (filed_under src (replace_backslash (str (mkPath "" more))))
         (entry_media is_media e).
Proof.
  intros Hm Hf He. unfold entry_media. rewrite He.
  apply Forall_forall. intros q Hq. apply list_elem_of_filter in Hq as [_ Hq].
  apply list_elem_of_fmap in Hq as (f & -> & Hf').
  rewrite Forall_forall in Hf. specialize (Hf f Hf').
  exists more, f. split; [done|]. split; [done|]. split; [|done].
  rewrite div_name by done. cbn [root parts]. by rewrite <- app_assoc.
Qed.

Lemma gather_filed s t :
  OS.tree_ok t -> listing_okb t = true ->
  exists d,
    gather is_media (parse s) t = Ok d
    /\ Forall (fun kv => Forall (filed_under (parse s) (fst kv)) (snd kv)) d.
Proof.
  intros Hok Hl. unfold gather.
  pose proof (walk_all_below s t Hok) as Hb.
  pose proof (walk_listing t (str (parse s)) Hl) as Hw.
  destruct (gather_fold_inv is_media
              (fun _ d => Forall (fun kv => Forall (filed_under (parse s) (fst kv)) (snd kv)) d)
              (parse s) (OS.walk (str (parse s)) t) Hb)
    with (seen := @nil (string * list string * list string))
         (d := @nil (string * list Path)) as (d & Hf & Hi).
  - intros seen d e d' He Hd Hs.
    rewrite Forall_forall in Hb. destruct (Hb e He) as (more & Hm & Hp).
    rewrite Forall_forall in Hw. specialize (Hw e He).
    rewrite (gather_step_at _ _ d e more Hp) in Hs. injection Hs as <-.
    pose proof (entry_media_filed (parse s) e more Hm Hw Hp) as Hmed.
    destruct (entry_media is_media e) as [|q m]; [done|].
    by apply setdefault_extend_filed.
  - constructor.
  - by exists d.
Qed.
End Labels.

(** X6.  On a source tree whose directories and files have proper names,
    every path a collector files under a class label is a file [f] of a
    directory [src_root/d1/.../dk] ([k] may be 0), and the label is that
    directory's relative path [d1/.../dk], with backslashes turned into
    slashes ("." for the root itself). *)
Theorem collected_files_labelled (s : string) (t : OS.tree) :
  OS.tree_okb t = true -> listing_okb t = true ->
  (exists d,
     Images.gather_image_files (parse s) t = Ok d
     /\ Forall (fun kv => Forall (filed_under (parse s) (fst kv)) (snd kv)) d)
  /\ (exists d,
        Videos.gather_video_files (parse s) t = Ok d
        /\ Forall (fun kv => Forall (filed_under (parse s) (fst kv)) (snd kv)) d).
Proof.
  intros Hok Hl. apply tree_okb_ok in Hok. split.
  - destruct (gather_filed Images.is_image_file s t Hok Hl) as (d & Hg & H).
    exists d. by rewrite gather_image_files_eq.
  - destruct (gather_filed Videos.is_video_file s t Hok Hl) as (d & Hg & H).
    exists d. by rewrite gather_video_files_eq.
Qed.

Lemma collected_files_labelled_witness :
  OS.tree_okb Scenario.tree_flat = true /\ listing_okb Scenario.tree_flat = true
  /\ (exists d,
        Images.gather_image_files (parse "yoga") Scenario.tree_flat = Ok d
        /\ Forall (fun kv => Forall (filed_under (parse "yoga") (fst kv)) (snd kv)) d)
  /\ (exists d,
        Videos.gather_video_files (parse "yoga") Scenario.tree_flat = Ok d
        /\ Forall (fun kv => Forall (filed_under (parse "yoga") (fst kv)) (snd kv)) d).
Proof.
  split; [reflexivity|]. split; [reflexivity|].
  apply (collected_files_labelled "yoga" Scenario.tree_flat); reflexivity.
Defined.

Lemma replace_backslash_append a b :
  replace_backslash (a +:+ b) = replace_backslash a +:+ replace_backslash b.
Proof.
  induction a as [|c a IH]; [done|].
  change (String c a +:+ b) with (String c (a +:+ b)). cbn [replace_backslash].
  rewrite IH. reflexivity.
Qed.

Lemma replace_backslash_join l :
  Forall (fun x => replace_backslash x = x) l ->
  replace_backslash (join "/" l) = join "/" l.
Proof.
  induction 1 as [|x l Hx _ IH]; [done|].
  destruct l as [|y l]; [done|].
  change (join "/" (x :: y :: l)) with (x +:+ "/" +:+ join "/" (y :: l)).
  rewrite !replace_backslash_append, Hx, IH. reflexivity.
Qed.

Lemma name_last r ps f : name (mkPath r (ps ++ [f])) = f.
Proof. unfold name. cbn [parts]. apply last_last. Qed.

Lemma parent_last r ps f : parent (mkPath r (ps ++ [f])) = mkPath r ps.
Proof. unfold parent. cbn [root parts]. by rewrite removelast_last. Qed.

(** The destination of the file [f] of the directory [more], for a
    directory path without backslash. *)
Lemma dst_path_of_below (out src_root : Path) (more : list string)
    (f split_name kind : string) :
  Forall part_ok more -> Forall (fun x => replace_backslash x = x) more ->
  part_ok f -> part_ok split_name -> part_ok kind ->
  dst_path_of out split_name kind (label_of more)
    (mkPath (root src_root) (parts src_root ++ more ++ [f]))
  = mkPath (root out) (parts out ++ [split_name; kind] ++ more ++ [f]).
Proof.
  intros Hm Hb Hf Hs Hk. unfold dst_path_of, label_of.
  rewrite app_assoc, name_last.
  assert (E : replace_backslash (str (mkPath "" more)) = str (mkPath "" more)).
  { unfold str. cbn [root parts]. destruct more as [|x l]; [done|].
    change ("" +:+ ?x) with x. by apply replace_backslash_join. }
  rewrite E, str_parse by (split; [by left|done]).
  rewrite !div_name by done. cbn [root parts joinpath].
  by rewrite <- !app_assoc.
Qed.

(** X7.  The destination keeps the place of the file below the source
    root: for a file [f] of the directory [src_root/d1/.../dk], where no
    [di] holds a backslash, the class label is the relative path of the
    directory and the destination computed in [main] is
    [output_root/<split>/<kind>/d1/.../dk/f]. *)
Theorem destination_mirrors_source (out src_root : Path) (more : list string)
    (f split_name kind : string) :
  Forall part_ok more -> Forall (fun x => replace_backslash x = x) more ->
  part_ok f -> part_ok split_name -> part_ok kind ->
  let src_path := mkPath (root src_root) (parts src_root ++ more ++ [f]) in
  exists rel,
    relative_to (parent src_path) src_root = Ok rel
    /\ dst_path_of out split_name kind (replace_backslash (str rel)) src_path
       = mkPath (root out) (parts out ++ [split_name; kind] ++ more ++ [f]).
Proof.
  intros Hm Hb Hf Hs Hk src_path. exists (mkPath "" more). split.
  - subst src_path. rewrite app_assoc, parent_last. destruct src_root as [r ps].
    apply relative_to_below.
  - by apply dst_path_of_below.
Qed.

Lemma destination_mirrors_source_witness :
  Forall part_ok ["Pose"; "Wrong"]
  /\ Forall (fun x => replace_backslash x = x) ["Pose"; "Wrong"]
  /\ part_ok "a.jpg" /\ part_ok "train" /\ part_ok "images"
  /\ exists rel,
       relative_to (parent (mkPath "" (["yoga"] ++ ["Pose"; "Wrong"] ++ ["a.jpg"])))
                   (mkPath "" ["yoga"]) = Ok rel
       /\ dst_path_of (mkPath "" ["out"]) "train" "images" (replace_backslash (str rel))
            (mkPath "" (["yoga"] ++ ["Pose"; "Wrong"] ++ ["a.jpg"]))
          = mkPath "" (["out"] ++ ["train"; "images"] ++ ["Pose"; "Wrong"] ++ ["a.jpg"]).
Proof.
  assert (P : Forall part_ok ["Pose"; "Wrong"])
    by (repeat constructor; by apply part_okb_ok).
  assert (B : Forall (fun x => replace_backslash x = x) ["Pose"; "Wrong"])
    by (repeat constructor).
  assert (F : part_ok "a.jpg") by (by apply part_okb_ok).
  assert (S : part_ok "train") by (by apply part_okb_ok).
  assert (K : part_ok "images") by (by apply part_okb_ok).
  split; [exact P|]. split; [exact B|]. split; [exact F|]. split; [exact S|].
  split; [exact K|].
  exact (destination_mirrors_source (mkPath "" ["out"]) (mkPath "" ["yoga"])
           ["Pose"; "Wrong"] "a.jpg" "train" "images" P B F S K).
Defined.

(** X17.  Below a source root whose directory names hold no backslash, two
    items get the same destination only if they are in the same split and
    are the same source file: no item of a run overwrites the output of
    another. *)
Theorem destinations_do_not_collide (out src_root : Path)
    (more1 more2 : list string) (f1 f2 s1 s2 kind : string) :
  Forall part_ok more1 -> Forall (fun x => replace_backslash x = x) more1 ->
  Forall part_ok more2 -> Forall (fun x => replace_backslash x = x) more2 ->
  part_ok f1 -> part_ok f2 -> part_ok s1 -> part_ok s2 -> part_ok kind ->
  let p1 := mkPath (root src_root) (parts src_root ++ more1 ++ [f1]) in
  let p2 := mkPath (root src_root) (parts src_root ++ more2 ++ [f2]) in
  dst_path_of out s1 kind (label_of more1) p1 = dst_path_of out s2 kind (label_of more2) p2 ->
  s1 = s2 /\ p1 = p2.
Proof.
  intros M1 B1 M2 B2 F1 F2 S1 S2 K p1 p2. subst p1 p2.
  rewrite !dst_path_of_below by done. intros [= E].
  apply app_inv_head in E. injection E as -> E. by rewrite E.
Qed.

Lemma destinations_do_not_collide_witness :
  Forall part_ok ["Pose"] /\ Forall (fun x => replace_backslash x = x) ["Pose"]
  /\ part_ok "a.jpg" /\ part_ok "train" /\ part_ok "images"
  /\ dst_path_of (mkPath "" ["out"]) "train" "images" (label_of ["Pose"])
       (mkPath "" (["yoga"] ++ ["Pose"] ++ ["a.jpg"]))
     = dst_path_of (mkPath "" ["out"]) "train" "images" (label_of ["Pose"])
         (mkPath "" (["yoga"] ++ ["Pose"] ++ ["a.jpg"]))
  /\ "train" = "train"
  /\ mkPath "" (["yoga"] ++ ["Pose"] ++ ["a.jpg"])
     = mkPath "" (["yoga"] ++ ["Pose"] ++ ["a.jpg"]).
Proof.
  assert (P : Forall part_ok ["Pose"]) by (repeat constructor; by apply part_okb_ok).
  assert (B : Forall (fun x => replace_backslash x = x) ["Pose"]) by (repeat constructor).
  assert (F : part_ok "a.jpg") by (by apply part_okb_ok).
  assert (S : part_ok "train") by (by apply part_okb_ok).
  assert (K : part_ok "images") by (by apply part_okb_ok).
  split; [exact P|]. split; [exact B|]. split; [exact F|]. split; [exact S|].
  split; [exact K|]. split; [reflexivity|].
  exact (destinations_do_not_collide (mkPath "" ["out"]) (mkPath "" ["yoga"])
           ["Pose"] ["Pose"] "a.jpg" "a.jpg" "train" "train" "images"
           P B P B F F S S K eq_refl).
Defined.

(** X8.  A class directory whose name starts with a backslash takes its
    files out of the output root: for the directory [\d] directly below the
    source root, the label is [/d], [Path(label)] is absolute, and the
    destination computed in [main] is [/d/f], whatever the output root, the
    split and the kind are. *)
Theorem backslash_class_leaves_output_root (out src_root : Path)
    (d f split_name kind : string) :
  part_ok d -> replace_backslash d = d -> part_ok f ->
  let dir := String "\" d in
  let src_path := mkPath (root src_root) (parts src_root ++ [dir; f]) in
  part_ok dir
  /\ relative_to (parent src_path) src_root = Ok (mkPath "" [dir])
  /\ dst_path_of out split_name kind (replace_backslash (str (mkPath "" [dir]))) src_path
     = mkPath "/" [d; f].
Proof.
  intros Hd Hb Hf dir src_path. subst dir src_path.
  destruct Hd as (Hne & Hdot & Hsl). split; [|split].
  - split; [done|]. split; [done|]. apply no_slash_cons. done.
  - change [String "\" d; f] with ([String "\" d] ++ [f]).
    rewrite app_assoc, parent_last. destruct src_root as [r ps]. apply relative_to_below.
  - unfold dst_path_of.
    change [String "\" d; f] with ([String "\" d] ++ [f]).
    rewrite app_assoc, name_last.
    unfold str. cbn [root parts join]. change ("" +:+ ?x) with x.
    cbn [replace_backslash]. change (Ascii.eqb "\" "\") with true. cbn iota. rewrite Hb.
    assert (P : parse (String "/" d) = mkPath "/" [d]).
    { change (String "/" d) with (str (mkPath "/" [d])).
      apply str_parse. split; [right; by left|]. by constructor. }
    rewrite P, (div_name _ f) by done. reflexivity.
Qed.

Lemma backslash_class_leaves_output_root_witness :
  part_ok "tmp" /\ replace_backslash "tmp" = "tmp" /\ part_ok "a.jpg"
  /\ part_ok (String "\" "tmp")
  /\ relative_to (parent (mkPath "" (["yoga"] ++ [String "\" "tmp"; "a.jpg"])))
                 (mkPath "" ["yoga"])
     = Ok (mkPath "" [String "\" "tmp"])
  /\ dst_path_of (mkPath "" ["out"]) "train" "images"
       (replace_backslash (str (mkPath "" [String "\" "tmp"])))
       (mkPath "" (["yoga"] ++ [String "\" "tmp"; "a.jpg"]))
     = mkPath "/" ["tmp"; "a.jpg"].
Proof.
  assert (D : part_ok "tmp") by (by apply part_okb_ok).
  assert (F : part_ok "a.jpg") by (by apply part_okb_ok).
  split; [exact D|]. split; [reflexivity|]. split; [exact F|].
  exact (backslash_class_leaves_output_root (mkPath "" ["out"]) (mkPath "" ["yoga"])
           "tmp" "a.jpg" "train" "images" D eq_refl F).
Defined.

(** ** Exceptions and counters of a run *)

Section RaisesOnly.
Variable P : exn -> Prop.

Lemma only_ret {A} (a : A) : raises_only P (ret a).
Proof. intros w e. done. Qed.

Lemma only_emit ev : raises_only P (emit ev).
Proof. intros w e. done. Qed.

Lemma only_write_file p : raises_only P (write_file p).
Proof. intros w e. done. Qed.

Lemma only_lift {A} (r : result A) :
  (forall e, r = Raise e -> P e) -> raises_only P (lift r).
Proof. intros H w e. cbn. apply H. Qed.

Lemma only_bind {A B} (m : M A) (k : A -> M B) :
  raises_only P m -> (forall a, raises_only P (k a)) -> raises_only P (bindM m k).
Proof.
  intros Hm Hk w e. unfold bindM. specialize (Hm w).
  destruct (m w) as [[a|e'] w1]; cbn [fst] in *.
  - apply Hk.
  - intros [= <-]. by apply Hm.
Qed.

Lemma only_try {A} (body : M A) caught handler :
  raises_only (fun e => caught e = true \/ P e) body ->
  (forall e, raises_only P (handler e)) ->
  raises_only P (try_except body caught handler).
Proof.
  intros Hb Hh w e. unfold try_except. specialize (Hb w).
  destruct (body w) as [[a|e'] w1]; cbn [fst] in *; [done|].
  destruct (caught e') eqn:Ec.
  - apply Hh.
  - intros [= <-]. destruct (Hb e' eq_refl) as [C|C]; [congruence|done].
Qed.

Lemma only_for_each {A S} (Inv : S -> Prop) (l : list A) (body : A -> S -> M S) :
  (forall x s, x ∈ l -> Inv s ->
     raises_only P (body x s)
     /\ forall w s' w', body x s w = (Ok s', w') -> Inv s') ->
  forall s, Inv s ->
    raises_only P (for_each l body s)
    /\ forall w s' w', for_each l body s w = (Ok s', w') -> Inv s'.
Proof.
  induction l as [|x l IH]; intros Hb s Hs; cbn [for_each].
  - split; [apply only_ret|]. intros w s' w' [= <- <-]. done.
  - destruct (Hb x s (list_elem_of_here _ _) Hs) as [Hx Hi].
    assert (Hl : forall s, Inv s ->
              raises_only P (for_each l body s)
              /\ forall w s' w', for_each l body s w = (Ok s', w') -> Inv s').
    { apply IH. intros y t Hy. apply Hb. by apply list_elem_of_further. }
    split.
    + intros w e. unfold bindM. specialize (Hx w). specialize (Hi w).
      destruct (body x s w) as [[s1|e1] w1]; cbn [fst] in *.
      * destruct (Hl s1 (Hi s1 w1 eq_refl)) as [H1 _]. apply H1.
      * intros [= <-]. by apply Hx.
    + intros w s' w'. unfold bindM. specialize (Hi w).
      destruct (body x s w) as [[s1|e1] w1]; [|done].
      destruct (Hl s1 (Hi s1 w1 eq_refl)) as [_ H2]. apply H2.
Qed.
End RaisesOnly.

Lemma only_mkdir_p h d : raises_only is_OSError (mkdir_p h d).
Proof.
  intros w e. unfold mkdir_p. destruct (_ || _); cbn [fst]; [|done]. by intros [= <-].
Qed.

Lemma images_resize_only h src dst size quality :
  pil_raises_exceptions h ->
  raises_only is_OSError (Images.resize_and_save h src dst size quality).
Proof.
  intros Hp. unfold Images.resize_and_save.
  apply only_bind; [apply only_mkdir_p|]. intros _.
  apply only_try.
  - apply only_bind; [apply only_emit|]. intros _.
    destruct (pil h src) as [|e|e] eqn:E.
    + apply only_bind; [apply only_emit|]. intros _. apply only_write_file.
    + intros w e' [= <-]. left. apply (Hp src). by left.
    + apply only_bind; [apply only_emit|]. intros _.
      intros w e' [= <-]. left. apply (Hp src). by right.
  - intros e. apply only_emit.
Qed.

Lemma videos_ffmpeg_only h src dst fps width height :
  ffmpeg_encode h src <> NotStarted ->
  raises_only is_OSError
              (Videos.reencode_with_ffmpeg h src dst fps width height).
Proof.
  intros Hs. unfold Videos.reencode_with_ffmpeg.
  apply only_bind; [apply only_mkdir_p|]. intros _.
  apply only_try.
  - apply only_bind; [apply only_emit|]. intros _.
    destruct (ffmpeg_encode h src) as [|status wrote]; [done|].
    apply only_bind.
    { destruct wrote; [apply only_write_file|apply only_ret]. }
    intros _. destruct (status =? 0); [apply only_ret|].
    intros w e' [= <-]. by left.
  - intros e. apply only_bind; [apply only_emit|]. intros _. apply only_ret.
Qed.

Lemma incr_three c s :
  three_counts c -> s ∈ ["train"; "val"; "test"] ->
  exists c', incr c s = Ok c' /\ three_counts c'.
Proof.
  intros (x & y & z & ->) Hs. destruct (incr_mk_counts x y z) as (T & V & E).
  repeat (apply elem_of_cons in Hs as [->|Hs]); [| | |by apply elem_of_nil in Hs].
  - eexists. split; [exact T|]. by eexists _, _, _.
  - eexists. split; [exact V|]. by eexists _, _, _.
  - eexists. split; [exact E|]. by eexists _, _, _.
Qed.

Section Loops.
Variable body : string -> Path -> gmap string nat -> M (gmap string nat).
(** A loop body that, when it returns, has counted its item. *)
Hypothesis body_counts :
  forall s src c w c' w', body s src c w = (Ok c', w') -> incr c s = Ok c'.

Lemma items_counted s items :
  forall x y z w c' w',
    for_each items (body s) (mk_counts x y z) w = (Ok c', w') ->
    (s = "train" -> c' = mk_counts (x + length items) y z)
    /\ (s = "val" -> c' = mk_counts x (y + length items) z)
    /\ (s = "test" -> c' = mk_counts x y (z + length items)).
Proof.
  induction items as [|src items IH]; intros x y z w c' w'; cbn [for_each length].
  - intros [= <- <-]. rewrite !Nat.add_0_r. done.
  - unfold bindM. destruct (body s src (mk_counts x y z) w) as [[c1|e] w1] eqn:Eb; [|done].
    apply body_counts in Eb. intros Hf.
    destruct (incr_mk_counts x y z) as (T & V & E).
    split; [|split]; intros ->.
    + rewrite T in Eb. injection Eb as <-.
      destruct (IH _ _ _ _ _ _ Hf) as (H & _ & _). rewrite (H eq_refl). f_equal. lia.
    + rewrite V in Eb. injection Eb as <-.
      destruct (IH _ _ _ _ _ _ Hf) as (_ & H & _). rewrite (H eq_refl). f_equal. lia.
    + rewrite E in Eb. injection Eb as <-.
      destruct (IH _ _ _ _ _ _ Hf) as (_ & _ & H). rewrite (H eq_refl). f_equal. lia.
Qed.

Lemma class_counted (tr va te : list Path) x y z w c' w' :
  for_each [("train", tr); ("val", va); ("test", te)]
    (fun '(split_name, items) => for_each items (body split_name))
    (mk_counts x y z) w = (Ok c', w') ->
  c' = mk_counts (x + length tr) (y + length va) (z + length te).
Proof.
  cbn [for_each]. unfold bindM.
  destruct (for_each tr (body "train") (mk_counts x y z) w) as [[c1|e] w1] eqn:E1; [|done].
  apply items_counted in E1 as (-> & _ & _); [|done].
  destruct (for_each va (body "val") _ w1) as [[c2|e] w2] eqn:E2; [|done].
  apply items_counted in E2 as (_ & -> & _); [|done].
  destruct (for_each te (body "test") _ w2) as [[c3|e] w3] eqn:E3; [|done].
  apply items_counted in E3 as (_ & _ & ->); [|done].
  by intros [= <- <-].
Qed.

(** ... and that lets only exceptions in [Q] out, for the three splits. *)
Variable Q : exn -> Prop.
Hypothesis body_only :
  forall s src c, s ∈ ["train"; "val"; "test"] -> three_counts c ->
                  raises_only Q (body s src c).

Lemma body_three s src c w c' w' :
  s ∈ ["train"; "val"; "test"] -> three_counts c ->
  body s src c w = (Ok c', w') -> three_counts c'.
Proof.
  intros Hs Hc Hb. apply body_counts in Hb.
  destruct (incr_three c s Hc Hs) as (c1 & E & H1). congruence.
Qed.

Lemma class_only (tr va te : list Path) c :
  three_counts c ->
  raises_only Q
    (for_each [("train", tr); ("val", va); ("test", te)]
       (fun '(split_name, items) => for_each items (body split_name)) c).
Proof.
  intros Hc.
  apply (only_for_each Q three_counts
           [("train", tr); ("val", va); ("test", te)]
           (fun '(split_name, items) => for_each items (body split_name))); [|done].
  intros [s items] c0 Hin Hc0.
  assert (Hs : s ∈ ["train"; "val"; "test"]).
  { repeat (apply elem_of_cons in Hin as [[= -> _]|Hin]);
      [| | |by apply elem_of_nil in Hin].
    - by left.
    - right. by left.
    - right. right. by left. }
  apply (only_for_each Q three_counts items (body s)); [|done].
  intros src c1 _ Hc1. split; [by apply body_only|].
  intros w s' w'. by apply body_three.
Qed.
End Loops.

Lemma classes_counted
    (pc : string * list Path -> gmap string nat -> M (gmap string nat))
    (split : list Path -> result (list Path * list Path * list Path)) :
  (forall label files x y z w c' w',
     pc (label, files) (mk_counts x y z) w = (Ok c', w') ->
     exists tr va te,
       split files = Ok (tr, va, te)
       /\ c' = mk_counts (x + length tr) (y + length va) (z + length te)) ->
  forall fbc x y z w c' w',
    for_each fbc pc (mk_counts x y z) w = (Ok c', w') ->
    exists pl,
      plan split fbc = Ok pl
      /\ c' = mk_counts (x + planned "train" pl) (y + planned "val" pl)
                        (z + planned "test" pl).
Proof.
  intros Hpc. induction fbc as [|[label files] fbc IH]; intros x y z w c' w'.
  - cbn [for_each]. intros [= <- <-]. exists []. split; [done|].
    cbn. by rewrite !Nat.add_0_r.
  - cbn [for_each]. unfold bindM at 1.
    destruct (pc (label, files) (mk_counts x y z) w) as [[c1|e] w1] eqn:E1; [|done].
    apply Hpc in E1 as (tr & va & te & Hs & ->). intros Hf.
    apply IH in Hf as (ps & Hp & ->).
    cbn [plan]. unfold plan_class. cbn [fst snd]. rewrite Hs.
    cbn [mbind result_bind Py.bind]. rewrite Hp. cbn [mbind result_bind Py.bind].
    eexists. split; [reflexivity|].
    rewrite !planned_app, !planned_map.
    repeat match goal with
           | |- context [decide (?u = ?v)] =>
               destruct (decide (u = v)); try discriminate; try congruence
           end.
    f_equal; lia.
Qed.

Lemma plan_each (split : list Path -> result (list Path * list Path * list Path)) fbc pl :
  plan split fbc = Ok pl ->
  Forall (fun kv => exists s, split (snd kv) = Ok s) fbc.
Proof.
  revert pl. induction fbc as [|kv fbc IH]; intros pl Hp; [constructor|].
  cbn [plan] in Hp. apply bind_Ok in Hp as (p & Hc & Hp).
  apply bind_Ok in Hp as (ps & Hps & _).
  unfold plan_class in Hc. apply bind_Ok in Hc as (s & Hs & _).
  constructor; [by exists s|by eapply IH].
Qed.

Section Runs.
Context {rng : Type} (Random : Z -> rng) (randbelow : nat -> rng -> nat * rng).

Lemma images_place_counts h a out label s src c w c' w' :
  Images.place h a out label s src c w = (Ok c', w') -> incr c s = Ok c'.
Proof.
  unfold Images.place, bindM at 1, lift. destruct (incr c s) as [c1|e]; [|done].
  destruct (Images.dry_run a); [by intros [= <- <-]|].
  unfold bindM. destruct (Images.resize_and_save _ _ _ _ _ _) as [[u|e] w1]; [|done].
  by intros [= <- <-].
Qed.

Lemma videos_place_counts h a out b label s src c w c' w' :
  Videos.place h a out b label s src c w = (Ok c', w') -> incr c s = Ok c'.
Proof.
  unfold Videos.place, bindM at 1, lift. destruct (incr c s) as [c1|e]; [|done].
  destruct (Videos.dry_run a); [by intros [= <- <-]|].
  destruct b; unfold bindM.
  - destruct (Videos.reencode_with_ffmpeg _ _ _ _ _ _ _) as [[ok|e] w1]; [|done].
    destruct (_ w1) as [[u|e] w2]; [|done]. by intros [= <- <-].
  - destruct (Videos.reencode_with_opencv _ _ _ _ _ _ _) as [[ok|e] w1]; [|done].
    destruct (_ w1) as [[u|e] w2]; [|done]. by intros [= <- <-].
Qed.

Lemma images_place_class_counted h a out label files x y z w c' w' :
  Images.place_class rng Random randbelow h a out (label, files) (mk_counts x y z) w
    = (Ok c', w') ->
  exists tr va te,
    Images.split_list rng Random randbelow files [f0_7; f0_2; f0_1] (Images.seed a)
      = Ok (tr, va, te)
    /\ c' = mk_counts (x + length tr) (y + length va) (z + length te).
Proof.
  unfold Images.place_class, bindM at 1, lift.
  destruct (Images.split_list _ _ _ _ _ _) as [[[tr va] te]|e]; [|done].
  intros H. exists tr, va, te. split; [done|].
  apply (class_counted (fun s => Images.place h a out label s)) in H; [done|].
  intros. by eapply images_place_counts.
Qed.

Lemma videos_place_class_counted h a out b label files x y z w c' w' :
  Videos.place_class rng Random randbelow h a out b (label, files) (mk_counts x y z) w
    = (Ok c', w') ->
  exists tr va te,
    Videos.split_list rng Random randbelow files [f0_7; f0_2; f0_1] (Videos.seed a)
      = Ok (tr, va, te)
    /\ c' = mk_counts (x + length tr) (y + length va) (z + length te).
Proof.
  unfold Videos.place_class, bindM at 1, lift.
  destruct (Videos.split_list _ _ _ _ _ _) as [[[tr va] te]|e]; [|done].
  intros H. exists tr, va, te. split; [done|].
  apply (class_counted (fun s => Videos.place h a out b label s)) in H; [done|].
  intros. by eapply videos_place_counts.
Qed.

Lemma images_main_counted h a w c :
  fst (Images.main rng Random randbelow h a w) = Ok c ->
  exists t fbc pl,
    src_tree h = Some t
    /\ Images.gather_image_files (parse (Images.src_root a)) t = Ok fbc
    /\ plan (fun l => Images.split_list rng Random randbelow l [f0_7; f0_2; f0_1]
                        (Images.seed a)) fbc = Ok pl
    /\ c = mk_counts (planned "train" pl) (planned "val" pl) (planned "test" pl).
Proof.
  unfold Images.main. destruct (src_tree h) as [t|]; [|done].
  unfold bindM at 1, print at 1, emit. unfold bindM at 1, lift.
  destruct (Images.gather_image_files _ t) as [fbc|e] eqn:Hg; [|done].
  unfold bindM at 1, print at 1, emit. unfold bindM at 1.
  change counts0 with (mk_counts 0 0 0).
  destruct (for_each fbc _ _ _) as [[c1|e] w1] eqn:Ef; [|done].
  apply (classes_counted _ (fun l => Images.split_list rng Random randbelow l
                                       [f0_7; f0_2; f0_1] (Images.seed a))) in Ef
    as (pl & Hp & ->).
  - cbn. intros E. exists t, fbc, pl. by injection E as <-.
  - intros label files x y z w0 c' w'. apply images_place_class_counted.
Qed.

Lemma videos_main_counted h a w c :
  fst (Videos.main rng Random randbelow h a w) = Ok c ->
  exists t fbc pl,
    src_tree h = Some t
    /\ Videos.gather_video_files (parse (Videos.src_root a)) t = Ok fbc
    /\ plan (fun l => Videos.split_list rng Random randbelow l [f0_7; f0_2; f0_1]
                        (Videos.seed a)) fbc = Ok pl
    /\ c = mk_counts (planned "train" pl) (planned "val" pl) (planned "test" pl).
Proof.
  unfold Videos.main. destruct (src_tree h) as [t|]; [|done].
  unfold bindM at 1, lift.
  destruct (Videos.gather_video_files _ t) as [fbc|e] eqn:Hg; [|done].
  unfold bindM at 1, print at 1, emit. unfold bindM at 1.
  destruct (Videos.ffmpeg_available h _) as [[b|e] w0]; [|done].
  unfold bindM at 1, print at 1, emit. unfold bindM at 1.
  change counts0 with (mk_counts 0 0 0).
  destruct (for_each fbc _ _ _) as [[c1|e] w1] eqn:Ef; [|done].
  apply (classes_counted _ (fun l => Videos.split_list rng Random randbelow l
                                       [f0_7; f0_2; f0_1] (Videos.seed a))) in Ef
    as (pl & Hp & ->).
  - cbn. intros E. exists t, fbc, pl. by injection E as <-.
  - intros label files x y z w2 c' w'. apply videos_place_class_counted.
Qed.

(** X9.  The counters count planned items, not successes: whenever a run
    of either script returns, dry or not and whatever the transforms did,
    the source tree was collected, the plan was computed, and the counter of
    each split is the number of plan entries for that split. *)
Theorem completed_run_counts_plan h (ai : Images.args) (av : Videos.args) w :
  (forall c,
     fst (Images.main rng Random randbelow h ai w) = Ok c ->
     exists t fbc pl,
       src_tree h = Some t
       /\ Images.gather_image_files (parse (Images.src_root ai)) t = Ok fbc
       /\ plan (fun l => Images.split_list rng Random randbelow l [f0_7; f0_2; f0_1]
                           (Images.seed ai)) fbc = Ok pl
       /\ c = mk_counts (planned "train" pl) (planned "val" pl) (planned "test" pl))
  /\ (forall c,
        fst (Videos.main rng Random randbelow h av w) = Ok c ->
        exists t fbc pl,
          src_tree h = Some t
          /\ Videos.gather_video_files (parse (Videos.src_root av)) t = Ok fbc
          /\ plan (fun l => Videos.split_list rng Random randbelow l [f0_7; f0_2; f0_1]
                              (Videos.seed av)) fbc = Ok pl
          /\ c = mk_counts (planned "train" pl) (planned "val" pl) (planned "test" pl)).
Proof.
  split; intros c; [apply images_main_counted|apply videos_main_counted].
Qed.
End Runs.

Lemma only_print P m : raises_only P (print m).
Proof. apply only_emit. Qed.

Section Isolation.
Context {rng : Type} (Random : Z -> rng) (randbelow : nat -> rng -> nat * rng).


Lemma images_place_only h a out label s src c :
  pil_raises_exceptions h ->
  s ∈ ["train"; "val"; "test"] -> three_counts c ->
  raises_only is_OSError (Images.place h a out label s src c).
Proof.
  intros Hp Hs Hc. unfold Images.place.
  destruct (incr_three c s Hc Hs) as (c1 & -> & _).
  apply only_bind; [by apply only_lift|]. intros c2.
  destruct (Images.dry_run a); [apply only_ret|].
  apply only_bind; [by apply images_resize_only|]. intros _. apply only_ret.
Qed.

Lemma videos_place_ffmpeg_only h a out label s src c :
  (forall src, ffmpeg_encode h src <> NotStarted) ->
  s ∈ ["train"; "val"; "test"] -> three_counts c ->
  raises_only is_OSError (Videos.place h a out true label s src c).
Proof.
  intros Hp Hs Hc. unfold Videos.place.
  destruct (incr_three c s Hc Hs) as (c1 & -> & _).
  apply only_bind; [by apply only_lift|]. intros c2.
  destruct (Videos.dry_run a); [apply only_ret|].
  apply only_bind; [by apply videos_ffmpeg_only|]. intros ok.
  apply only_bind; [|intros _; apply only_ret].
  destruct (negb ok); [apply only_print|apply only_ret].
Qed.

(** The loop over the classes, for a class body made of the split and the
    three item loops. *)
Lemma classes_only (P : exn -> Prop)
    (body : string -> string -> Path -> gmap string nat -> M (gmap string nat))
    (split : list Path -> result (list Path * list Path * list Path))
    (pc : string * list Path -> gmap string nat -> M (gmap string nat))
    (fbc : list (string * list Path)) pl :
  (forall label files counts,
     pc (label, files) counts
     = (let* s := lift (split files) in
        let '(tr, va, te) := s in
        for_each [("train", tr); ("val", va); ("test", te)]
          (fun '(split_name, items) => for_each items (body label split_name))
          counts)) ->
  (forall label s src c w c' w', body label s src c w = (Ok c', w') -> incr c s = Ok c') ->
  (forall label s src c, s ∈ ["train"; "val"; "test"] -> three_counts c ->
                         raises_only P (body label s src c)) ->
  plan split fbc = Ok pl ->
  raises_only P (for_each fbc pc counts0).
Proof.
  intros Hpc Hc Ho Hp. apply plan_each in Hp. rewrite Forall_forall in Hp.
  apply (only_for_each P three_counts); [|by exists O, O, O].
  intros [label files] c Hin H3. destruct (Hp _ Hin) as ([[tr va] te] & Hs).
  cbn [snd] in Hs. rewrite Hpc. split.
  - unfold bindM at 1, lift. rewrite Hs.
    apply (class_only (body label)); [apply Hc| |done].
    intros. by apply Ho.
  - intros w c' w'. unfold bindM at 1, lift. rewrite Hs.
    destruct H3 as (x & y & z & ->). intros H.
    apply (class_counted (body label)) in H; [|apply Hc]. subst c'. by eexists _, _, _.
Qed.

Lemma images_classes_only h a out fbc pl :
  pil_raises_exceptions h ->
  plan (fun l => Images.split_list rng Random randbelow l [f0_7; f0_2; f0_1] (Images.seed a))
       fbc = Ok pl ->
  raises_only is_OSError (for_each fbc (Images.place_class rng Random randbelow h a out) counts0).
Proof.
  intros Hpil Hp.
  apply (classes_only is_OSError (fun label s => Images.place h a out label s)
           (fun l => Images.split_list rng Random randbelow l [f0_7; f0_2; f0_1]
                       (Images.seed a)) _ fbc pl); [done| | |done].
  - intros. by eapply images_place_counts.
  - intros. by apply images_place_only.
Qed.

Lemma videos_classes_ffmpeg_only h a out fbc pl :
  (forall src, ffmpeg_encode h src <> NotStarted) ->
  plan (fun l => Videos.split_list rng Random randbelow l [f0_7; f0_2; f0_1] (Videos.seed a))
       fbc = Ok pl ->
  raises_only is_OSError (for_each fbc (Videos.place_class rng Random randbelow h a out true) counts0).
Proof.
  intros He Hp.
  apply (classes_only is_OSError (fun label s => Videos.place h a out true label s)
           (fun l => Videos.split_list rng Random randbelow l [f0_7; f0_2; f0_1]
                       (Videos.seed a)) _ fbc pl); [done| | |done].
  - intros. by eapply videos_place_counts.
  - intros. by apply videos_place_ffmpeg_only.
Qed.

Lemma images_main_only h a t fbc pl :
  pil_raises_exceptions h ->
  src_tree h = Some t ->
  Images.gather_image_files (parse (Images.src_root a)) t = Ok fbc ->
  plan (fun l => Images.split_list rng Random randbelow l [f0_7; f0_2; f0_1] (Images.seed a))
       fbc = Ok pl ->
  raises_only is_OSError (Images.main rng Random randbelow h a).
Proof.
  intros Hpil Ht Hg Hp w e. unfold Images.main. rewrite Ht.
  unfold bindM at 1, print at 1, emit. unfold bindM at 1, lift. rewrite Hg.
  unfold bindM at 1, print at 1, emit. unfold bindM at 1.
  pose proof (images_classes_only h a (parse (Images.output_root a)) fbc pl Hpil Hp) as Ho.
  match goal with
  | |- context [for_each fbc ?pc counts0 ?w1] =>
      specialize (Ho w1); destruct (for_each fbc pc counts0 w1) as [[c|e'] w2]
  end; cbn [fst] in *; [done|].
  intros [= <-]. by apply Ho.
Qed.

Lemma videos_main_ffmpeg_only h a t fbc pl :
  ffmpeg_probe h <> NotStarted ->
  (forall src, ffmpeg_encode h src <> NotStarted) ->
  src_tree h = Some t ->
  Videos.gather_video_files (parse (Videos.src_root a)) t = Ok fbc ->
  plan (fun l => Videos.split_list rng Random randbelow l [f0_7; f0_2; f0_1] (Videos.seed a))
       fbc = Ok pl ->
  raises_only is_OSError (Videos.main rng Random randbelow h a).
Proof.
  intros Hprobe He Ht Hg Hp w e. unfold Videos.main. rewrite Ht.
  unfold bindM at 1, lift. rewrite Hg.
  unfold bindM at 1, print at 1, emit. unfold bindM at 1.
  unfold Videos.ffmpeg_available, try_except, bindM at 1, emit, raise, ret.
  destruct (ffmpeg_probe h) as [|status wrote]; [done|].
  unfold bindM at 1, print at 1, emit. unfold bindM at 1.
  pose proof (videos_classes_ffmpeg_only h a (parse (Videos.output_root a)) fbc pl He Hp) as Ho.
  match goal with
  | |- context [for_each fbc ?pc counts0 ?w1] =>
      specialize (Ho w1); destruct (for_each fbc pc counts0 w1) as [[c|e'] w2]
  end; cbn [fst] in *; [done|].
  intros [= <-]. by apply Ho.
Qed.

End Isolation.


Lemma printed_app t1 t2 : printed (t1 ++ t2) = printed t1 ++ printed t2.
Proof. unfold printed. apply omap_app. Qed.




Lemma opencv_gives_up h src dst fps width height w :
  opencv_unusable h ->
  fst (Videos.reencode_with_opencv h src dst fps width height w) = Ok false
  /\ same_fs w (snd (Videos.reencode_with_opencv h src dst fps width height w)).
Proof.
  intros Hu.
  unfold Videos.reencode_with_opencv, try_except, bindM at 1, bindM at 1, emit.
  destruct (cv2_installed h) eqn:Ei; cbn [negb ret raise is_ImportError fst snd].
  - destruct Hu as [Hu|Hu]; [congruence|].
    unfold bindM at 1, emit. cbn [fst snd]. rewrite Hu. done.
  - done.
Qed.

Section NoBackend.
Context {rng : Type} (Random : Z -> rng) (randbelow : nat -> rng -> nat * rng).

Lemma videos_place_no_backend h a out label s src c :
  opencv_unusable h ->
  steps same_fs (Videos.place h a out false label s src c)
  /\ (s ∈ ["train"; "val"; "test"] -> three_counts c ->
      raises_only never (Videos.place h a out false label s src c)).
Proof.
  intros Hu. split.
  - unfold Videos.place. step. intros w.
    apply (opencv_gives_up h src _ (Videos.fps a) (Videos.width a) (Videos.height a) w Hu).
  - intros Hs Hc. unfold Videos.place.
    destruct (incr_three c s Hc Hs) as (c1 & -> & _).
    apply only_bind; [by apply only_lift|]. intros c2.
    destruct (Videos.dry_run a); [apply only_ret|].
    apply only_bind.
    + intros w e He.
      destruct (opencv_gives_up h src (dst_path_of out s "videos" label src)
                  (Videos.fps a) (Videos.width a) (Videos.height a) w Hu) as [E _].
      rewrite E in He. done.
    + intros ok. apply only_bind; [|intros _; apply only_ret].
      destruct (negb ok); [apply only_print|apply only_ret].
Qed.

End NoBackend.


(** ** What the plan assigns and what a run writes *)

Lemma plan_assigns (split : list Path -> result (list Path * list Path * list Path)) fbc :
  Forall (fun kv => exists tr va te,
            split (snd kv) = Ok (tr, va, te) /\ tr ++ va ++ te ≡ₚ snd kv) fbc ->
  exists pl,
    plan split fbc = Ok pl
    /\ plan_items pl ≡ₚ collected_items fbc
    /\ Forall (fun e => snd (fst e) ∈ ["train"; "val"; "test"]) pl.
Proof.
  induction 1 as [|[label files] fbc (tr & va & te & Hs & P) _ (pl & Hp & Hi & Hk)].
  - exists []. split; [done|]. split; [done|constructor].
  - cbn [plan]. unfold plan_class. cbn [snd fst] in *. rewrite Hs.
    cbn [mbind result_bind Py.bind]. rewrite Hp. cbn [mbind result_bind Py.bind].
    eexists. split; [reflexivity|]. split.
    + unfold plan_items, collected_items in *. cbn [flat_map fst snd].
      rewrite !map_app, !map_map. cbn [fst snd].
      rewrite <- !map_app, Hi. apply Permutation_app_tail.
      by apply Permutation_map.
    + repeat (apply Forall_app; split); [| | |done];
        apply Forall_fmap, Forall_true; intros p; cbn [fst snd].
      * by left.
      * right. by left.
      * right. right. by left.
Qed.

Section Plan.
Context {rng : Type} (Random : Z -> rng) (randbelow : nat -> rng -> nat * rng).

(** X14.  The three nested loops of [main] visit every collected file
    once: for classes of at most [sys.maxsize] files, the plan is computed,
    it is the same for both scripts, its (class, file) pairs are the
    collected ones, each as often as it was collected, and every entry has
    one of the three splits. *)
Theorem plan_assigns_each_file_once (fbc : list (string * list Path)) seed :
  randbelow_in_range randbelow ->
  Forall (fun kv => Z.of_nat (length (snd kv)) <= PY_SSIZE_T_MAX) fbc ->
  exists pl,
    plan (fun l => Images.split_list rng Random randbelow l [f0_7; f0_2; f0_1] seed) fbc
      = Ok pl
    /\ plan (fun l => Videos.split_list rng Random randbelow l [f0_7; f0_2; f0_1] seed) fbc
       = Ok pl
    /\ plan_items pl ≡ₚ collected_items fbc
    /\ Forall (fun e => snd (fst e) ∈ ["train"; "val"; "test"]) pl.
Proof.
  intros Hr Hn.
  destruct (plan_assigns
              (fun l => Videos.split_list rng Random randbelow l [f0_7; f0_2; f0_1] seed) fbc)
    as (pl & Hp & Hi & Hk).
  { eapply Forall_impl; [exact Hn|]. intros kv Hkv. cbn beta in *.
    by apply videos_split_list_partition. }
  exists pl. split; [|done].
  rewrite <- Hp. clear. induction fbc as [|kv fbc IH]; [done|].
  cbn [plan]. unfold plan_class. rewrite (images_split_list_eq Random randbelow), IH. done.
Qed.
End Plan.

Lemma plan_assigns_each_file_once_witness :
  randbelow_in_range MT19937.randbelow
  /\ Forall (fun kv => Z.of_nat (length (snd kv)) <= PY_SSIZE_T_MAX) Scenario.files_C
  /\ exists pl,
       plan (fun l => Images.split_list _ MT19937.Random MT19937.randbelow l
                        [f0_7; f0_2; f0_1] 42) Scenario.files_C = Ok pl
       /\ plan (fun l => Videos.split_list _ MT19937.Random MT19937.randbelow l
                           [f0_7; f0_2; f0_1] 42) Scenario.files_C = Ok pl
       /\ plan_items pl ≡ₚ collected_items Scenario.files_C
       /\ Forall (fun e => snd (fst e) ∈ ["train"; "val"; "test"]) pl.
Proof.
  assert (B : Forall (fun kv => Z.of_nat (length (snd kv)) <= PY_SSIZE_T_MAX)
                Scenario.files_C)
    by (repeat constructor; vm_compute; discriminate).
  split; [exact MT_randbelow_in_range|]. split; [exact B|].
  exact (plan_assigns_each_file_once MT19937.Random MT19937.randbelow
           Scenario.files_C 42 MT_randbelow_in_range B).
Defined.


Section Writes.
Variable dst : string -> string -> Path -> Path.
Variable body : string -> string -> Path -> gmap string nat -> M (gmap string nat).
(** A loop body that, when it returns, has written its destination and
    nothing else. *)
Hypothesis body_writes :
  forall label s src c w c' w',
    body label s src c w = (Ok c', w') ->
    forall p, p ∈ fs_files w' <-> p ∈ fs_files w \/ p = dst label s src.

Lemma items_written label s items :
  forall c w c' w',
    for_each items (body label s) c w = (Ok c', w') ->
    forall p, p ∈ fs_files w' <-> p ∈ fs_files w \/ p ∈ map (dst label s) items.
Proof.
  induction items as [|src items IH]; intros c w c' w'; cbn [for_each map].
  - intros [= <- <-] p. rewrite elem_of_nil. tauto.
  - unfold bindM. destruct (body label s src c w) as [[c1|e] w1] eqn:Eb; [|done].
    intros Hf p. rewrite (IH _ _ _ _ Hf p), (body_writes _ _ _ _ _ _ _ Eb p), elem_of_cons.
    tauto.
Qed.

Lemma class_written label (tr va te : list Path) c w c' w' :
  for_each [("train", tr); ("val", va); ("test", te)]
    (fun '(split_name, items) => for_each items (body label split_name)) c w
    = (Ok c', w') ->
  forall p, p ∈ fs_files w'
            <-> p ∈ fs_files w
                \/ p ∈ map (dst label "train") tr ++ map (dst label "val") va
                       ++ map (dst label "test") te.
Proof.
  cbn [for_each]. unfold bindM.
  destruct (for_each tr (body label "train") c w) as [[c1|e] w1] eqn:E1; [|done].
  destruct (for_each va (body label "val") c1 w1) as [[c2|e] w2] eqn:E2; [|done].
  destruct (for_each te (body label "test") c2 w2) as [[c3|e] w3] eqn:E3; [|done].
  intros [= <- <-] p.
  rewrite (items_written _ _ _ _ _ _ _ E3 p), (items_written _ _ _ _ _ _ _ E2 p),
    (items_written _ _ _ _ _ _ _ E1 p), !elem_of_app.
  tauto.
Qed.

Lemma classes_written
    (split : list Path -> result (list Path * list Path * list Path))
    (pc : string * list Path -> gmap string nat -> M (gmap string nat)) :
  (forall label files counts,
     pc (label, files) counts
     = (let* s := lift (split files) in
        let '(tr, va, te) := s in
        for_each [("train", tr); ("val", va); ("test", te)]
          (fun '(split_name, items) => for_each items (body label split_name))
          counts)) ->
  forall fbc c w c' w',
    for_each fbc pc c w = (Ok c', w') ->
    exists pl,
      plan split fbc = Ok pl
      /\ forall p, p ∈ fs_files w'
                   <-> p ∈ fs_files w
                       \/ p ∈ map (fun e => dst (fst (fst e)) (snd (fst e)) (snd e)) pl.
Proof.
  intros Hpc. induction fbc as [|[label files] fbc IH]; intros c w c' w'.
  - cbn [for_each]. intros [= <- <-]. exists []. split; [done|].
    intros p. cbn [map]. rewrite elem_of_nil. tauto.
  - cbn [for_each]. unfold bindM at 1. rewrite Hpc. unfold bindM at 1, lift.
    destruct (split files) as [[[tr va] te]|e] eqn:Hs; [|done].
    destruct (for_each _ _ c w) as [[c1|e] w1] eqn:E1; [|done].
    intros Hf. apply IH in Hf as (ps & Hp & Hw).
    cbn [plan]. unfold plan_class. cbn [fst snd]. rewrite Hs.
    cbn [mbind result_bind Py.bind]. rewrite Hp. cbn [mbind result_bind Py.bind].
    eexists. split; [reflexivity|]. intros p.
    rewrite (Hw p), (class_written _ _ _ _ _ _ _ _ E1 p).
    rewrite !map_app, !map_map. cbn [fst snd]. rewrite !elem_of_app. tauto.
Qed.
End Writes.

Lemma mkdir_p_files h d w u w' :
  mkdir_p h d w = (Ok u, w') -> fs_files w' = fs_files w.
Proof.
  unfold mkdir_p. destruct (_ || _); [done|]. by intros [= _ <-].
Qed.

Lemma images_place_writes h a out label s src c w c' w' :
  Images.dry_run a = false -> (forall src, pil h src = Saved) ->
  Images.place h a out label s src c w = (Ok c', w') ->
  forall p, p ∈ fs_files w' <-> p ∈ fs_files w \/ p = dst_path_of out s "images" label src.
Proof.
  intros Hd Hp. unfold Images.place, bindM at 1, lift.
  destruct (incr c s) as [c1|e]; [|done]. rewrite Hd.
  unfold bindM at 1, Images.resize_and_save, bindM at 1.
  destruct (mkdir_p h _ w) as [[u|e] w1] eqn:Em; [|done].
  apply mkdir_p_files in Em.
  unfold try_except, bindM, emit, write_file, ret. rewrite Hp.
  cbn [fs_files fs_dirs trace]. intros [= _ <-] p. cbn [fs_files].
  rewrite Em, list_elem_of_union, list_elem_of_singleton. tauto.
Qed.

Lemma videos_place_writes h a out label s src c w c' w' :
  Videos.dry_run a = false -> (forall src, ffmpeg_encode h src = Exited 0 true) ->
  Videos.place h a out true label s src c w = (Ok c', w') ->
  forall p, p ∈ fs_files w' <-> p ∈ fs_files w \/ p = dst_path_of out s "videos" label src.
Proof.
  intros Hd Hp. unfold Videos.place, bindM at 1, lift.
  destruct (incr c s) as [c1|e]; [|done]. rewrite Hd.
  unfold bindM at 1, bindM at 1, Videos.reencode_with_ffmpeg, bindM at 1.
  destruct (mkdir_p h _ w) as [[u|e] w1] eqn:Em; [|done].
  apply mkdir_p_files in Em.
  unfold try_except, bindM, emit, write_file, ret. rewrite Hp.
  cbn [fs_files fs_dirs trace Z.eqb negb]. intros [= _ <-] p. cbn [fs_files].
  rewrite Em, list_elem_of_union, list_elem_of_singleton. tauto.
Qed.

Section Completed.
Context {rng : Type} (Random : Z -> rng) (randbelow : nat -> rng -> nat * rng).

Lemma images_main_writes h (a : Images.args) w c w' :
  Images.dry_run a = false -> (forall src, pil h src = Saved) ->
  Images.main rng Random randbelow h a w = (Ok c, w') ->
  exists t fbc pl,
    src_tree h = Some t
    /\ Images.gather_image_files (parse (Images.src_root a)) t = Ok fbc
    /\ plan (fun l => Images.split_list rng Random randbelow l [f0_7; f0_2; f0_1]
                        (Images.seed a)) fbc = Ok pl
    /\ forall p,
         p ∈ fs_files w'
         <-> p ∈ fs_files w
             \/ p ∈ plan_destinations (parse (Images.output_root a)) "images" pl.
Proof.
  intros Hd Hp. unfold Images.main. destruct (src_tree h) as [t|]; [|done].
  unfold bindM at 1, print at 1, emit. unfold bindM at 1, lift.
  destruct (Images.gather_image_files _ t) as [fbc|e] eqn:Hg; [|done].
  unfold bindM at 1, print at 1, emit. unfold bindM at 1.
  destruct (for_each fbc _ _ _) as [[c1|e] w1] eqn:Ef; [|done].
  apply (classes_written
           (fun label s src => dst_path_of (parse (Images.output_root a)) s "images" label src)
           (fun label s => Images.place h a (parse (Images.output_root a)) label s)
           ltac:(intros; by eapply images_place_writes)
           (fun l => Images.split_list rng Random randbelow l [f0_7; f0_2; f0_1]
                       (Images.seed a))) in Ef as (pl & Hpl & Hw); [|done].
  unfold bindM, print, emit, ret. intros [= _ <-].
  exists t, fbc, pl. split; [done|]. split; [done|]. split; [done|].
  intros p. cbn [fs_files] in *. apply Hw.
Qed.

Lemma videos_main_writes h (a : Videos.args) w c w' :
  Videos.dry_run a = false -> (forall src, ffmpeg_encode h src = Exited 0 true) ->
  ffmpeg_probe h <> NotStarted ->
  Videos.main rng Random randbelow h a w = (Ok c, w') ->
  exists t fbc pl,
    src_tree h = Some t
    /\ Videos.gather_video_files (parse (Videos.src_root a)) t = Ok fbc
    /\ plan (fun l => Videos.split_list rng Random randbelow l [f0_7; f0_2; f0_1]
                        (Videos.seed a)) fbc = Ok pl
    /\ forall p,
         p ∈ fs_files w'
         <-> p ∈ fs_files w
             \/ p ∈ plan_destinations (parse (Videos.output_root a)) "videos" pl.
Proof.
  intros Hd Hp Hprobe. unfold Videos.main. destruct (src_tree h) as [t|]; [|done].
  unfold bindM at 1, lift.
  destruct (Videos.gather_video_files _ t) as [fbc|e] eqn:Hg; [|done].
  unfold bindM at 1, print at 1, emit. unfold bindM at 1.
  unfold Videos.ffmpeg_available, try_except, bindM at 1, emit, raise, ret.
  destruct (ffmpeg_probe h) as [|status wrote]; [done|].
  unfold bindM at 1, print at 1, emit. unfold bindM at 1.
  destruct (for_each fbc _ _ _) as [[c1|e] w1] eqn:Ef; [|done].
  apply (classes_written
           (fun label s src => dst_path_of (parse (Videos.output_root a)) s "videos" label src)
           (fun label s => Videos.place h a (parse (Videos.output_root a)) true label s)
           ltac:(intros; by eapply videos_place_writes)
           (fun l => Videos.split_list rng Random randbelow l [f0_7; f0_2; f0_1]
                       (Videos.seed a))) in Ef as (pl & Hpl & Hw); [|done].
  unfold bindM, print, emit, ret. intros [= _ <-].
  exists t, fbc, pl. split; [done|]. split; [done|]. split; [done|].
  intros p. cbn [fs_files] in *. apply Hw.
Qed.

(** X15.  What a run that returns has written.  On a host where every
    image is saved, a run of the image script without [--dry_run] that
    returns leaves exactly the files that were there before and the
    destinations of its plan; so does the video script on a host where
    ffmpeg starts and encodes every video. *)
Theorem completed_run_writes_the_plan h (ai : Images.args) (av : Videos.args) w :
  Images.dry_run ai = false -> Videos.dry_run av = false ->
  (forall src, pil h src = Saved) ->
  ffmpeg_probe h <> NotStarted ->
  (forall src, ffmpeg_encode h src = Exited 0 true) ->
  (forall c w',
     Images.main rng Random randbelow h ai w = (Ok c, w') ->
     exists t fbc pl,
       src_tree h = Some t
       /\ Images.gather_image_files (parse (Images.src_root ai)) t = Ok fbc
       /\ plan (fun l => Images.split_list rng Random randbelow l [f0_7; f0_2; f0_1]
                           (Images.seed ai)) fbc = Ok pl
       /\ forall p,
            p ∈ fs_files w'
            <-> p ∈ fs_files w
                \/ p ∈ plan_destinations (parse (Images.output_root ai)) "images" pl)
  /\ (forall c w',
        Videos.main rng Random randbelow h av w = (Ok c, w') ->
        exists t fbc pl,
          src_tree h = Some t
          /\ Videos.gather_video_files (parse (Videos.src_root av)) t = Ok fbc
          /\ plan (fun l => Videos.split_list rng Random randbelow l [f0_7; f0_2; f0_1]
                              (Videos.seed av)) fbc = Ok pl
          /\ forall p,
               p ∈ fs_files w'
               <-> p ∈ fs_files w
                   \/ p ∈ plan_destinations (parse (Videos.output_root av)) "videos" pl).
Proof.
  intros Di Dv Hp Hprobe He. split.
  - intros c w'. by apply images_main_writes.
  - intros c w'. by apply videos_main_writes.
Qed.
End Completed.

Lemma completed_run_writes_the_plan_witness :
  Images.dry_run Cases.args_images = false /\ Videos.dry_run Cases.args_videos = false
  /\ (forall src, pil (Scenario.good_host Scenario.tree_C) src = Saved)
  /\ ffmpeg_probe (Scenario.good_host Scenario.tree_C) <> NotStarted
  /\ (forall src, ffmpeg_encode (Scenario.good_host Scenario.tree_C) src = Exited 0 true)
  /\ (forall c w',
        Images.main _ MT19937.Random MT19937.randbelow
          (Scenario.good_host Scenario.tree_C) Cases.args_images Scenario.world0
        = (Ok c, w') ->
        exists t fbc pl,
          src_tree (Scenario.good_host Scenario.tree_C) = Some t
          /\ Images.gather_image_files (parse (Images.src_root Cases.args_images)) t
             = Ok fbc
          /\ plan (fun l => Images.split_list _ MT19937.Random MT19937.randbelow l
                              [f0_7; f0_2; f0_1] (Images.seed Cases.args_images)) fbc
             = Ok pl
          /\ forall p,
               p ∈ fs_files w'
               <-> p ∈ fs_files Scenario.world0
                   \/ p ∈ plan_destinations (parse (Images.output_root Cases.args_images))
                            "images" pl)
  /\ (forall c w',
        Videos.main _ MT19937.Random MT19937.randbelow
          (Scenario.good_host Scenario.tree_C) Cases.args_videos Scenario.world0
        = (Ok c, w') ->
        exists t fbc pl,
          src_tree (Scenario.good_host Scenario.tree_C) = Some t
          /\ Videos.gather_video_files (parse (Videos.src_root Cases.args_videos)) t
             = Ok fbc
          /\ plan (fun l => Videos.split_list _ MT19937.Random MT19937.randbelow l
                              [f0_7; f0_2; f0_1] (Videos.seed Cases.args_videos)) fbc
             = Ok pl
          /\ forall p,
               p ∈ fs_files w'
               <-> p ∈ fs_files Scenario.world0
                   \/ p ∈ plan_destinations (parse (Videos.output_root Cases.args_videos))
                            "videos" pl).
Proof.
  assert (F : ffmpeg_probe (Scenario.good_host Scenario.tree_C) <> NotStarted)
    by discriminate.
  split; [reflexivity|]. split; [reflexivity|]. split; [reflexivity|].
  split; [exact F|]. split; [reflexivity|].
  exact (completed_run_writes_the_plan MT19937.Random MT19937.randbelow
           (Scenario.good_host Scenario.tree_C) Cases.args_images Cases.args_videos
           Scenario.world0 eq_refl eq_refl (fun _ => eq_refl) F (fun _ => eq_refl)).
Defined.

Section Attempts.
Variable f : event -> option Path.
Variable body : string -> string -> Path -> gmap string nat -> M (gmap string nat).
(** A loop body that, when it returns, has made one attempt, on its item. *)
Hypothesis body_attempts :
  forall label s src c w c' w',
    body label s src c w = (Ok c', w') ->
    omap f (trace w') = omap f (trace w) ++ [src].

Lemma items_attempted label s items :
  forall c w c' w',
    for_each items (body label s) c w = (Ok c', w') ->
    omap f (trace w') = omap f (trace w) ++ items.
Proof.
  induction items as [|src items IH]; intros c w c' w'; cbn [for_each].
  - intros [= <- <-]. by rewrite app_nil_r.
  - unfold bindM. destruct (body label s src c w) as [[c1|e] w1] eqn:Eb; [|done].
    intros Hf. rewrite (IH _ _ _ _ Hf), (body_attempts _ _ _ _ _ _ _ Eb).
    by rewrite <- app_assoc.
Qed.

Lemma class_attempted label (tr va te : list Path) c w c' w' :
  for_each [("train", tr); ("val", va); ("test", te)]
    (fun '(split_name, items) => for_each items (body label split_name)) c w
    = (Ok c', w') ->
  omap f (trace w') = omap f (trace w) ++ tr ++ va ++ te.
Proof.
  cbn [for_each]. unfold bindM.
  destruct (for_each tr (body label "train") c w) as [[c1|e] w1] eqn:E1; [|done].
  destruct (for_each va (body label "val") c1 w1) as [[c2|e] w2] eqn:E2; [|done].
  destruct (for_each te (body label "test") c2 w2) as [[c3|e] w3] eqn:E3; [|done].
  intros [= <- <-].
  rewrite (items_attempted _ _ _ _ _ _ _ E3), (items_attempted _ _ _ _ _ _ _ E2),
    (items_attempted _ _ _ _ _ _ _ E1).
  by rewrite <- !app_assoc.
Qed.

Lemma classes_attempted
    (split : list Path -> result (list Path * list Path * list Path))
    (pc : string * list Path -> gmap string nat -> M (gmap string nat)) :
  (forall label files counts,
     pc (label, files) counts
     = (let* s := lift (split files) in
        let '(tr, va, te) := s in
        for_each [("train", tr); ("val", va); ("test", te)]
          (fun '(split_name, items) => for_each items (body label split_name))
          counts)) ->
  forall fbc c w c' w',
    for_each fbc pc c w = (Ok c', w') ->
    exists pl,
      plan split fbc = Ok pl
      /\ omap f (trace w') = omap f (trace w) ++ map snd pl.
Proof.
  intros Hpc. induction fbc as [|[label files] fbc IH]; intros c w c' w'.
  - cbn [for_each]. intros [= <- <-]. exists []. split; [done|].
    by rewrite app_nil_r.
  - cbn [for_each]. unfold bindM at 1. rewrite Hpc. unfold bindM at 1, lift.
    destruct (split files) as [[[tr va] te]|e] eqn:Hs; [|done].
    destruct (for_each _ _ c w) as [[c1|e] w1] eqn:E1; [|done].
    intros Hf. apply IH in Hf as (ps & Hp & Hw).
    cbn [plan]. unfold plan_class. cbn [fst snd]. rewrite Hs.
    cbn [mbind result_bind Py.bind]. rewrite Hp. cbn [mbind result_bind Py.bind].
    eexists. split; [reflexivity|].
    rewrite Hw, (class_attempted _ _ _ _ _ _ _ _ E1).
    rewrite !map_app, !map_map. cbn [snd]. rewrite !map_id.
    by rewrite <- !app_assoc.
Qed.
End Attempts.

Lemma mkdir_p_trace h d w u w' :
  mkdir_p h d w = (Ok u, w') -> trace w' = trace w ++ [Mkdir d].
Proof.
  unfold mkdir_p. destruct (_ || _); [done|]. by intros [= _ <-].
Qed.

Lemma images_place_attempts h a out label s src c w c' w' :
  Images.dry_run a = false ->
  Images.place h a out label s src c w = (Ok c', w') ->
  opened (trace w') = opened (trace w) ++ [src].
Proof.
  intros Hd. unfold Images.place, bindM at 1, lift.
  destruct (incr c s) as [c1|e]; [|done]. rewrite Hd.
  unfold bindM at 1, Images.resize_and_save, bindM at 1.
  destruct (mkdir_p h _ w) as [[u|e] w1] eqn:Em; [|done].
  apply mkdir_p_trace in Em.
  unfold try_except, bindM, emit, write_file, print, emit, raise, ret.
  cbn [fs_files fs_dirs trace].
  destruct (pil h src) as [|e|e]; cbn [fs_files fs_dirs trace].
  - intros [= _ <-]. cbn [trace]. rewrite Em. unfold opened.
    rewrite !omap_app. cbn [omap]. by rewrite !app_nil_r.
  - destruct (is_Exception e); [|done]. intros [= _ <-]. cbn [trace]. rewrite Em.
    unfold opened. rewrite !omap_app. cbn [omap]. by rewrite !app_nil_r.
  - destruct (is_Exception e); [|done]. intros [= _ <-]. cbn [trace]. rewrite Em.
    unfold opened. rewrite !omap_app. cbn [omap]. by rewrite !app_nil_r.
Qed.

Lemma videos_place_attempts h a out label s src c w c' w' :
  Videos.dry_run a = false ->
  Videos.place h a out true label s src c w = (Ok c', w') ->
  encoded (trace w') = encoded (trace w) ++ [src].
Proof.
  intros Hd. unfold Videos.place, bindM at 1, lift.
  destruct (incr c s) as [c1|e]; [|done]. rewrite Hd.
  unfold bindM at 1, bindM at 1, Videos.reencode_with_ffmpeg, bindM at 1.
  destruct (mkdir_p h _ w) as [[u|e] w1] eqn:Em; [|done].
  apply mkdir_p_trace in Em.
  unfold try_except, bindM, emit, write_file, print, emit, raise, ret.
  cbn [fs_files fs_dirs trace].
  destruct (ffmpeg_encode h src) as [|status wrote]; cbn [is_CalledProcessError]; [done|].
  destruct wrote, (status =? 0);
    cbn [is_CalledProcessError negb fs_files fs_dirs trace];
    intros [= _ <-]; cbn [trace]; rewrite Em; unfold encoded;
    rewrite !omap_app; cbn [omap]; by rewrite !app_nil_r.
Qed.

Section Attempted.
Context {rng : Type} (Random : Z -> rng) (randbelow : nat -> rng -> nat * rng).

Lemma images_main_attempts h (a : Images.args) w c w' :
  Images.dry_run a = false ->
  Images.main rng Random randbelow h a w = (Ok c, w') ->
  exists t fbc pl,
    src_tree h = Some t
    /\ Images.gather_image_files (parse (Images.src_root a)) t = Ok fbc
    /\ plan (fun l => Images.split_list rng Random randbelow l [f0_7; f0_2; f0_1]
                        (Images.seed a)) fbc = Ok pl
    /\ opened (trace w') = opened (trace w) ++ map snd pl.
Proof.
  intros Hd. unfold Images.main. destruct (src_tree h) as [t|]; [|done].
  unfold bindM at 1, print at 1, emit. unfold bindM at 1, lift.
  destruct (Images.gather_image_files _ t) as [fbc|e] eqn:Hg; [|done].
  unfold bindM at 1, print at 1, emit. unfold bindM at 1.
  destruct (for_each fbc _ _ _) as [[c1|e] w1] eqn:Ef; [|done].
  apply (classes_attempted
           (fun e => match e with ImageOpen src => Some src | _ => None end)
           (fun label s => Images.place h a (parse (Images.output_root a)) label s)
           ltac:(intros; by eapply images_place_attempts)
           (fun l => Images.split_list rng Random randbelow l [f0_7; f0_2; f0_1]
                       (Images.seed a))) in Ef as (pl & Hpl & Hw); [|done].
  unfold bindM, print, emit, ret. intros [= _ <-].
  exists t, fbc, pl. split; [done|]. split; [done|]. split; [done|].
  unfold opened. cbn [trace] in *. rewrite !omap_app, Hw. cbn [omap].
  rewrite !omap_app. cbn [omap]. by rewrite !app_nil_r.
Qed.

Lemma videos_main_attempts h (a : Videos.args) w c w' :
  Videos.dry_run a = false -> ffmpeg_probe h <> NotStarted ->
  Videos.main rng Random randbelow h a w = (Ok c, w') ->
  exists t fbc pl,
    src_tree h = Some t
    /\ Videos.gather_video_files (parse (Videos.src_root a)) t = Ok fbc
    /\ plan (fun l => Videos.split_list rng Random randbelow l [f0_7; f0_2; f0_1]
                        (Videos.seed a)) fbc = Ok pl
    /\ encoded (trace w') = encoded (trace w) ++ map snd pl.
Proof.
  intros Hd Hprobe. unfold Videos.main. destruct (src_tree h) as [t|]; [|done].
  unfold bindM at 1, lift.
  destruct (Videos.gather_video_files _ t) as [fbc|e] eqn:Hg; [|done].
  unfold bindM at 1, print at 1, emit. unfold bindM at 1.
  unfold Videos.ffmpeg_available, try_except, bindM at 1, emit, raise, ret.
  destruct (ffmpeg_probe h) as [|status wrote]; [done|].
  unfold bindM at 1, print at 1, emit. unfold bindM at 1.
  destruct (for_each fbc _ _ _) as [[c1|e] w1] eqn:Ef; [|done].
  apply (classes_attempted
           (fun e => match e with
                     | Run (FfmpegEncode src _ _ _ _) => Some src
                     | _ => None
                     end)
           (fun label s => Videos.place h a (parse (Videos.output_root a)) true label s)
           ltac:(intros; by eapply videos_place_attempts)
           (fun l => Videos.split_list rng Random randbelow l [f0_7; f0_2; f0_1]
                       (Videos.seed a))) in Ef as (pl & Hpl & Hw); [|done].
  unfold bindM, print, emit, ret. intros [= _ <-].
  exists t, fbc, pl. split; [done|]. split; [done|]. split; [done|].
  unfold encoded. cbn [trace] in *. rewrite !omap_app, Hw. cbn [omap].
  rewrite !omap_app. cbn [omap]. by rewrite !app_nil_r.
Qed.

(** X18.  A run that returns has attempted every planned item once, in the
    order of the plan: without [--dry_run], the images the image script
    opened during the run are the items of its plan, in plan order, whether
    they could be decoded and saved or not; on a host where the probe starts
    ffmpeg, the videos the video script ran ffmpeg on are the items of its
    plan, in plan order, whatever the exit statuses were. *)
Theorem completed_run_attempts_every_item h (ai : Images.args) (av : Videos.args) w :
  Images.dry_run ai = false -> Videos.dry_run av = false ->
  ffmpeg_probe h <> NotStarted ->
  (forall c w',
     Images.main rng Random randbelow h ai w = (Ok c, w') ->
     exists t fbc pl,
       src_tree h = Some t
       /\ Images.gather_image_files (parse (Images.src_root ai)) t = Ok fbc
       /\ plan (fun l => Images.split_list rng Random randbelow l [f0_7; f0_2; f0_1]
                           (Images.seed ai)) fbc = Ok pl
       /\ opened (trace w') = opened (trace w) ++ map snd pl)
  /\ (forall c w',
        Videos.main rng Random randbelow h av w = (Ok c, w') ->
        exists t fbc pl,
          src_tree h = Some t
          /\ Videos.gather_video_files (parse (Videos.src_root av)) t = Ok fbc
          /\ plan (fun l => Videos.split_list rng Random randbelow l [f0_7; f0_2; f0_1]
                              (Videos.seed av)) fbc = Ok pl
          /\ encoded (trace w') = encoded (trace w) ++ map snd pl).
Proof.
  intros Di Dv Hprobe. split.
  - intros c w'. by apply images_main_attempts.
  - intros c w'. by apply videos_main_attempts.
Qed.
End Attempted.

Lemma completed_run_attempts_every_item_witness :
  Images.dry_run Cases.args_images = false /\ Videos.dry_run Cases.args_videos = false
  /\ ffmpeg_probe (Cases.failing_host Scenario.tree_C) <> NotStarted
  /\ (forall c w',
        Images.main _ MT19937.Random MT19937.randbelow
          (Cases.failing_host Scenario.tree_C) Cases.args_images Scenario.world0
        = (Ok c, w') ->
        exists t fbc pl,
          src_tree (Cases.failing_host Scenario.tree_C) = Some t
          /\ Images.gather_image_files (parse (Images.src_root Cases.args_images)) t
             = Ok fbc
          /\ plan (fun l => Images.split_list _ MT19937.Random MT19937.randbelow l
                              [f0_7; f0_2; f0_1] (Images.seed Cases.args_images)) fbc
             = Ok pl
          /\ opened (trace w') = opened (trace Scenario.world0) ++ map snd pl)
  /\ (forall c w',
        Videos.main _ MT19937.Random MT19937.randbelow
          (Cases.failing_host Scenario.tree_C) Cases.args_videos Scenario.world0
        = (Ok c, w') ->
        exists t fbc pl,
          src_tree (Cases.failing_host Scenario.tree_C) = Some t
          /\ Videos.gather_video_files (parse (Videos.src_root Cases.args_videos)) t
             = Ok fbc
          /\ plan (fun l => Videos.split_list _ MT19937.Random MT19937.randbelow l
                              [f0_7; f0_2; f0_1] (Videos.seed Cases.args_videos)) fbc
             = Ok pl
          /\ encoded (trace w') = encoded (trace Scenario.world0) ++ map snd pl).
Proof.
  assert (F : ffmpeg_probe (Cases.failing_host Scenario.tree_C) <> NotStarted)
    by discriminate.
  split; [reflexivity|]. split; [reflexivity|]. split; [exact F|].
  exact (completed_run_attempts_every_item MT19937.Random MT19937.randbelow
           (Cases.failing_host Scenario.tree_C) Cases.args_images Cases.args_videos
           Scenario.world0 eq_refl eq_refl F).
Defined.

(** ** The console output of a run *)

Section Reports.
Variable g : Path -> list message.
Variable body : string -> string -> Path -> gmap string nat -> M (gmap string nat).
(** A loop body that, when it returns, has printed the report of its item. *)
Hypothesis body_reports :
  forall label s src c w c' w',
    body label s src c w = (Ok c', w') ->
    printed (trace w') = printed (trace w) ++ g src.

Lemma items_reported label s items :
  forall c w c' w',
    for_each items (body label s) c w = (Ok c', w') ->
    printed (trace w') = printed (trace w) ++ flat_map g items.
Proof.
  induction items as [|src items IH]; intros c w c' w'; cbn [for_each flat_map].
  - intros [= <- <-]. by rewrite app_nil_r.
  - unfold bindM. destruct (body label s src c w) as [[c1|e] w1] eqn:Eb; [|done].
    intros Hf. rewrite (IH _ _ _ _ Hf), (body_reports _ _ _ _ _ _ _ Eb).
    by rewrite <- app_assoc.
Qed.

Lemma class_reported label (tr va te : list Path) c w c' w' :
  for_each [("train", tr); ("val", va); ("test", te)]
    (fun '(split_name, items) => for_each items (body label split_name)) c w
    = (Ok c', w') ->
  printed (trace w') = printed (trace w) ++ flat_map g (tr ++ va ++ te).
Proof.
  cbn [for_each]. unfold bindM.
  destruct (for_each tr (body label "train") c w) as [[c1|e] w1] eqn:E1; [|done].
  destruct (for_each va (body label "val") c1 w1) as [[c2|e] w2] eqn:E2; [|done].
  destruct (for_each te (body label "test") c2 w2) as [[c3|e] w3] eqn:E3; [|done].
  intros [= <- <-].
  rewrite (items_reported _ _ _ _ _ _ _ E3), (items_reported _ _ _ _ _ _ _ E2),
    (items_reported _ _ _ _ _ _ _ E1).
  by rewrite !flat_map_app, <- !app_assoc.
Qed.

Lemma classes_reported
    (split : list Path -> result (list Path * list Path * list Path))
    (pc : string * list Path -> gmap string nat -> M (gmap string nat)) :
  (forall label files counts,
     pc (label, files) counts
     = (let* s := lift (split files) in
        let '(tr, va, te) := s in
        for_each [("train", tr); ("val", va); ("test", te)]
          (fun '(split_name, items) => for_each items (body label split_name))
          counts)) ->
  forall fbc c w c' w' pl,
    for_each fbc pc c w = (Ok c', w') ->
    plan split fbc = Ok pl ->
    printed (trace w') = printed (trace w) ++ flat_map g (map snd pl).
Proof.
  intros Hpc. induction fbc as [|[label files] fbc IH]; intros c w c' w' pl.
  - cbn [for_each plan]. intros [= <- <-] [= <-]. by rewrite app_nil_r.
  - cbn [for_each]. unfold bindM at 1. rewrite Hpc. unfold bindM at 1, lift.
    cbn [plan]. unfold plan_class. cbn [fst snd].
    destruct (split files) as [[[tr va] te]|e] eqn:Hs; [|done].
    destruct (for_each _ _ c w) as [[c1|e] w1] eqn:E1; [|done].
    cbn [mbind result_bind Py.bind].
    destruct (plan split fbc) as [ps|e] eqn:Hp; [|done].
    cbn [mbind result_bind Py.bind]. intros Hf [= <-].
    rewrite (IH _ _ _ _ _ Hf eq_refl), (class_reported _ _ _ _ _ _ _ _ E1).
    rewrite !map_app, !map_map. cbn [snd]. rewrite !map_id.
    by rewrite !flat_map_app, <- !app_assoc.
Qed.
End Reports.

Lemma mkdir_p_printed h d w u w' :
  mkdir_p h d w = (Ok u, w') -> printed (trace w') = printed (trace w).
Proof.
  intros E. apply mkdir_p_trace in E. rewrite E, printed_app. cbn. by rewrite app_nil_r.
Qed.

Lemma images_place_reports h a out label s src c w c' w' :
  Images.place h a out label s src c w = (Ok c', w') ->
  printed (trace w') = printed (trace w) ++ image_report h a src.
Proof.
  unfold Images.place, bindM at 1, lift, image_report.
  destruct (incr c s) as [c1|e]; [|done].
  destruct (Images.dry_run a).
  { intros [= _ <-]. by rewrite app_nil_r. }
  unfold bindM at 1, Images.resize_and_save, bindM at 1.
  destruct (mkdir_p h _ w) as [[u|e] w1] eqn:Em; [|done].
  apply mkdir_p_printed in Em. rewrite <- Em.
  unfold try_except, bindM, emit, write_file, print, emit, raise, ret.
  cbn [fs_files fs_dirs trace].
  destruct (pil h src) as [|e|e]; cbn [fs_files fs_dirs trace].
  - intros [= _ <-]. cbn [trace]. rewrite !printed_app. cbn. by rewrite !app_nil_r.
  - destruct (is_Exception e); [|done]. intros [= _ <-]. cbn [trace].
    rewrite !printed_app. cbn. by rewrite !app_nil_r.
  - destruct (is_Exception e); [|done]. intros [= _ <-]. cbn [trace].
    rewrite !printed_app. cbn. by rewrite !app_nil_r.
Qed.

(** A frame ends [reencode_with_opencv] with an exception. *)
Lemma frames_raise h src fr frames w :
  exists e, fst (for_each (fr :: frames) (Videos.compose_frame h src) tt w) = Raise e.
Proof.
  cbn [for_each]. unfold bindM at 1, Videos.compose_frame, bindM at 1, emit.
  unfold bindM at 1.
  destruct (cv2_resize_fails h fr); [by eexists|].
  unfold ret, bindM at 1, lift. by eexists.
Qed.

Lemma videos_place_reports h a out b label s src c w c' w' :
  Videos.place h a out b label s src c w = (Ok c', w') ->
  printed (trace w') = printed (trace w) ++ video_report h a b src.
Proof.
  unfold Videos.place, bindM at 1, lift, video_report.
  destruct (incr c s) as [c1|e]; [|done].
  destruct (Videos.dry_run a).
  { intros [= _ <-]. by rewrite app_nil_r. }
  destruct b.
  - unfold bindM at 1, bindM at 1, Videos.reencode_with_ffmpeg, bindM at 1.
    destruct (mkdir_p h _ w) as [[u|e] w1] eqn:Em; [|done].
    apply mkdir_p_printed in Em. rewrite <- Em.
    unfold try_except, bindM, emit, write_file, print, emit, raise, ret.
    cbn [fs_files fs_dirs trace].
    destruct (ffmpeg_encode h src) as [|status wrote]; cbn [is_CalledProcessError]; [done|].
    destruct wrote, (status =? 0);
      cbn [is_CalledProcessError negb fs_files fs_dirs trace];
      intros [= _ <-]; cbn [trace]; rewrite !printed_app; cbn;
      by rewrite ?app_nil_r, <- ?app_assoc.
  - unfold bindM at 1, bindM at 1.
    unfold Videos.reencode_with_opencv, try_except, bindM at 1, bindM at 1, emit.
    destruct (cv2_installed h); cbn [negb ret raise is_ImportError fst snd].
    + unfold bindM at 1, emit. cbn [fst snd].
      destruct (cv2_frames h src) as [frames|].
      * unfold bindM at 1.
        match goal with |- context [mkdir_p h ?d ?w0] =>
          destruct (mkdir_p h d w0) as [[u|e] w1] eqn:Em; [|done] end.
        apply mkdir_p_printed in Em. cbn [trace] in Em.
        rewrite printed_app in Em. cbn in Em. rewrite app_nil_r in Em.
        unfold bindM at 1, emit. unfold bindM at 1.
        assert (Hw : exists w2,
                   (if cv2_writer_opens h (dst_path_of out s "videos" label src)
                    then write_file (dst_path_of out s "videos" label src) else ret tt)
                     (mkWorld (fs_dirs w1) (fs_files w1)
                        (trace w1 ++ [VideoWriter (dst_path_of out s "videos" label src)]))
                   = (Ok tt, w2)
                   /\ printed (trace w2) = printed (trace w1)).
        { destruct (cv2_writer_opens h _); eexists; (split; [reflexivity|]);
            cbn [trace]; rewrite printed_app; cbn; by rewrite app_nil_r. }
        destruct Hw as (w2 & -> & Ew). rewrite Em in Ew. clear Em.
        unfold bindM at 1.
        destruct frames as [|fr frames].
        -- cbn [for_each]. unfold ret, bindM, print, emit. cbn [negb].
           intros [= _ <-]. cbn [trace]. rewrite ?printed_app, Ew, ?printed_app. cbn.
           by rewrite !app_nil_r.
        -- destruct (frames_raise h src fr frames w2) as [e He].
           destruct (for_each (fr :: frames) _ tt w2) as [[u'|e'] w3];
             cbn [fst] in He; [discriminate He|].
           unfold bindM. done.
      * unfold bindM, print, emit, ret. cbn [negb fst snd trace fs_files fs_dirs].
        intros [= _ <-]. cbn [trace]. rewrite !printed_app. cbn.
        by rewrite ?app_nil_r, <- ?app_assoc.
    + unfold bindM, print, emit, ret. cbn [negb fst snd trace fs_files fs_dirs].
      intros [= _ <-]. cbn [trace]. rewrite !printed_app. cbn.
      by rewrite ?app_nil_r, <- ?app_assoc.
Qed.

(** The counters of a plan add up to its length. *)
Lemma planned_total pl :
  Forall (fun e : string * string * Path => snd (fst e) ∈ ["train"; "val"; "test"]) pl ->
  (planned "train" pl + planned "val" pl + planned "test" pl)%nat = length pl.
Proof.
  induction 1 as [|[[k s] p] pl Hs _ IH]; [done|].
  change ((k, s, p) :: pl) with ([(k, s, p)] ++ pl). rewrite !planned_app, length_app.
  rewrite <- IH. cbn [fst snd length] in *. unfold planned at 1 3 5.
  rewrite !filter_cons, !filter_nil. cbn [fst snd].
  apply list_elem_of_In in Hs. cbn [In] in Hs.
  destruct Hs as [<-|[<-|[<-|[]]]];
    repeat (destruct (decide _) as [?|?]; try done); cbn [length]; lia.
Qed.

Lemma plan_splits (split : list Path -> result (list Path * list Path * list Path)) fbc pl :
  plan split fbc = Ok pl ->
  Forall (fun e => snd (fst e) ∈ ["train"; "val"; "test"]) pl.
Proof.
  revert pl. induction fbc as [|[label files] fbc IH]; intros pl; cbn [plan].
  - intros [= <-]. constructor.
  - unfold plan_class. cbn [fst snd].
    destruct (split files) as [[[tr va] te]|e]; [|done]. cbn [mbind result_bind Py.bind].
    destruct (plan split fbc) as [ps|e]; [|done]. cbn [mbind result_bind Py.bind].
    intros [= <-].
    repeat (apply Forall_app; split); [| | |by apply IH];
      apply Forall_fmap, Forall_true; intros p; cbn [fst snd].
    + by left.
    + right. by left.
    + right. right. by left.
Qed.

Section ShuffleLength.
Context {rng : Type} (Random : Z -> rng) (randbelow : nat -> rng -> nat * rng).
Context {A : Type}.

Lemma shuffle_from_length i (x x' : list A) g :
  shuffle_from rng randbelow i x g = Ok x' -> length x' = length x.
Proof.
  revert x g. induction i as [|i IH]; intros x g; cbn [shuffle_from].
  - by intros [= <-].
  - destruct (randbelow (S (S i)) g) as [j g'].
    unfold swap, getitem.
    destruct (x !! j) as [xj|]; [|done]. cbn [mbind result_bind Py.bind].
    destruct (x !! S i) as [xi|]; [|done]. cbn [mbind result_bind Py.bind].
    intros H. apply IH in H. by rewrite H, !length_insert.
Qed.

(** The three sequences of a split that returns hold as many items as the
    class. *)
Lemma split_list_lengths (items tr va te : list A) seed :
  Z.of_nat (length items) <= PY_SSIZE_T_MAX ->
  Videos.split_list rng Random randbelow items [f0_7; f0_2; f0_1] seed = Ok (tr, va, te) ->
  (length tr + length va + length te)%nat = length items.
Proof.
  intros Hn. unfold Videos.split_list.
  destruct (shuffle rng randbelow items (Random seed)) as [x|e] eqn:Hx; [|done].
  apply shuffle_from_length in Hx.
  cbn [mbind result_bind Py.bind getitem lookup list_lookup].
  destruct (cut_points (Z.of_nat (length x))) as (n1 & n2 & H1 & H2 & Hle).
  { rewrite Hx. lia. }
  apply bind_Ok in H1 as (x1 & E1 & F1). apply bind_Ok in H2 as (x2 & E2 & F2).
  rewrite E1. cbn [mbind result_bind Py.bind]. rewrite F1.
  cbn [mbind result_bind Py.bind]. rewrite E2.
  cbn [mbind result_bind Py.bind]. rewrite F2.
  cbn [mbind result_bind Py.bind]. intros [= <- <- <-].
  rewrite <- Hx, <- !length_app, <- app_assoc. by rewrite slices_partition.
Qed.

End ShuffleLength.

Lemma plan_length {rng} (Random : Z -> rng) (randbelow : nat -> rng -> nat * rng)
    seed fbc pl :
  Forall (fun kv => Z.of_nat (length (snd kv)) <= PY_SSIZE_T_MAX) fbc ->
  plan (fun l => Videos.split_list rng Random randbelow l [f0_7; f0_2; f0_1] seed) fbc
    = Ok pl ->
  length pl = total_items fbc.
Proof.
  intros Hb. revert pl. induction Hb as [|[label files] fbc Hn _ IH]; intros pl; cbn [plan].
  - by intros [= <-].
  - unfold plan_class. cbn [fst snd] in *.
    destruct (Videos.split_list _ _ _ _ _ _) as [[[tr va] te]|e] eqn:Hs; [|done].
    cbn [mbind result_bind Py.bind].
    destruct (plan _ fbc) as [ps|e]; [|done]. cbn [mbind result_bind Py.bind].
    intros [= <-]. apply split_list_lengths in Hs; [|done].
    rewrite !length_app, !length_map, (IH ps eq_refl).
    unfold total_items. cbn [foldr snd]. lia.
Qed.

Section Transcript.
Context {rng : Type} (Random : Z -> rng) (randbelow : nat -> rng -> nat * rng).

Lemma images_main_transcript h (a : Images.args) w c w' :
  Images.main rng Random randbelow h a w = (Ok c, w') ->
  exists t fbc pl,
    src_tree h = Some t
    /\ Images.gather_image_files (parse (Images.src_root a)) t = Ok fbc
    /\ plan (fun l => Images.split_list rng Random randbelow l [f0_7; f0_2; f0_1]
                        (Images.seed a)) fbc = Ok pl
    /\ printed (trace w')
       = printed (trace w)
         ++ [MsgGathering; MsgFound (total_items fbc) (length fbc)]
         ++ flat_map (image_report h a) (map snd pl)
         ++ [MsgDone; MsgCounts c;
             MsgExample (parse (Images.output_root a) // "train" // "images")]
    /\ c = mk_counts (planned "train" pl) (planned "val" pl) (planned "test" pl).
Proof.
  intros Hm.
  destruct (images_main_counted Random randbelow h a w c) as (t & fbc & pl & Ht & Hg & Hp & Hc);
    [by rewrite Hm|].
  exists t, fbc, pl. split; [done|]. split; [done|]. split; [done|]. split; [|done].
  revert Hm. unfold Images.main. rewrite Ht.
  unfold bindM at 1, print at 1, emit. unfold bindM at 1, lift. rewrite Hg.
  unfold bindM at 1, print at 1, emit. unfold bindM at 1.
  destruct (for_each fbc _ _ _) as [[c1|e] w1] eqn:Ef; [|done].
  apply (classes_reported (image_report h a)
           (fun label s => Images.place h a (parse (Images.output_root a)) label s)
           ltac:(intros; by eapply images_place_reports)
           (fun l => Images.split_list rng Random randbelow l [f0_7; f0_2; f0_1]
                       (Images.seed a))) with (pl := pl) in Ef; [|done|done].
  unfold bindM, print, emit, ret. intros [= <- <-].
  cbn [trace] in *. rewrite !printed_app, Ef, !printed_app. cbn.
  by rewrite ?app_nil_r, <- ?app_assoc.
Qed.

Lemma videos_main_transcript h (a : Videos.args) w c w' :
  Videos.main rng Random randbelow h a w = (Ok c, w') ->
  exists t fbc pl,
    src_tree h = Some t
    /\ Videos.gather_video_files (parse (Videos.src_root a)) t = Ok fbc
    /\ plan (fun l => Videos.split_list rng Random randbelow l [f0_7; f0_2; f0_1]
                        (Videos.seed a)) fbc = Ok pl
    /\ printed (trace w')
       = printed (trace w)
         ++ [MsgFound (total_items fbc) (length fbc);
             if probe_starts h then MsgUsingFfmpeg else MsgNoFfmpeg]
         ++ flat_map (video_report h a (probe_starts h)) (map snd pl)
         ++ [MsgDoneCounts c]
    /\ c = mk_counts (planned "train" pl) (planned "val" pl) (planned "test" pl).
Proof.
  intros Hm.
  destruct (videos_main_counted Random randbelow h a w c) as (t & fbc & pl & Ht & Hg & Hp & Hc);
    [by rewrite Hm|].
  exists t, fbc, pl. split; [done|]. split; [done|]. split; [done|]. split; [|done].
  revert Hm. unfold Videos.main. rewrite Ht.
  unfold bindM at 1, lift. rewrite Hg.
  unfold bindM at 1, print at 1, emit. unfold bindM at 1.
  unfold Videos.ffmpeg_available, try_except, bindM at 1, emit, raise, ret, probe_starts.
  destruct (ffmpeg_probe h) as [|status wrote]; cbn [is_Exception].
  - unfold bindM at 1, print at 1, emit. unfold bindM at 1.
    destruct (for_each fbc _ _ _) as [[c1|e] w1] eqn:Ef; [|done].
    apply (classes_reported (video_report h a false)
             (fun label s => Videos.place h a (parse (Videos.output_root a)) false label s)
             ltac:(intros; by eapply videos_place_reports)
             (fun l => Videos.split_list rng Random randbelow l [f0_7; f0_2; f0_1]
                         (Videos.seed a))) with (pl := pl) in Ef; [|done|done].
    unfold bindM, print, emit, ret. intros [= <- <-].
    cbn [trace] in *. rewrite !printed_app, Ef, !printed_app. cbn.
    by rewrite ?app_nil_r, <- ?app_assoc.
  - unfold bindM at 1, print at 1, emit. unfold bindM at 1.
    destruct (for_each fbc _ _ _) as [[c1|e] w1] eqn:Ef; [|done].
    apply (classes_reported (video_report h a true)
             (fun label s => Videos.place h a (parse (Videos.output_root a)) true label s)
             ltac:(intros; by eapply videos_place_reports)
             (fun l => Videos.split_list rng Random randbelow l [f0_7; f0_2; f0_1]
                         (Videos.seed a))) with (pl := pl) in Ef; [|done|done].
    unfold bindM, print, emit, ret. intros [= <- <-].
    cbn [trace] in *. rewrite !printed_app, Ef, !printed_app. cbn.
    by rewrite ?app_nil_r, <- ?app_assoc.
Qed.

(** X21.  The console output of a run that returns, dry or not, with
    either backend and whatever the transforms did.  The dict is the one the
    collector returns on the source tree of the host, and the plan is the
    plan of that dict.  The image script prints the two opening lines, then
    for each item of the plan, in plan order, one warning if the image could
    not be opened or saved (nothing with [--dry_run]), then [Done.], the
    counts and the example path.  The video script prints the total and the
    backend it chose, then for each item of the plan what that backend
    reports (two warnings for an ffmpeg exit status other than zero; two for
    a video OpenCV cannot open, or without OpenCV), then the counts.  In
    both, the three counts add up to the length of the plan, and for classes
    of at most [sys.maxsize] files to the total of the opening line. *)
Theorem console_of_a_returning_run h (ai : Images.args) (av : Videos.args) w :
  (forall c w',
     Images.main rng Random randbelow h ai w = (Ok c, w') ->
     exists t fbc pl x y z,
       src_tree h = Some t
       /\ Images.gather_image_files (parse (Images.src_root ai)) t = Ok fbc
       /\ plan (fun l => Images.split_list rng Random randbelow l [f0_7; f0_2; f0_1]
                           (Images.seed ai)) fbc = Ok pl
       /\ printed (trace w')
          = printed (trace w)
            ++ [MsgGathering; MsgFound (total_items fbc) (length fbc)]
            ++ flat_map (image_report h ai) (map snd pl)
            ++ [MsgDone; MsgCounts c;
                MsgExample (parse (Images.output_root ai) // "train" // "images")]
       /\ c = mk_counts x y z /\ (x + y + z)%nat = length pl
       /\ (Forall (fun kv => Z.of_nat (length (snd kv)) <= PY_SSIZE_T_MAX) fbc ->
           (x + y + z)%nat = total_items fbc))
  /\ (forall c w',
        Videos.main rng Random randbelow h av w = (Ok c, w') ->
        exists t fbc pl x y z,
          src_tree h = Some t
          /\ Videos.gather_video_files (parse (Videos.src_root av)) t = Ok fbc
          /\ plan (fun l => Videos.split_list rng Random randbelow l [f0_7; f0_2; f0_1]
                              (Videos.seed av)) fbc = Ok pl
          /\ printed (trace w')
             = printed (trace w)
               ++ [MsgFound (total_items fbc) (length fbc);
                   if probe_starts h then MsgUsingFfmpeg else MsgNoFfmpeg]
               ++ flat_map (video_report h av (probe_starts h)) (map snd pl)
               ++ [MsgDoneCounts c]
          /\ c = mk_counts x y z /\ (x + y + z)%nat = length pl
          /\ (Forall (fun kv => Z.of_nat (length (snd kv)) <= PY_SSIZE_T_MAX) fbc ->
              (x + y + z)%nat = total_items fbc)).
Proof.
  split.
  - intros c w' Hm.
    destruct (images_main_transcript h ai w c w' Hm)
      as (t & fbc & pl & Ht & Hg & Hp & Hw & Hc).
    exists t, fbc, pl, (planned "train" pl), (planned "val" pl), (planned "test" pl).
    split; [done|]. split; [done|]. split; [done|]. split; [done|]. split; [done|].
    pose proof (planned_total pl (plan_splits _ _ _ Hp)) as Hs.
    split; [done|]. intros Hb. rewrite Hs.
    apply (plan_length Random randbelow (Images.seed ai)); [done|].
    rewrite <- Hp. clear. induction fbc as [|kv fbc IH]; [done|].
    cbn [plan]. unfold plan_class. by rewrite (images_split_list_eq Random randbelow), IH.
  - intros c w' Hm.
    destruct (videos_main_transcript h av w c w' Hm)
      as (t & fbc & pl & Ht & Hg & Hp & Hw & Hc).
    exists t, fbc, pl, (planned "train" pl), (planned "val" pl), (planned "test" pl).
    split; [done|]. split; [done|]. split; [done|]. split; [done|]. split; [done|].
    pose proof (planned_total pl (plan_splits _ _ _ Hp)) as Hs.
    split; [done|]. intros Hb. rewrite Hs. by eapply plan_length.
Qed.
End Transcript.

(** ** A source tree without media *)

Lemma gather_nothing (is_media : Path -> bool) s t :
  OS.tree_ok t -> walk_media is_media (str (parse s)) t = [] ->
  gather is_media (parse s) t = Ok [].
Proof.
  intros Hok Hw. destruct (gather_inventory is_media s t Hok) as (d & -> & Hp & _ & Hne).
  rewrite Hw in Hp. apply Permutation_nil_r in Hp.
  destruct d as [|kv d]; [done|]. apply Forall_cons in Hne as [Hkv _].
  cbn [map concat] in Hp. by apply app_eq_nil in Hp as [? _].
Qed.

Section Empty.
Context {rng : Type} (Random : Z -> rng) (randbelow : nat -> rng -> nat * rng).

(** X16.  A source tree that holds no image (no video) is no error: the
    collector returns the empty dict, the run prints its messages with the
    three counters at 0 and returns, without creating anything; the video
    script still probes ffmpeg once. *)
Theorem empty_source_tree h (ai : Images.args) (av : Videos.args) t w :
  OS.tree_okb t = true -> src_tree h = Some t ->
  (walk_media Images.is_image_file (str (parse (Images.src_root ai))) t = [] ->
   Images.main rng Random randbelow h ai w
   = (Ok counts0,
      mkWorld (fs_dirs w) (fs_files w)
        (trace w ++ [Print MsgGathering; Print (MsgFound 0 0); Print MsgDone;
                     Print (MsgCounts counts0);
                     Print (MsgExample (parse (Images.output_root ai)
                                          // "train" // "images"))])))
  /\ (walk_media Videos.is_video_file (str (parse (Videos.src_root av))) t = [] ->
      Videos.main rng Random randbelow h av w
      = (Ok counts0,
         mkWorld (fs_dirs w) (fs_files w)
           (trace w ++ [Print (MsgFound 0 0); Run FfmpegVersion;
                        Print (if ffmpeg_started h then MsgUsingFfmpeg else MsgNoFfmpeg);
                        Print (MsgDoneCounts counts0)]))).
Proof.
  intros Hok Ht. apply tree_okb_ok in Hok. split; intros Hw.
  - unfold Images.main. rewrite Ht, gather_image_files_eq, gather_nothing by done.
    unfold bindM, print, emit, lift, ret. cbn [for_each ret fs_dirs fs_files trace total_items foldr length].
    unfold ret. cbn [fs_dirs fs_files trace]. by rewrite <- !app_assoc.
  - unfold Videos.main. rewrite Ht, gather_video_files_eq, gather_nothing by done.
    unfold Videos.ffmpeg_available, ffmpeg_started, try_except.
    unfold bindM, print, emit, lift, ret, raise.
    cbn [for_each ret fs_dirs fs_files trace total_items foldr length].
    destruct (ffmpeg_probe h); cbn [is_Exception fs_dirs fs_files trace]; unfold ret;
      cbn [fs_dirs fs_files trace]; by rewrite <- !app_assoc.
Qed.
End Empty.

Lemma empty_source_tree_witness :
  OS.tree_okb Cases.tree_notes = true
  /\ src_tree (Scenario.good_host Cases.tree_notes) = Some Cases.tree_notes
  /\ walk_media Images.is_image_file (str (parse (Images.src_root Cases.args_images)))
       Cases.tree_notes = []
  /\ walk_media Videos.is_video_file (str (parse (Videos.src_root Cases.args_videos)))
       Cases.tree_notes = []
  /\ Images.main _ MT19937.Random MT19937.randbelow
       (Scenario.good_host Cases.tree_notes) Cases.args_images Scenario.world0
     = (Ok counts0,
        mkWorld (fs_dirs Scenario.world0) (fs_files Scenario.world0)
          (trace Scenario.world0
             ++ [Print MsgGathering; Print (MsgFound 0 0); Print MsgDone;
                 Print (MsgCounts counts0);
                 Print (MsgExample (parse (Images.output_root Cases.args_images)
                                      // "train" // "images"))]))
  /\ Videos.main _ MT19937.Random MT19937.randbelow
       (Scenario.good_host Cases.tree_notes) Cases.args_videos Scenario.world0
     = (Ok counts0,
        mkWorld (fs_dirs Scenario.world0) (fs_files Scenario.world0)
          (trace Scenario.world0
             ++ [Print (MsgFound 0 0); Run FfmpegVersion;
                 Print (if ffmpeg_started (Scenario.good_host Cases.tree_notes)
                        then MsgUsingFfmpeg else MsgNoFfmpeg);
                 Print (MsgDoneCounts counts0)])).
Proof.
  assert (Wi : walk_media Images.is_image_file
                 (str (parse (Images.src_root Cases.args_images))) Cases.tree_notes = [])
    by (vm_compute; reflexivity).
  assert (Wv : walk_media Videos.is_video_file
                 (str (parse (Videos.src_root Cases.args_videos))) Cases.tree_notes = [])
    by (vm_compute; reflexivity).
  destruct (empty_source_tree MT19937.Random MT19937.randbelow
              (Scenario.good_host Cases.tree_notes) Cases.args_images Cases.args_videos
              Cases.tree_notes Scenario.world0 eq_refl eq_refl) as [Hi Hv].
  split; [reflexivity|]. split; [reflexivity|]. split; [exact Wi|]. split; [exact Wv|].
  split; [exact (Hi Wi)|exact (Hv Wv)].
Defined.

(** ** The frame geometry of [reencode_with_opencv] *)

Lemma new_location_cases b r :
  new_location b r = if r =? 0 then loc_Exact else loc_Inexact (2 * r ?= b).
Proof.
  unfold new_location, new_location_even, new_location_odd.
  destruct (Z.even b) eqn:Eb; [done|].
  destruct (r =? 0); [done|]. f_equal.
  assert (Ob : Z.odd b = true) by (rewrite <- Z.negb_even, Eb; done).
  apply Z.odd_spec in Ob as [c ->].
  destruct (Z.compare_spec (2 * r + 1) (2 * c + 1)) as [E|E|E];
    destruct (Z.compare_spec (2 * r) (2 * c + 1)) as [F|F|F]; done || lia.
Qed.

Lemma loc_of_record_of_loc q l :
  shr_m (shr_record_of_loc q l) = q
  /\ loc_of_shr_record (shr_record_of_loc q l) = l.
Proof. by destruct l as [|[]]. Qed.

Lemma shr_1_located q l :
  0 <= q ->
  shr_1 (shr_record_of_loc q l)
  = Build_shr_record (q / 2) (Z.odd q)
      (match l with loc_Exact => false | _ => true end).
Proof.
  intros Hq. destruct l as [|[]]; cbn [shr_record_of_loc];
    rewrite shr_1_nonneg, Z.div2_div by done; reflexivity.
Qed.

(** The quotient of two positive ints below [2^31] is a normal double,
    within half a unit in the last place of the exact quotient. *)
Lemma SFdiv_ints (a b : positive) :
  Z.pos a < 2 ^ 31 -> Z.pos b < 2 ^ 31 ->
  exists M t,
    SFdiv 53 1024 (S754_finite false a 0) (S754_finite false b 0)
    = S754_finite false M (- t)
    /\ Z.pos (digits2_pos M) = 53 /\ 21 <= t <= 84
    /\ 2 * Z.abs (Z.pos M * Z.pos b - Z.pos a * 2 ^ t) <= Z.pos b.
Proof.
  intros Ha Hb.
  pose proof (digits2_bounds a) as [La Ua]. pose proof (digits2_bounds b) as [Lb Ub].
  unfold SFdiv, SFdiv_core_binary. cbn [Zdigits2 xorb].
  set (d1 := Z.pos (digits2_pos a)) in *. set (d2 := Z.pos (digits2_pos b)) in *.
  assert (D1 : 1 <= d1 <= 31).
  { split; [subst d1; lia|]. destruct (Z.le_gt_cases d1 31); [done|].
    assert (2 ^ 31 <= 2 ^ (d1 - 1)) by (apply Z.pow_le_mono_r; lia). lia. }
  assert (D2 : 1 <= d2 <= 31).
  { split; [subst d2; lia|]. destruct (Z.le_gt_cases d2 31); [done|].
    assert (2 ^ 31 <= 2 ^ (d2 - 1)) by (apply Z.pow_le_mono_r; lia). lia. }
  unfold fexp, emin.
  replace (Z.min (Z.max (d1 + 0 - (d2 + 0) - 53) (3 - 1024 - 53)) (0 - 0))
    with (d1 - d2 - 53) by lia.
  replace (0 - 0 - (d1 - d2 - 53)) with (53 - d1 + d2) by lia.
  remember (53 - d1 + d2) as s eqn:Es.
  assert (Hs : 23 <= s <= 83) by lia.
  assert (match s with
          | 0 => Z.pos a
          | Z.pos _ => Z.shiftl (Z.pos a) s
          | Z.neg _ => 0
          end = Z.pos a * 2 ^ s) as ->.
  { destruct s; [lia| |lia]. by rewrite Z.shiftl_mul_pow2. }
  pose proof (Z_div_mod (Z.pos a * 2 ^ s) (Z.pos b) ltac:(lia)) as Hd.
  destruct (Z.div_eucl (Z.pos a * 2 ^ s) (Z.pos b)) as [q r]. destruct Hd as [Hd Hr].
  rewrite new_location_cases.
  (* the quotient has 53 or 54 digits *)
  assert (E1 : 2 ^ (d1 - 1) * 2 ^ s = 2 ^ 52 * 2 ^ d2).
  { rewrite <- !Z.pow_add_r by lia. f_equal. lia. }
  assert (E2 : 2 ^ d1 * 2 ^ s = 2 ^ 54 * 2 ^ (d2 - 1)).
  { rewrite <- !Z.pow_add_r by lia. f_equal. lia. }
  assert (P : 0 < 2 ^ s) by lia.
  assert (N1 : 2 ^ 52 * 2 ^ d2 <= Z.pos a * 2 ^ s).
  { rewrite <- E1. apply Z.mul_le_mono_nonneg_r; lia. }
  assert (N2 : Z.pos a * 2 ^ s < 2 ^ 54 * 2 ^ (d2 - 1)).
  { rewrite <- E2. apply Z.mul_lt_mono_pos_r; lia. }
  assert (Q : 2 ^ 52 <= q < 2 ^ 54).
  { split.
    - destruct (Z.le_gt_cases (2 ^ 52) q); [done|].
      assert ((q + 1) * Z.pos b <= 2 ^ 52 * Z.pos b) by (apply Z.mul_le_mono_nonneg_r; lia).
      assert (2 ^ 52 * Z.pos b < 2 ^ 52 * 2 ^ d2) by (apply Z.mul_lt_mono_pos_l; lia).
      lia.
    - destruct (Z.le_gt_cases (2 ^ 54) q); [|done].
      assert (2 ^ 54 * Z.pos b <= q * Z.pos b) by (apply Z.mul_le_mono_nonneg_r; lia).
      assert (2 ^ 54 * 2 ^ (d2 - 1) <= 2 ^ 54 * Z.pos b) by (apply Z.mul_le_mono_nonneg_l; lia).
      lia. }
  remember (2 ^ s) as T eqn:HT0.
  set (A := Z.pos a) in *. set (B := Z.pos b) in *.
  assert (HB : 0 < B) by (subst B; lia). clearbody A B.
  clear E1 E2 N1 N2 La Ua Lb Ub Ha Hb.
  set (e := d1 - d2 - 53). assert (He : e = - s) by (subst e; lia).
  clearbody e. clear D1 D2 Es. clearbody d1 d2.
  destruct q as [|pq|pq]; [lia| |lia].
  unfold binary_round_aux. unfold shr_fexp at 1. unfold fexp, emin. cbn [Zdigits2].
  destruct (Z.lt_ge_cases (Z.pos pq) (2 ^ 53)) as [K|K].
  - (* 53 digits: the location decides *)
    assert (D : Z.pos (digits2_pos pq) = 53) by (apply digits2_unique; lia).
    rewrite D. replace (Z.max (53 + e - 53) (3 - 1024 - 53) - e) with 0 by lia.
    cbn [shr].
    destruct (loc_of_record_of_loc (Z.pos pq) (if r =? 0 then loc_Exact else loc_Inexact (2 * r ?= B)))
      as [-> ->].
    set (Mr := round_nearest_even _ _).
    assert (Hm : 2 ^ 52 <= Mr <= 2 ^ 53 /\ 2 * Z.abs (Mr * B - A * T) <= B).
    { subst Mr. destruct (Z.eqb_spec r 0) as [R0|R0]; cbn [round_nearest_even].
      - split; [lia|]. lia.
      - destruct (Z.compare_spec (2 * r) B).
        + destruct (Z.even (Z.pos pq)); split; lia.
        + split; lia.
        + split; lia. }
    destruct Hm as [Hm Herr].
    destruct Mr as [|pm|pm]; [lia| |lia].
    destruct (renormalise pm e) as (M & e'' & -> & Hv & HM & He''); [lia|lia|].
    cbn [shr_m]. destruct (Z.leb_spec e'' (1024 - 53)); [|lia].
    exists M, (- e''). rewrite Z.opp_involutive.
    split; [done|]. split; [done|]. split; [lia|].
    destruct (Z.eq_dec e'' e) as [->|Ne].
    + rewrite Z.sub_diag, Z.pow_0_r in Hv. replace (- e) with s by lia.
      rewrite <- HT0. lia.
    + assert (e'' = e + 1) as -> by lia.
      replace (e + 1 - e) with 1 in Hv by lia. change (2 ^ 1) with 2 in Hv.
      replace (- (e + 1)) with (s - 1) by lia.
      assert (T = 2 * 2 ^ (s - 1)) as HT.
      { rewrite HT0, <- Z.pow_succ_r by lia. f_equal. lia. }
      lia.
  - (* 54 digits: one bit is shifted out *)
    assert (D : Z.pos (digits2_pos pq) = 54) by (apply digits2_unique; lia).
    rewrite D. replace (Z.max (54 + e - 53) (3 - 1024 - 53) - e) with 1 by lia.
    cbn [shr SpecFloat.iter_pos]. rewrite shr_1_located by lia.
    cbn [shr_m].
    pose proof (Z.div_mod (Z.pos pq) 2 ltac:(lia)) as Hq2.
    pose proof (Z.mod_pos_bound (Z.pos pq) 2 ltac:(lia)) as Bq2.
    rewrite Zmod_odd in Hq2, Bq2.
    set (Q2 := Z.pos pq / 2) in *.
    set (Mr := round_nearest_even _ _).
    assert (Hm : 2 ^ 52 <= Mr <= 2 ^ 53 /\ Z.abs (Mr * (2 * B) - A * T) <= B).
    { subst Mr. destruct (Z.odd (Z.pos pq)).
      - destruct (Z.eqb_spec r 0) as [R0|R0]; cbn [loc_of_shr_record round_nearest_even].
        + destruct (Z.even Q2); split; lia.
        + split; lia.
      - destruct (Z.eqb_spec r 0) as [R0|R0]; cbn [loc_of_shr_record round_nearest_even].
        + split; lia.
        + split; lia. }
    destruct Hm as [Hm Herr].
    destruct Mr as [|pm|pm]; [lia| |lia].
    destruct (renormalise pm (e + 1)) as (M & e'' & -> & Hv & HM & He''); [lia|lia|].
    cbn [shr_m]. destruct (Z.leb_spec e'' (1024 - 53)); [|lia].
    exists M, (- e''). rewrite Z.opp_involutive.
    split; [done|]. split; [done|]. split; [lia|].
    destruct (Z.eq_dec e'' (e + 1)) as [->|Ne].
    + rewrite Z.sub_diag, Z.pow_0_r in Hv. replace (- (e + 1)) with (s - 1) by lia.
      assert (T = 2 * 2 ^ (s - 1)) as HT.
      { rewrite HT0, <- Z.pow_succ_r by lia. f_equal. lia. }
      lia.
    + assert (e'' = e + 1 + 1) as -> by lia.
      replace (e + 1 + 1 - (e + 1)) with 1 in Hv by lia. change (2 ^ 1) with 2 in Hv.
      replace (- (e + 1 + 1)) with (s - 2) by lia.
      assert (T = 4 * 2 ^ (s - 2)) as HT.
      { rewrite HT0. change 4 with (2 * 2). rewrite <- Z.mul_assoc, <- !Z.pow_succ_r by lia.
        f_equal. lia. }
      lia.
Qed.

(** The rounded quotient [Mw / Tw] of [width / w] is relatively close:
    [w] is small against [width * Tw]. *)
Lemma quotient_scale w width Mw Tw :
  0 < w -> 2 ^ 53 <= 2 * Mw ->
  2 * Z.abs (Mw * w - width * Tw) <= w ->
  (2 ^ 53 - 1) * w <= 2 * (width * Tw).
Proof.
  intros Hw HM He.
  assert (2 ^ 53 * w <= 2 * Mw * w) by (apply Z.mul_le_mono_nonneg_r; lia).
  lia.
Qed.

(** The resized frame is no wider than the canvas. *)
Lemma placed_upper w width M T Mw Tw nw :
  0 < w -> 0 <= width < 2 ^ 31 -> 0 < T -> 0 < Tw -> 0 < M ->
  2 ^ 53 <= 2 * Mw ->
  2 * Z.abs (Mw * w - width * Tw) <= w ->
  M * Tw <= Mw * T ->
  2 ^ 53 * (nw * T) <= (2 ^ 53 + 1) * (w * M) ->
  nw <= width.
Proof.
  intros Hw Hwidth HT HTw HM HMw He Hmin Hn.
  pose proof (quotient_scale w width Mw Tw Hw HMw He) as Hq.
  destruct (Z.le_gt_cases nw width) as [|Hgt]; [done|exfalso].
  assert (S1 : (width + 1) * T <= nw * T) by (apply Z.mul_le_mono_nonneg_r; lia).
  assert (S2 : w * (M * Tw) <= w * (Mw * T)) by (apply Z.mul_le_mono_nonneg_l; lia).
  assert (S3 : 2 * (Mw * w) * T <= (2 * (width * Tw) + w) * T)
    by (apply Z.mul_le_mono_nonneg_r; lia).
  assert (S4 : 2 ^ 53 * ((width + 1) * T) * (2 * Tw) <= (2 ^ 53 + 1) * (w * M) * (2 * Tw))
    by (apply Z.mul_le_mono_nonneg_r; lia).
  assert (S5 : width * Tw < 2 ^ 31 * Tw) by (apply Z.mul_lt_mono_pos_r; lia).
  assert (S6 : 2 ^ 53 * ((width + 1) * T) * (2 * Tw)
               <= (2 ^ 53 + 1) * ((2 * (width * Tw) + w) * T)).
  { replace ((2 ^ 53 + 1) * (w * M) * (2 * Tw))
      with ((2 ^ 53 + 1) * (2 * (w * (M * Tw)))) in S4 by ring.
    replace (2 * (Mw * w) * T) with (2 * (w * (Mw * T))) in S3 by ring. lia. }
  replace (2 ^ 53 * ((width + 1) * T) * (2 * Tw))
    with ((2 ^ 53 * (2 * (width * Tw) + 2 * Tw)) * T) in S6 by ring.
  replace ((2 ^ 53 + 1) * ((2 * (width * Tw) + w) * T))
    with (((2 ^ 53 + 1) * (2 * (width * Tw) + w)) * T) in S6 by ring.
  apply Z.mul_le_mono_pos_r in S6; [|done].
  lia.
Qed.

(** In the dimension that gives the scale, it is at most one pixel
    narrower. *)
Lemma placed_lower w width Mw Tw nw :
  0 < w -> 0 <= width < 2 ^ 31 -> 0 < Tw ->
  2 ^ 53 <= 2 * Mw ->
  2 * Z.abs (Mw * w - width * Tw) <= w ->
  (2 ^ 53 - 1) * (w * Mw) < 2 ^ 53 * ((nw + 1) * Tw) ->
  width - 1 <= nw.
Proof.
  intros Hw Hwidth HTw HMw He Hn.
  pose proof (quotient_scale w width Mw Tw Hw HMw He) as Hq.
  destruct (Z.le_gt_cases (width - 1) nw) as [|Hgt]; [done|exfalso].
  assert (S1 : (nw + 1) * Tw <= (width - 1) * Tw) by (apply Z.mul_le_mono_nonneg_r; lia).
  assert (S5 : width * Tw < 2 ^ 31 * Tw) by (apply Z.mul_lt_mono_pos_r; lia).
  replace ((width - 1) * Tw) with (width * Tw - Tw) in S1 by ring.
  replace (w * Mw) with (Mw * w) in Hn by ring.
  lia.
Qed.

(** The scale [M / T] times [w] stays far below [2^52]. *)
Lemma scaled_small w width M T Mw Tw :
  0 < w -> 0 <= width < 2 ^ 31 -> 0 < T -> 0 < Tw -> 0 < M ->
  2 ^ 53 <= 2 * Mw ->
  2 * Z.abs (Mw * w - width * Tw) <= w ->
  M * Tw <= Mw * T ->
  w * M <= 2 ^ 33 * T.
Proof.
  intros Hw Hwidth HT HTw HM HMw He Hmin.
  pose proof (quotient_scale w width Mw Tw Hw HMw He) as Hq.
  assert (S2 : w * (M * Tw) <= w * (Mw * T)) by (apply Z.mul_le_mono_nonneg_l; lia).
  assert (S3 : 2 * (Mw * w) * T <= (2 * (width * Tw) + w) * T)
    by (apply Z.mul_le_mono_nonneg_r; lia).
  assert (S5 : width * Tw < 2 ^ 31 * Tw) by (apply Z.mul_lt_mono_pos_r; lia).
  assert (S6 : (2 * (width * Tw) + w) * T <= (2 ^ 33 * Tw) * T)
    by (apply Z.mul_le_mono_nonneg_r; lia).
  assert (S7 : (w * M) * Tw <= (2 ^ 33 * T) * Tw).
  { replace (w * M * Tw) with (w * (M * Tw)) by ring.
    replace (2 * (Mw * w) * T) with (2 * (w * (Mw * T))) in S3 by ring.
    replace (2 ^ 33 * T * Tw) with (2 ^ 33 * Tw * T) by ring. lia. }
  apply Z.mul_le_mono_pos_r in S7; done.
Qed.

(** The two sides are scaled alike, up to the truncations. *)
Lemma placed_aspect w h M T nw nh :
  0 < w -> 0 < h -> 0 < T -> 0 < M -> 0 <= nh ->
  w * M <= 2 ^ 33 * T ->
  2 ^ 53 * (nw * T) <= (2 ^ 53 + 1) * (w * M) ->
  (2 ^ 53 - 1) * (h * M) < 2 ^ 53 * ((nh + 1) * T) ->
  nw * h - nh * w < w + h.
Proof.
  intros Hw Hh HT HM Hnh Hs Hnw Hnh'.
  destruct (Z.lt_ge_cases (nw * h - nh * w) (w + h)) as [|Hge]; [done|exfalso].
  assert (S1 : 2 ^ 53 * (nw * T) * h <= (2 ^ 53 + 1) * (w * M) * h)
    by (apply Z.mul_le_mono_nonneg_r; lia).
  assert (S2 : (2 ^ 53 - 1) * (h * M) * w < 2 ^ 53 * ((nh + 1) * T) * w)
    by (apply Z.mul_lt_mono_pos_r; lia).
  assert (S3 : (nh * w + w + h) * T <= (nw * h) * T)
    by (apply Z.mul_le_mono_nonneg_r; lia).
  assert (S4 : (w * M) * h <= (2 ^ 33 * T) * h) by (apply Z.mul_le_mono_nonneg_r; lia).
  assert (S5 : 0 < h * T) by lia.
  replace (2 ^ 53 * (nw * T) * h) with (2 ^ 53 * (nw * h * T)) in S1 by ring.
  replace ((2 ^ 53 + 1) * (w * M) * h) with ((2 ^ 53 + 1) * (w * M * h)) in S1 by ring.
  replace ((2 ^ 53 - 1) * (h * M) * w) with ((2 ^ 53 - 1) * (w * M * h)) in S2 by ring.
  replace (2 ^ 53 * ((nh + 1) * T) * w) with (2 ^ 53 * (nh * w * T + w * T)) in S2 by ring.
  replace ((nh * w + w + h) * T) with (nh * w * T + w * T + h * T) in S3 by ring.
  replace (2 ^ 33 * T * h) with (2 ^ 33 * (h * T)) in S4 by ring.
  lia.
Qed.

(** The rounded quotient [Mw / Tw], against [width / w], relatively. *)
Lemma quotient_rel w width Mw Tw :
  0 < w -> 2 ^ 53 <= 2 * Mw ->
  2 * Z.abs (Mw * w - width * Tw) <= w ->
  (2 ^ 53 - 1) * (Mw * w) <= 2 ^ 53 * (width * Tw)
  /\ 2 ^ 53 * (width * Tw) <= (2 ^ 53 + 1) * (Mw * w).
Proof.
  intros Hw HM He.
  assert (2 ^ 53 * w <= 2 * Mw * w) by (apply Z.mul_le_mono_nonneg_r; lia).
  lia.
Qed.

(** With the scale of the width, the height keeps a pixel when the frame
    is not too wide for it. *)
Lemma placed_positive w h width Mw Tw nh :
  0 < w < 2 ^ 31 -> 0 < h -> 0 < Tw -> 2 ^ 53 <= 2 * Mw ->
  2 * Z.abs (Mw * w - width * Tw) <= w ->
  w < width * h -> 0 <= nh ->
  (2 ^ 53 - 1) * (h * Mw) < 2 ^ 53 * ((nh + 1) * Tw) ->
  1 <= nh.
Proof.
  intros Hw Hh HTw HMw He Hwh Hnh Hn.
  destruct (quotient_rel w width Mw Tw ltac:(lia) HMw He) as [_ Hq].
  destruct (Z.le_gt_cases 1 nh) as [|Hgt]; [done|exfalso].
  assert (nh = 0) as -> by lia. rewrite Z.add_0_l, Z.mul_1_l in Hn.
  assert (S1 : (2 ^ 53 - 1) * (h * Mw) * w < 2 ^ 53 * Tw * w)
    by (apply Z.mul_lt_mono_pos_r; lia).
  assert (S2 : 2 ^ 53 * (width * Tw) * h <= (2 ^ 53 + 1) * (Mw * w) * h)
    by (apply Z.mul_le_mono_nonneg_r; lia).
  assert (S3 : (w + 1) * Tw <= width * h * Tw) by (apply Z.mul_le_mono_nonneg_r; lia).
  assert (S4 : w * Tw < 2 ^ 31 * Tw) by (apply Z.mul_lt_mono_pos_r; lia).
  replace ((2 ^ 53 - 1) * (h * Mw) * w) with ((2 ^ 53 - 1) * (h * Mw * w)) in S1 by ring.
  replace (2 ^ 53 * Tw * w) with (2 ^ 53 * (w * Tw)) in S1 by ring.
  replace (2 ^ 53 * (width * Tw) * h) with (2 ^ 53 * (width * h * Tw)) in S2 by ring.
  replace ((2 ^ 53 + 1) * (Mw * w) * h) with ((2 ^ 53 + 1) * (h * Mw * w)) in S2 by ring.
  replace ((w + 1) * Tw) with (w * Tw + Tw) in S3 by ring.
  lia.
Qed.

(** With a scale that is at most that of the width, the height is left
    without a pixel when the frame is too wide for it. *)
Lemma placed_zero w h width M T Mw Tw nh :
  0 < w < 2 ^ 31 -> 0 < h -> 0 < T -> 0 < Tw -> 0 < M -> 2 ^ 53 <= 2 * Mw ->
  2 * Z.abs (Mw * w - width * Tw) <= w ->
  M * Tw <= Mw * T ->
  h * width < w ->
  2 ^ 53 * (nh * T) <= (2 ^ 53 + 1) * (h * M) ->
  nh <= 0.
Proof.
  intros Hw Hh HT HTw HM HMw He Hmin Hwh Hn.
  destruct (quotient_rel w width Mw Tw ltac:(lia) HMw He) as [Hq _].
  destruct (Z.le_gt_cases nh 0) as [|Hgt]; [done|exfalso].
  assert (S0 : 1 * T <= nh * T) by (apply Z.mul_le_mono_nonneg_r; lia).
  assert (S1 : h * (M * Tw) <= h * (Mw * T)) by (apply Z.mul_le_mono_nonneg_l; lia).
  assert (S2 : (2 ^ 53 * Tw) * T <= ((2 ^ 53 + 1) * (h * Mw)) * T).
  { assert (2 ^ 53 * (nh * T) * Tw <= (2 ^ 53 + 1) * (h * M) * Tw)
      by (apply Z.mul_le_mono_nonneg_r; lia).
    assert (2 ^ 53 * (1 * T) * Tw <= 2 ^ 53 * (nh * T) * Tw).
    { apply Z.mul_le_mono_nonneg_r; [lia|]. apply Z.mul_le_mono_nonneg_l; lia. }
    replace ((2 ^ 53 + 1) * (h * M) * Tw) with ((2 ^ 53 + 1) * (h * (M * Tw))) in * by ring.
    replace (2 ^ 53 * Tw * T) with (2 ^ 53 * (1 * T) * Tw) by ring.
    replace ((2 ^ 53 + 1) * (h * Mw) * T) with ((2 ^ 53 + 1) * (h * (Mw * T))) by ring.
    lia. }
  apply Z.mul_le_mono_pos_r in S2; [|done].
  assert (S3 : 2 ^ 53 * Tw * w <= (2 ^ 53 + 1) * (h * Mw) * w)
    by (apply Z.mul_le_mono_nonneg_r; lia).
  assert (S4 : (2 ^ 53 - 1) * (Mw * w) * h <= 2 ^ 53 * (width * Tw) * h)
    by (apply Z.mul_le_mono_nonneg_r; lia).
  assert (S5 : h * width * Tw <= (w - 1) * Tw) by (apply Z.mul_le_mono_nonneg_r; lia).
  assert (S6 : w * Tw < 2 ^ 31 * Tw) by (apply Z.mul_lt_mono_pos_r; lia).
  replace (2 ^ 53 * Tw * w) with (2 ^ 53 * (w * Tw)) in S3 by ring.
  replace ((2 ^ 53 + 1) * (h * Mw) * w) with ((2 ^ 53 + 1) * (h * Mw * w)) in S3 by ring.
  replace ((2 ^ 53 - 1) * (Mw * w) * h) with ((2 ^ 53 - 1) * (h * Mw * w)) in S4 by ring.
  replace (2 ^ 53 * (width * Tw) * h) with (2 ^ 53 * (h * width * Tw)) in S4 by ring.
  replace ((w - 1) * Tw) with (w * Tw - Tw) in S5 by ring.
  lia.
Qed.

Lemma int_truediv_pos a b :
  0 < a < 2 ^ 31 -> 0 < b < 2 ^ 31 ->
  exists M t,
    int_truediv a b = Value (S754_finite false M (- t))
    /\ Z.pos (digits2_pos M) = 53 /\ 21 <= t <= 84
    /\ 2 * Z.abs (Z.pos M * b - a * 2 ^ t) <= b.
Proof.
  intros Ha Hb. destruct a as [|a|a]; try lia. destruct b as [|b|b]; try lia.
  destruct (SFdiv_ints a b) as (M & t & E & D & Ht & Herr); [lia|lia|].
  exists M, t. unfold int_truediv. cbn [Z.eqb int_operand].
  unfold Binary64.prec, Binary64.emax. by rewrite E.
Qed.

(** [<] on two normal positive doubles, by their values. *)
Lemma flt_value M1 t1 M2 t2 :
  Z.pos (digits2_pos M1) = 53 -> Z.pos (digits2_pos M2) = 53 ->
  0 <= t1 -> 0 <= t2 ->
  flt (S754_finite false M1 (- t1)) (S754_finite false M2 (- t2)) = true
  <-> Z.pos M1 * 2 ^ t2 < Z.pos M2 * 2 ^ t1.
Proof.
  intros D1 D2 H1 H2.
  pose proof (digits2_bounds M1) as [L1 U1]. pose proof (digits2_bounds M2) as [L2 U2].
  rewrite D1 in L1, U1. rewrite D2 in L2, U2.
  unfold flt, SFltb, SFcompare.
  destruct (Z.compare_spec (- t1) (- t2)) as [E|E|E].
  - assert (t1 = t2) as -> by lia. rewrite Pos.compare_cont_spec. cbn [Pos.switch_Eq].
    fold (Pos.compare M1 M2). 
    assert (0 < 2 ^ t2) by lia.
    destruct (Pos.compare_spec M1 M2) as [->|F|F]; split; try done; try lia.
    + intros _. apply Z.mul_lt_mono_pos_r; lia.
    + intros G. apply Z.mul_lt_mono_pos_r in G; lia.
  - split; [intros _|done].
    assert (2 ^ t1 = 2 ^ (t1 - t2) * 2 ^ t2) as ->.
    { rewrite <- Z.pow_add_r by lia. f_equal. lia. }
    assert (2 ^ 1 <= 2 ^ (t1 - t2)) by (apply Z.pow_le_mono_r; lia).
    assert (0 < 2 ^ t2) by lia.
    rewrite Z.mul_assoc. apply Z.mul_lt_mono_pos_r; [done|]. nia.
  - split; [done|intros G; exfalso].
    assert (2 ^ t2 = 2 ^ (t2 - t1) * 2 ^ t1) as E2.
    { rewrite <- Z.pow_add_r by lia. f_equal. lia. }
    rewrite E2 in G.
    assert (2 ^ 1 <= 2 ^ (t2 - t1)) by (apply Z.pow_le_mono_r; lia).
    assert (0 < 2 ^ t1) by lia.
    rewrite Z.mul_assoc in G. apply Z.mul_lt_mono_pos_r in G; [|done]. nia.
Qed.

(** [min] of two normal positive doubles is one of them, and no more than
    either. *)
Lemma fmin_value Mw tw Mh th :
  Z.pos (digits2_pos Mw) = 53 -> Z.pos (digits2_pos Mh) = 53 ->
  0 <= tw -> 0 <= th ->
  exists M t,
    fmin (S754_finite false Mw (- tw)) (S754_finite false Mh (- th))
    = S754_finite false M (- t)
    /\ ((M = Mw /\ t = tw) \/ (M = Mh /\ t = th))
    /\ Z.pos M * 2 ^ tw <= Z.pos Mw * 2 ^ t
    /\ Z.pos M * 2 ^ th <= Z.pos Mh * 2 ^ t.
Proof.
  intros Dw Dh Hw Hh. unfold fmin.
  pose proof (flt_value Mh th Mw tw Dh Dw Hh Hw) as F.
  destruct (flt _ _).
  - exists Mh, th. split; [done|]. split; [by right|].
    destruct F as [F _]. specialize (F eq_refl). lia.
  - exists Mw, tw. split; [done|]. split; [by left|].
    split; [lia|].
    destruct (Z.le_gt_cases (Z.pos Mw * 2 ^ th) (Z.pos Mh * 2 ^ tw)); [done|].
    destruct F as [_ F]. by discriminate F.
Qed.

(** A number of at most 53 bits, shifted left, is not rounded. *)
Lemma round53_exact c j :
  0 < c < 2 ^ 53 -> 0 <= j -> round53 (c * 2 ^ j) = c * 2 ^ j.
Proof.
  intros Hc Hj. assert (P : 0 < 2 ^ j) by lia.
  assert (Hp : 0 < c * 2 ^ j) by lia.
  assert (Hu : c * 2 ^ j < 2 ^ (53 + j)).
  { rewrite Z.pow_add_r by lia. apply Z.mul_lt_mono_pos_r; lia. }
  destruct (c * 2 ^ j) as [|p|p] eqn:E; try lia.
  unfold round53. cbn [Zdigits2].
  pose proof (digits2_bounds p) as [Lo Hi]. set (d := Z.pos (digits2_pos p)) in *.
  destruct (Z.leb_spec (d - 53) 0) as [K|K]; [done|].
  assert (d <= 53 + j).
  { destruct (Z.le_gt_cases d (53 + j)); [done|].
    assert (2 ^ (53 + j) <= 2 ^ (d - 1)) by (apply Z.pow_le_mono_r; lia). lia. }
  assert (Ej : Z.pos p = c * 2 ^ (j - (d - 53)) * 2 ^ (d - 53)).
  { rewrite <- E, <- Z.mul_assoc, <- Z.pow_add_r by lia. do 2 f_equal. lia. }
  assert (Q : 0 < 2 ^ (d - 53)) by lia.
  assert (Q' : 0 < 2 ^ (d - 53 - 1)) by (apply Z.pow_pos_nonneg; lia).
  clearbody d. rewrite Ej. unfold rne. rewrite Z.mod_mul, Z.div_mul by lia.
  destruct (Z.ltb_spec 0 (2 ^ (d - 53 - 1))); [done|lia].
Qed.

(** [int(n * x)] for a normal positive double [x = M * 2^-t]: the exact
    product, up to one rounding and the truncation. *)
Lemma scaled_size n M t :
  0 < n < 2 ^ 53 -> Z.pos (digits2_pos M) = 53 -> 0 <= t <= 200 ->
  exists q,
    int_times n (S754_finite false M (- t)) = Ok q
    /\ 0 <= q
    /\ 2 ^ 53 * (q * 2 ^ t) <= (2 ^ 53 + 1) * (n * Z.pos M)
    /\ (2 ^ 53 - 1) * (n * Z.pos M) < 2 ^ 53 * ((q + 1) * 2 ^ t)
    /\ (forall c, 0 < c < 2 ^ 53 -> n * Z.pos M = c * 2 ^ t -> q = c).
Proof.
  intros Hn DM Ht.
  destruct (float_of_int_exact n Hn) as (m & e & Hf & Dm & He & Hm).
  destruct (fmul_pos m e M (- t) Dm DM) as (p & e' & Hp & He' & Hv); [lia|].
  unfold int_times, int_mul_float. rewrite Hf. cbn [mbind result_bind Py.bind].
  rewrite Hp. cbn [int_of_float cond_Zopp]. eexists. split; [reflexivity|].
  assert (Z.shiftl (Z.pos p) e' = Z.shiftl (round53 (Z.pos (m * M))) (e + - t)) as ->.
  { rewrite <- Hv, shiftl_scale by lia. f_equal. lia. }
  rewrite Z.shiftl_div_pow2 by lia.
  replace (- (e + - t)) with (t + - e) by lia. rewrite Z.pow_add_r by lia.
  pose proof (round53_error (m * M)) as [Rhi Rlo].
  assert (EX : forall c, 0 < c < 2 ^ 53 -> n * Z.pos M = c * 2 ^ t ->
                         round53 (Z.pos (m * M)) = c * (2 ^ t * 2 ^ (- e))).
  { intros c Hc Hx. rewrite Pos2Z.inj_mul, Hm.
    replace (n * 2 ^ (- e) * Z.pos M) with (n * Z.pos M * 2 ^ (- e)) by ring.
    rewrite Hx, <- Z.mul_assoc, <- Z.pow_add_r by lia.
    rewrite round53_exact by lia. rewrite Z.pow_add_r by lia. ring. }
  set (R := round53 (Z.pos (m * M))) in *. clearbody R.
  rewrite Pos2Z.inj_mul, Hm in Rhi, Rlo.
  assert (HT : 0 < 2 ^ t) by lia. assert (HS : 0 < 2 ^ (- e)) by lia.
  set (T := 2 ^ t) in *. set (S := 2 ^ (- e)) in *. clearbody T S.
  assert (HTS : 0 < T * S) by lia.
  assert (HR : 0 <= R).
  { assert (0 <= (2 ^ 53 - 1) * (n * S * Z.pos M)); [|lia].
    apply Z.mul_nonneg_nonneg; [lia|]. apply Z.mul_nonneg_nonneg; lia. }
  pose proof (Z.div_mod R (T * S) ltac:(lia)) as Eq.
  pose proof (Z.mod_pos_bound R (T * S) HTS) as Br.
  set (q := R / (T * S)) in *. clearbody q.
  split; [nia|].
  split; [|split].
  - apply (Z.mul_le_mono_pos_r _ _ S); [done|].
    replace (2 ^ 53 * (q * T) * S) with (2 ^ 53 * (T * S * q)) by ring.
    replace ((2 ^ 53 + 1) * (n * Z.pos M) * S) with ((2 ^ 53 + 1) * (n * S * Z.pos M)) by ring.
    lia.
  - apply (Z.mul_lt_mono_pos_r S); [done|].
    replace (2 ^ 53 * ((q + 1) * T) * S) with (2 ^ 53 * (T * S * q + T * S)) by ring.
    replace ((2 ^ 53 - 1) * (n * Z.pos M) * S) with ((2 ^ 53 - 1) * (n * S * Z.pos M)) by ring.
    lia.
  - intros c Hc Hx. specialize (EX c Hc Hx).
    assert (T * S * q + R mod (T * S) = T * S * c) by lia.
    nia.
Qed.

(** The scale and the two sizes, for a frame and a canvas with positive
    sides. *)
Lemma frame_placement_value width height w h :
  0 < width < 2 ^ 31 -> 0 < height < 2 ^ 31 -> 0 < w < 2 ^ 31 -> 0 < h < 2 ^ 31 ->
  exists Mw tw Mh th M t nw nh,
    frame_placement width height (mkFrame h w)
    = and_then (resize nw nh)
        (fun _ => Value (nw, nh, (height - nh) / 2, (width - nw) / 2))
    /\ (2 ^ 52 <= Z.pos Mw < 2 ^ 53 /\ 2 ^ 52 <= Z.pos Mh < 2 ^ 53
        /\ 2 ^ 52 <= Z.pos M < 2 ^ 53)
    /\ (0 <= tw /\ 0 <= th /\ 0 <= t)
    /\ 2 * Z.abs (Z.pos Mw * w - width * 2 ^ tw) <= w
    /\ 2 * Z.abs (Z.pos Mh * h - height * 2 ^ th) <= h
    /\ ((M = Mw /\ t = tw) \/ (M = Mh /\ t = th))
    /\ Z.pos M * 2 ^ tw <= Z.pos Mw * 2 ^ t
    /\ Z.pos M * 2 ^ th <= Z.pos Mh * 2 ^ t
    /\ (0 <= nw
        /\ 2 ^ 53 * (nw * 2 ^ t) <= (2 ^ 53 + 1) * (w * Z.pos M)
        /\ (2 ^ 53 - 1) * (w * Z.pos M) < 2 ^ 53 * ((nw + 1) * 2 ^ t)
        /\ (forall c, 0 < c < 2 ^ 53 -> w * Z.pos M = c * 2 ^ t -> nw = c))
    /\ (0 <= nh
        /\ 2 ^ 53 * (nh * 2 ^ t) <= (2 ^ 53 + 1) * (h * Z.pos M)
        /\ (2 ^ 53 - 1) * (h * Z.pos M) < 2 ^ 53 * ((nh + 1) * 2 ^ t)
        /\ (forall c, 0 < c < 2 ^ 53 -> h * Z.pos M = c * 2 ^ t -> nh = c)).
Proof.
  intros Hwidth Hheight Hw Hh.
  destruct (int_truediv_pos width w Hwidth Hw) as (Mw & tw & Ew & Dw & Htw & Errw).
  destruct (int_truediv_pos height h Hheight Hh) as (Mh & th & Eh & Dh & Hth & Errh).
  destruct (fmin_value Mw tw Mh th Dw Dh) as (M & t & Em & Hor & Lw & Lh); [lia|lia|].
  assert (DM : Z.pos (digits2_pos M) = 53) by (destruct Hor as [[-> _]|[-> _]]; done).
  assert (Ht : 21 <= t <= 84) by (destruct Hor as [[_ ->]|[_ ->]]; done).
  destruct (scaled_size w M t) as (nw & Enw & Pw); [lia|done|lia|].
  destruct (scaled_size h M t) as (nh & Enh & Ph); [lia|done|lia|].
  exists Mw, tw, Mh, th, M, t, nw, nh.
  split.
  { unfold frame_placement. cbn [frame_h frame_w]. rewrite Ew. cbn [and_then].
    rewrite Eh. cbn [and_then]. rewrite Em, Enw. cbn [of_result and_then].
    by rewrite Enh. }
  pose proof (digits2_bounds Mw) as Bw. rewrite Dw in Bw.
  pose proof (digits2_bounds Mh) as Bh. rewrite Dh in Bh.
  pose proof (digits2_bounds M) as BM. rewrite DM in BM.
  change (2 ^ (53 - 1)) with (2 ^ 52) in *.
  repeat split; try done; try lia; try tauto.
Qed.

(** X19.  The frame is resized to fit the canvas, or [cv2.resize] raises.
    For a canvas and a decoded frame with sides from 1 to [2^31 - 1] (C
    ints), lines 81 to 86 of [reencode_with_opencv] end in one of two ways.
    Either [cv2.resize] raises, at line 84, because a computed side is zero:
    this happens for every frame too wide or too high for a pixel of its
    other side to be left ([h * width < w] or [w * height < h]).  Or the size
    [(nw, nh)] has sides of at least one pixel and lies within the canvas; in
    the dimension that limits the scale it is the canvas size or one pixel
    less; the two sides are scaled alike, [nw/w] and [nh/h] differing by less
    than [1/w + 1/h]; and the slice [canvas[top:top+nh, left:left+nw]] lies
    within the canvas, centred up to one pixel.  This is the outcome whenever
    the canvas has sides of two pixels or more, [w < width * h] and
    [h < height * w]. *)
Theorem resized_frame_fits (width height w h : Z) :
  0 < width < 2 ^ 31 -> 0 < height < 2 ^ 31 -> 0 < w < 2 ^ 31 -> 0 < h < 2 ^ 31 ->
  (frame_placement width height (mkFrame h w) = Raised Cv2Error
   \/ exists nw nh top left,
        frame_placement width height (mkFrame h w) = Value (nw, nh, top, left)
        /\ 1 <= nw <= width /\ 1 <= nh <= height
        /\ (width - 1 <= nw \/ height - 1 <= nh)
        /\ Z.abs (nw * h - nh * w) < w + h
        /\ 0 <= top /\ top + nh <= height /\ 0 <= left /\ left + nw <= width
        /\ 0 <= (height - nh) - 2 * top <= 1 /\ 0 <= (width - nw) - 2 * left <= 1)
  /\ (h * width < w \/ w * height < h ->
      frame_placement width height (mkFrame h w) = Raised Cv2Error)
  /\ (2 <= width -> 2 <= height -> w < width * h -> h < height * w ->
      frame_placement width height (mkFrame h w) <> Raised Cv2Error).
Proof.
  intros Hwidth Hheight Hw Hh.
  destruct (frame_placement_value width height w h Hwidth Hheight Hw Hh)
    as (Mw & tw & Mh & th & M & t & nw & nh & E & (Bw & Bh & BM) & (Ptw & Pth & Pt)
        & Errw & Errh & Hor & Lw & Lh & (Nw0 & Uw & Low & _) & (Nh0 & Uh & Loh & _)).
  assert (HT : 0 < 2 ^ t) by lia. assert (HTw : 0 < 2 ^ tw) by lia.
  assert (HTh : 0 < 2 ^ th) by lia.
  rewrite E. unfold resize. split; [|split].
  - destruct (Z.leb_spec nw 0) as [Zw|Pw]; [by left|].
    destruct (Z.leb_spec nh 0) as [Zh|Ph]; [by left|]. cbn [orb and_then]. right.
    exists nw, nh, ((height - nh) / 2), ((width - nw) / 2). split; [done|].
    assert (Fw : nw <= width).
    { apply (placed_upper w width (Z.pos M) (2 ^ t) (Z.pos Mw) (2 ^ tw)); try done; lia. }
    assert (Fh : nh <= height).
    { apply (placed_upper h height (Z.pos M) (2 ^ t) (Z.pos Mh) (2 ^ th)); try done; lia. }
    assert (Sw : w * Z.pos M <= 2 ^ 33 * 2 ^ t).
    { apply (scaled_small w width (Z.pos M) (2 ^ t) (Z.pos Mw) (2 ^ tw)); try done; lia. }
    assert (Sh : h * Z.pos M <= 2 ^ 33 * 2 ^ t).
    { apply (scaled_small h height (Z.pos M) (2 ^ t) (Z.pos Mh) (2 ^ th)); try done; lia. }
    split; [lia|]. split; [lia|].
    split.
    { destruct Hor as [[-> ->]|[-> ->]].
      - left. apply (placed_lower w width (Z.pos Mw) (2 ^ tw)); try done; lia.
      - right. apply (placed_lower h height (Z.pos Mh) (2 ^ th)); try done; lia. }
    split.
    { pose proof (placed_aspect w h (Z.pos M) (2 ^ t) nw nh) as A1.
      pose proof (placed_aspect h w (Z.pos M) (2 ^ t) nh nw) as A2.
      specialize (A1 ltac:(lia) ltac:(lia) HT ltac:(lia) Nh0 Sw Uw Loh).
      specialize (A2 ltac:(lia) ltac:(lia) HT ltac:(lia) Nw0 Sh Uh Low).
      lia. }
    clear - Fw Fh Pw Ph. repeat split; Z.div_mod_to_equations; lia.
  - intros [Hx|Hx].
    + assert (nh <= 0).
      { apply (placed_zero w h width (Z.pos M) (2 ^ t) (Z.pos Mw) (2 ^ tw)); try done; lia. }
      destruct (Z.leb_spec nh 0); [|lia]. by rewrite orb_true_r.
    + assert (nw <= 0).
      { apply (placed_zero h w height (Z.pos M) (2 ^ t) (Z.pos Mh) (2 ^ th)); try done; lia. }
      destruct (Z.leb_spec nw 0); [|lia]. done.
  - intros W2 H2 Hwh Hhw.
    assert (1 <= nw /\ 1 <= nh) as [Pw Ph].
    { destruct Hor as [[-> ->]|[-> ->]].
      - split.
        + assert (width - 1 <= nw); [|lia].
          apply (placed_lower w width (Z.pos Mw) (2 ^ tw)); try done; lia.
        + apply (placed_positive w h width (Z.pos Mw) (2 ^ tw)); try done; lia.
      - split.
        + apply (placed_positive h w height (Z.pos Mh) (2 ^ th)); try done; lia.
        + assert (height - 1 <= nh); [|lia].
          apply (placed_lower h height (Z.pos Mh) (2 ^ th)); try done; lia. }
    destruct (Z.leb_spec nw 0); [lia|]. destruct (Z.leb_spec nh 0); [lia|]. done.
Qed.

Lemma resized_frame_fits_witness :
  (frame_placement 1280 720 (mkFrame 100 616) = Raised Cv2Error
   \/ exists nw nh top left,
        frame_placement 1280 720 (mkFrame 100 616) = Value (nw, nh, top, left)
        /\ 1 <= nw <= 1280 /\ 1 <= nh <= 720
        /\ (1280 - 1 <= nw \/ 720 - 1 <= nh)
        /\ Z.abs (nw * 100 - nh * 616) < 616 + 100
        /\ 0 <= top /\ top + nh <= 720 /\ 0 <= left /\ left + nw <= 1280
        /\ 0 <= (720 - nh) - 2 * top <= 1 /\ 0 <= (1280 - nw) - 2 * left <= 1)
  /\ (100 * 1280 < 616 \/ 616 * 720 < 100 ->
      frame_placement 1280 720 (mkFrame 100 616) = Raised Cv2Error)
  /\ (2 <= 1280 -> 2 <= 720 -> 616 < 1280 * 100 -> 100 < 720 * 616 ->
      frame_placement 1280 720 (mkFrame 100 616) <> Raised Cv2Error).
Proof.
  apply (resized_frame_fits 1280 720 616 100); lia.
Defined.

(** X20.  A whole-number scale is exact.  When the canvas is [c] times as
    wide as the frame and at least [c] times as high, the frame is resized
    to exactly [c] times its size, fills the width and is centred
    vertically; likewise with the two dimensions exchanged.  With [c = 1]: a
    frame of the canvas size is placed unchanged at the corner. *)
Theorem whole_scale_is_exact (width height w h c : Z) :
  0 < width < 2 ^ 31 -> 0 < height < 2 ^ 31 -> 0 < w -> 0 < h -> 0 < c ->
  (width = c * w -> c * h <= height ->
   frame_placement width height (mkFrame h w)
   = Value (width, c * h, (height - c * h) / 2, 0))
  /\ (height = c * h -> c * w <= width ->
      frame_placement width height (mkFrame h w)
      = Value (c * w, height, 0, (width - c * w) / 2)).
Proof.
  intros Hwidth Hheight Hw Hh Hc.
  assert (Main : c * w <= width -> c * h <= height -> (width = c * w \/ height = c * h) ->
                 frame_placement width height (mkFrame h w)
                 = Value (c * w, c * h, (height - c * h) / 2, (width - c * w) / 2)).
  { intros Cw Ch Heq.
    assert (Bw : w < 2 ^ 31) by nia. assert (Bh : h < 2 ^ 31) by nia.
    destruct (frame_placement_value width height w h Hwidth Hheight ltac:(lia) ltac:(lia))
      as (Mw & tw & Mh & th & M & t & nw & nh & E & (BMw & BMh & BM) & (Ptw & Pth & Pt)
          & Errw & Errh & Hor & Lw & Lh & (_ & _ & _ & Xw) & (_ & _ & _ & Xh)).
    assert (HT : 0 < 2 ^ t) by lia. assert (HTw : 0 < 2 ^ tw) by lia.
    assert (HTh : 0 < 2 ^ th) by lia.
    (* each quotient is at least [c] *)
    assert (Gw : c * 2 ^ tw <= Z.pos Mw).
    { assert (c * w * 2 ^ tw <= width * 2 ^ tw) by (apply Z.mul_le_mono_nonneg_r; lia).
      destruct (Z.le_gt_cases (c * 2 ^ tw) (Z.pos Mw)); [done|exfalso].
      assert ((Z.pos Mw + 1) * w <= c * 2 ^ tw * w) by (apply Z.mul_le_mono_nonneg_r; lia).
      lia. }
    assert (Gh : c * 2 ^ th <= Z.pos Mh).
    { assert (c * h * 2 ^ th <= height * 2 ^ th) by (apply Z.mul_le_mono_nonneg_r; lia).
      destruct (Z.le_gt_cases (c * 2 ^ th) (Z.pos Mh)); [done|exfalso].
      assert ((Z.pos Mh + 1) * h <= c * 2 ^ th * h) by (apply Z.mul_le_mono_nonneg_r; lia).
      lia. }
    (* and one of them is [c] *)
    assert (EM : Z.pos M = c * 2 ^ t).
    { destruct Heq as [Hq|Hq].
      - assert (Z.pos Mw = c * 2 ^ tw).
        { rewrite Hq in Errw.
          destruct (Z.le_gt_cases (Z.pos Mw) (c * 2 ^ tw)); [lia|exfalso].
          assert ((c * 2 ^ tw + 1) * w <= Z.pos Mw * w)
            by (apply Z.mul_le_mono_nonneg_r; lia).
          lia. }
        destruct Hor as [[-> ->]|[-> ->]]; [done|]. nia.
      - assert (Z.pos Mh = c * 2 ^ th).
        { rewrite Hq in Errh.
          destruct (Z.le_gt_cases (Z.pos Mh) (c * 2 ^ th)); [lia|exfalso].
          assert ((c * 2 ^ th + 1) * h <= Z.pos Mh * h)
            by (apply Z.mul_le_mono_nonneg_r; lia).
          lia. }
        destruct Hor as [[-> ->]|[-> ->]]; [nia|done]. }
    rewrite E.
    assert (nw = c * w) as ->.
    { apply Xw; [nia|]. rewrite EM. ring. }
    assert (nh = c * h) as ->.
    { apply Xh; [nia|]. rewrite EM. ring. }
    unfold resize.
    destruct (Z.leb_spec (c * w) 0); [nia|]. destruct (Z.leb_spec (c * h) 0); [nia|].
    done. }
  split.
  - intros Hq Hle. rewrite Main by lia. rewrite <- Hq, Z.sub_diag. done.
  - intros Hq Hle. rewrite Main by lia. rewrite <- Hq, Z.sub_diag. done.
Qed.

Lemma whole_scale_is_exact_witness :
  frame_placement 1280 720 (mkFrame 240 640)
  = Value (1280, 2 * 240, (720 - 2 * 240) / 2, 0)
  /\ frame_placement 1280 720 (mkFrame 360 320)
     = Value (2 * 320, 720, 0, (1280 - 2 * 320) / 2).
Proof.
  split.
  - apply (whole_scale_is_exact 1280 720 640 240 2); [lia|lia|lia|lia|lia|reflexivity|lia].
  - apply (whole_scale_is_exact 1280 720 320 360 2); [lia|lia|lia|lia|lia|reflexivity|lia].
Defined.
